(** * Neutron language server: lexer, parser and type checker

    A shallow embedding of [server/parser.js] (class [NeutronParser]) and
    [server/typeChecker.js] (class [TypeChecker]), followed by the
    properties of the two entry points [parse] and [check].

    Conventions of the embedding.
    - A JavaScript string is a [string] of code units below 256; an offset
      into it is a [nat].
    - A method that reads or writes [this] takes the object as an explicit
      state and returns the new one.
    - A method can return, throw, or not return at all; the three outcomes
      are the constructors of [Completion].  The recursive descent of the
      parser is not structural, so its methods take a [fuel] that bounds
      the depth of nested calls and loop iterations: running out of it is
      the outcome [Diverge], never a made-up result. *)

From Stdlib Require Import String Ascii List Arith Bool Lia ZArith DecimalString Sorted.
From Stdlib Require QArith.
From stdpp Require Import gmap strings list.
Import ListNotations.

Local Open Scope string_scope.
Local Open Scope nat_scope.

(** ** JavaScript primitives used by both classes *)

Module Js.

(** The value thrown by a [throw new Error(...)] or by the engine when a
    property of [null] is read. *)
Inductive Exception : Type :=
| Error (message : string)
| TypeError (message : string).

Definition message (e : Exception) : string :=
  match e with
  | Error m => m
  | TypeError m => m
  end.

(** Reading property [p] of [null] (message of V8, the engine of Node). *)
Definition nullRead (p : string) : Exception :=
  TypeError ("Cannot read properties of null (reading '" ++ p ++ "')").

(** Outcome of a method call on an object of state [S]. *)
Inductive Completion (S A : Type) : Type :=
| Normal (a : A) (s : S)
| Throw (e : Exception) (s : S)
| Diverge.
Arguments Normal {S A} a s.
Arguments Throw {S A} e s.
Arguments Diverge {S A}.

(** A numeric property that may be absent: [start] and [end] of a node. *)
Inductive Num : Type :=
| num (z : Z)
| undefined
| NaN.

Definition ofNat (n : nat) : Num := num (Z.of_nat n).

(** [x + k] *)
Definition plus (x : Num) (k : Z) : Num :=
  match x with
  | num z => num (z + k)
  | undefined => NaN
  | NaN => NaN
  end.

(** [`${n}`] for a non-negative integer *)
Definition toString (n : nat) : string :=
  NilZero.string_of_uint (Nat.to_uint n).

(** [input[i]]: [None] is [undefined] *)
Definition charAt (input : string) (i : nat) : option ascii :=
  String.get i input.

(** [input.slice(from, to)] for [from <= to <= input.length] *)
Definition slice (input : string) (from to : nat) : string :=
  String.substring from (to - from) input.

Definition code (c : ascii) : nat := nat_of_ascii c.

Definition inRange (lo hi : ascii) (c : ascii) : bool :=
  (code lo <=? code c) && (code c <=? code hi).

(** [/\s/], restricted to code units below 256: tab, line feed, vertical
    tab, form feed, carriage return, space and no-break space.
    [String.prototype.trim] strips the same set. *)
Definition isSpace (c : ascii) : bool :=
  ((9 <=? code c) && (code c <=? 13)) || (code c =? 32) || (code c =? 160).

(** [/[0-9]/] *)
Definition isDigit (c : ascii) : bool := inRange "0" "9" c.

(** [/[0-9.]/] *)
Definition isDigitOrDot (c : ascii) : bool := isDigit c || Ascii.eqb c ".".

(** [/[a-zA-Z_$]/] *)
Definition isIdentStart (c : ascii) : bool :=
  inRange "a" "z" c || inRange "A" "Z" c || Ascii.eqb c "_" || Ascii.eqb c "$".

(** [/[a-zA-Z0-9_$]/] *)
Definition isIdentPart (c : ascii) : bool := isIdentStart c || isDigit c.

(** [input.trim() === ''] *)
Fixpoint isBlank (input : string) : bool :=
  match input with
  | EmptyString => true
  | String c rest => isSpace c && isBlank rest
  end.

(** [list.includes(v)] on an array of strings *)
Definition includes (l : list string) (v : string) : bool :=
  existsb (String.eqb v) l.

(** [s.includes(sub)] on strings *)
Fixpoint strIncludes (s sub : string) : bool :=
  String.prefix sub s ||
  match s with
  | EmptyString => false
  | String _ rest => strIncludes rest sub
  end.

(** [s.startsWith(c)] for a one-character [c] *)
Definition startsWith (s : string) (c : ascii) : bool :=
  match s with
  | String d _ => Ascii.eqb d c
  | EmptyString => false
  end.

End Js.
Import Js.

(** ** Numbers held by numeric literals

    [Number(raw)] on the text of a NUMBER token, and
    [Number.isInteger].  A finite double is represented by the exact
    rational it approximates: rounding never changes what the checker
    observes, since a literal without a decimal point denotes an integer
    and every integer rounds to an integer or overflows to [Infinity]. *)

Module JsNumber.

Import QArith_base Qreduction.

Inductive Number : Type :=
| Finite (q : Q)
| Infinity (negative : bool)
| NotANumber.

(** Smallest magnitude that rounds to [Infinity]: 2^1024 - 2^970. *)
Definition overflow : Z := (2 ^ 1024 - 2 ^ 970)%Z.

Definition digitValue (c : ascii) : Z := Z.of_nat (code c - code "0").

(** Value of a run of decimal digits, and how many there are. *)
Fixpoint digits (s : string) (acc : Z) (count : nat) : option (Z * nat) :=
  match s with
  | EmptyString => Some (acc, count)
  | String c rest =>
      if isDigit c then digits rest (10 * acc + digitValue c)%Z (S count)
      else None
  end.

(** Splits at the first decimal point. *)
Fixpoint splitDot (s : string) : string * option string :=
  match s with
  | EmptyString => (EmptyString, None)
  | String c rest =>
      if Ascii.eqb c "." then (EmptyString, Some rest)
      else let '(a, b) := splitDot rest in (String c a, b)
  end.

Definition round (negative : bool) (numerator : Z) (decimals : nat) : Number :=
  let scale := (10 ^ Z.of_nat decimals)%Z in
  if (overflow * scale <=? numerator)%Z then Infinity negative
  else
    let n := if negative then (- numerator)%Z else numerator in
    Finite (Qred (Qmake n (Z.to_pos scale))).

(** [Number(raw)] for [raw] made of decimal digits and points after an
    optional minus sign, which covers the text of every NUMBER token:
    digits with at most one point denote their decimal value, a second
    point or a lone point gives [NaN]. *)
Definition ofUnsigned (negative : bool) (s : string) : Number :=
  match splitDot s with
  | (EmptyString, None) => if negative then NotANumber else Finite (Qmake 0 1)
  | (EmptyString, Some EmptyString) => NotANumber
  | (whole, None) =>
      match digits whole 0 0 with
      | Some (n, _) => round negative n 0
      | None => NotANumber
      end
  | (whole, Some frac) =>
      match digits whole 0 0 with
      | Some (n, _) =>
          match digits frac n 0 with
          | Some (m, k) => round negative m k
          | None => NotANumber
          end
      | None => NotANumber
      end
  end.

Definition ofString (raw : string) : Number :=
  match raw with
  | String "-" rest => ofUnsigned true rest
  | _ => ofUnsigned false raw
  end.

(** [Number.isInteger(v)] *)
Definition isInteger (v : Number) : bool :=
  match v with
  | Finite q => Pos.eqb (Qden (Qred q)) 1
  | _ => false
  end.

End JsNumber.

(** ** [class NeutronParser]: the lexer *)

Module NeutronParser.

Inductive TokenType : Type :=
| STRING | NUMBER | IDENTIFIER | KEYWORD | OPERATOR | SYMBOL.

Record Token : Type := mkToken {
  ttype : TokenType;
  tvalue : string;
  tstart : nat;
  tend : nat
}.

Definition TokenType_eqb (a b : TokenType) : bool :=
  match a, b with
  | STRING, STRING | NUMBER, NUMBER | IDENTIFIER, IDENTIFIER
  | KEYWORD, KEYWORD | OPERATOR, OPERATOR | SYMBOL, SYMBOL => true
  | _, _ => false
  end.

(** One recorded syntax error: the argument of [addError]. *)
Record ParseError : Type := mkParseError {
  pmessage : string;
  pstart : Num;
  pend : Num
}.

(** The fields of a [NeutronParser] object.  [input] is [None] until the
    first call of [tokenize] assigns it. *)
Record Parser : Type := mkParser {
  input : option string;
  tokens : list Token;
  position : nat;
  errors : list ParseError
}.

(** [new NeutronParser()] *)
Definition constructor : Parser :=
  {| input := None; tokens := []; position := 0; errors := [] |}.

Definition M (A : Type) : Type := Completion Parser A.

Definition keywords : list string :=
  [ "var"; "int"; "float"; "string"; "bool"; "array"; "object"; "any";
    "if"; "elif"; "else"; "while"; "for"; "return"; "break"; "continue";
    "class"; "fun"; "this"; "and"; "or"; "not"; "in"; "new"; "match";
    "case"; "default"; "use"; "using"; "true"; "false"; "nil"; "static" ].

Definition isKeyword (value : string) : bool := includes keywords value.

(** [while (current < input.length && p(input[current])) current++] *)
Fixpoint scanWhile (p : ascii -> bool) (text : string) (fuel current : nat) : nat :=
  match fuel with
  | 0 => current
  | S fuel' =>
      match charAt text current with
      | Some c => if p c then scanWhile p text fuel' (S current) else current
      | None => current
      end
  end.

(** The loop over the body of a string literal: a backslash skips the
    next character, whatever it is. *)
Fixpoint scanString (quote : ascii) (text : string) (fuel current : nat) : nat :=
  match fuel with
  | 0 => current
  | S fuel' =>
      match charAt text current with
      | Some c =>
          if Ascii.eqb c quote then current
          else if Ascii.eqb c "\" then scanString quote text fuel' (current + 2)
          else scanString quote text fuel' (current + 1)
      | None => current
      end
  end.

(** The loop over the body of a block comment:
    [while (current < input.length - 1 && !(input[current] === '*' && input[current + 1] === '/')) current++] *)
Definition isAt (text : string) (i : nat) (c : ascii) : bool :=
  match charAt text i with
  | Some d => Ascii.eqb d c
  | None => false
  end.

Fixpoint scanBlockComment (text : string) (fuel current : nat) : nat :=
  match fuel with
  | 0 => current
  | S fuel' =>
      if (current <? String.length text - 1)
         && negb (isAt text current "*" && isAt text (current + 1) "/")
      then scanBlockComment text fuel' (S current)
      else current
  end.

(** [input[current + 1] === c] *)
Definition isNext (text : string) (current : nat) (c : ascii) : bool :=
  isAt text (current + 1) c.

Definition unterminated (start : nat) : Exception :=
  Error ("Unterminated string at position " ++ toString start).

(** One turn of the [while (current < input.length)] loop of [tokenize],
    with [char = input[current]]: the new [current] and [tokens], or the
    exception thrown. *)
Definition tokenizeStep (text : string) (current : nat) (char : ascii)
    (tokens : list Token) : Exception + (nat * list Token) :=
  let len := String.length text in
  if isSpace char then inr (current + 1, tokens)
  else if Ascii.eqb char "/" && isNext text current "/" then
    inr (scanWhile (fun c => negb (Ascii.eqb c "010")) text len current, tokens)
  else if Ascii.eqb char "/" && isNext text current "*" then
    inr (scanBlockComment text len (current + 2) + 2, tokens)
  else if Ascii.eqb char "034" || Ascii.eqb char "'" then
    let start := current in
    let quote := char in
    let current := scanString quote text len (current + 1) in
    if len <=? current then inl (unterminated start)
    else
      let current := current + 1 in
      inr (current,
           (tokens ++ [mkToken STRING (slice text start current) start current])%list)
  else if isDigit char then
    let start := current in
    let current := scanWhile isDigitOrDot text len current in
    inr (current,
         (tokens ++ [mkToken NUMBER (slice text start current) start current])%list)
  else if Ascii.eqb char "-" && (current + 1 <? len)
          && match charAt text (current + 1) with
             | Some d => isDigit d
             | None => false
             end then
    let start := current in
    let current := scanWhile isDigitOrDot text len (current + 1) in
    inr (current,
         (tokens ++ [mkToken NUMBER (slice text start current) start current])%list)
  else if isIdentStart char then
    let start := current in
    let current := scanWhile isIdentPart text len current in
    let value := slice text start current in
    let type := if isKeyword value then KEYWORD else IDENTIFIER in
    inr (current, (tokens ++ [mkToken type value start current])%list)
  else if Ascii.eqb char "=" && isNext text current "=" then
    inr (current + 2, (tokens ++ [mkToken OPERATOR "==" current (current + 2)])%list)
  else if Ascii.eqb char "!" && isNext text current "=" then
    inr (current + 2, (tokens ++ [mkToken OPERATOR "!=" current (current + 2)])%list)
  else if Ascii.eqb char ">" && isNext text current "=" then
    inr (current + 2, (tokens ++ [mkToken OPERATOR ">=" current (current + 2)])%list)
  else if Ascii.eqb char "<" && isNext text current "=" then
    inr (current + 2, (tokens ++ [mkToken OPERATOR "<=" current (current + 2)])%list)
  else if Ascii.eqb char "&" && isNext text current "&" then
    inr (current + 2, (tokens ++ [mkToken OPERATOR "and" current (current + 2)])%list)
  else if Ascii.eqb char "|" && isNext text current "|" then
    inr (current + 2, (tokens ++ [mkToken OPERATOR "or" current (current + 2)])%list)
  else
    inr (current + 1,
         (tokens ++ [mkToken SYMBOL (String char EmptyString) current (current + 1)])%list).

(** The loop itself.  Every turn moves [current] forward, so
    [String.length text] units of fuel are enough. *)
Fixpoint tokenizeLoop (text : string) (fuel current : nat) (tokens : list Token)
  : option (Exception + list Token) :=
  match charAt text current with
  | None => Some (inr tokens)
  | Some char =>
      match fuel with
      | 0 => None
      | S fuel' =>
          match tokenizeStep text current char tokens with
          | inl e => Some (inl e)
          | inr (current, tokens) => tokenizeLoop text fuel' current tokens
          end
      end
  end.

(** [tokenize(input)]: stores the text in [this.input], then returns the
    tokens or throws at an unterminated string. *)
Definition tokenize (text : string) (this : Parser) : M (list Token) :=
  let this := {| input := Some text; tokens := tokens this;
                 position := position this; errors := errors this |} in
  match tokenizeLoop text (String.length text) 0 [] with
  | Some (inr tokens) => Normal tokens this
  | Some (inl e) => Throw e this
  | None => Diverge
  end.


(** ** The syntax tree

    One constructor per value of the [type] field, with the fields in the
    order the parser writes them.  A field the parser can set to [null]
    is an [option]; [start] and [end] are [Num] since a node built from a
    block reads the block's missing [end]. *)

Scheme All for list.
Scheme All for option.

Inductive LitValue : Type :=
| VNumber (n : JsNumber.Number)
| VString (s : string)
| VBoolean (b : bool)
| VNull.

Inductive Node : Type :=
| VariableDeclaration (declaredType : option string) (name : string)
    (init : option Node) (isStatic : bool) (start end_ : Num)
| IfStatement (test consequent alternate : option Node) (start end_ : Num)
| BlockStatement (body : list (option Node))
| WhileStatement (test body : option Node) (start end_ : Num)
| ForStatement (init test update : option Node) (body : Node) (start end_ : Num)
| LogicalExpression (operator : string) (left right : Node) (start end_ : Num)
| BinaryExpression (operator : string) (left right : Node) (start end_ : Num)
| UnaryExpression (operator : string) (argument : Node) (start end_ : Num)
| Literal (value : LitValue) (raw : string) (start end_ : Num)
| Identifier (name : string) (start end_ : Num)
| CallExpression (callee : Node) (arguments : list Node) (start end_ : Num)
| MemberExpression (object property : Node) (start end_ : Num)
| ArrayExpression (elements : list Node) (start end_ : Num)
| ObjectExpression (properties : list Node) (start end_ : Num)
| Property (key : Token) (value : Node) (start end_ : Num)
| ExpressionStatement (expression : Node) (start end_ : Num)
| AssignmentExpression (operator : string) (left right : Node) (start end_ : Num)
| FunctionDeclaration (id : Node) (params : list string) (body : Node)
    (start end_ : Num)
| ClassDeclaration (id : Node) (body : Node) (start end_ : Num)
| ReturnStatement (argument : option Node) (start end_ : Num)
| ThrowStatement (argument : option Node) (start end_ : Num)
| DoWhileStatement (test : Node) (body : Node) (start end_ : Num)
| MatchStatement (discriminant : option Node) (cases : list Node)
    (start end_ : Num)
| MatchCase (test : Node) (consequent : Node) (start end_ : Num)
| MatchDefault (consequent : Node) (start end_ : Num)
| RetryStatement (count : Node) (body : Node) (handler : option Node)
    (start end_ : Num)
| TryStatement (block : Node) (handlers : list Node) (finalizer : option Node)
    (start end_ : Num)
| CatchClause (param : option Node) (body : Node) (start end_ : Num)
| FinallyClause (body : Node) (start end_ : Num).

(** [node.start] *)
Definition nodeStart (node : Node) : Num :=
  match node with
  | BlockStatement _ => undefined
  | VariableDeclaration _ _ _ _ s _ | IfStatement _ _ _ s _
  | WhileStatement _ _ s _ | ForStatement _ _ _ _ s _
  | LogicalExpression _ _ _ s _ | BinaryExpression _ _ _ s _
  | UnaryExpression _ _ s _ | Literal _ _ s _ | Identifier _ s _
  | CallExpression _ _ s _ | MemberExpression _ _ s _
  | ArrayExpression _ s _ | ObjectExpression _ s _ | Property _ _ s _
  | ExpressionStatement _ s _ | AssignmentExpression _ _ _ s _
  | FunctionDeclaration _ _ _ s _ | ClassDeclaration _ _ s _
  | ReturnStatement _ s _ | ThrowStatement _ s _ | DoWhileStatement _ _ s _
  | MatchStatement _ _ s _ | MatchCase _ _ s _ | MatchDefault _ s _
  | RetryStatement _ _ _ s _ | TryStatement _ _ _ s _ | CatchClause _ _ s _
  | FinallyClause _ s _ => s
  end.

(** [node.end] *)
Definition nodeEnd (node : Node) : Num :=
  match node with
  | BlockStatement _ => undefined
  | VariableDeclaration _ _ _ _ _ e | IfStatement _ _ _ _ e
  | WhileStatement _ _ _ e | ForStatement _ _ _ _ _ e
  | LogicalExpression _ _ _ _ e | BinaryExpression _ _ _ _ e
  | UnaryExpression _ _ _ e | Literal _ _ _ e | Identifier _ _ e
  | CallExpression _ _ _ e | MemberExpression _ _ _ e
  | ArrayExpression _ _ e | ObjectExpression _ _ e | Property _ _ _ e
  | ExpressionStatement _ _ e | AssignmentExpression _ _ _ _ e
  | FunctionDeclaration _ _ _ _ e | ClassDeclaration _ _ _ e
  | ReturnStatement _ _ e | ThrowStatement _ _ e | DoWhileStatement _ _ _ e
  | MatchStatement _ _ _ e | MatchCase _ _ _ e | MatchDefault _ _ e
  | RetryStatement _ _ _ _ e | TryStatement _ _ _ _ e | CatchClause _ _ _ e
  | FinallyClause _ _ e => e
  end.

(** The object returned by [parse].  The [errors] property holds the
    parser's own array, not a copy: [errorsField] says whether the property
    is present, and [readErrors] reads it through the parser it aliases. *)
Record Program : Type := mkProgram {
  body : list Node;
  errorsField : bool
}.

Definition readErrors (this : Parser) (ast : Program) : option (list ParseError) :=
  if errorsField ast then Some (errors this) else None.

(** ** Cursor and error list of the parser *)

Notation "a === b" := (String.eqb a b) (at level 70, no associativity).
Notation "a !== b" := (negb (String.eqb a b)) (at level 70, no associativity).

(** [this.position < this.tokens.length ? this.tokens[this.position] : null] *)
Definition currentToken (this : Parser) : option Token :=
  if position this <? length (tokens this)
  then nth_error (tokens this) (position this)
  else None.

Definition setPosition (n : nat) (this : Parser) : Parser :=
  {| input := input this; tokens := tokens this; position := n;
     errors := errors this |}.

(** [nextToken()]; no caller uses the token it returns. *)
Definition nextToken (this : Parser) : Parser :=
  if position this <? length (tokens this)
  then setPosition (position this + 1) this
  else this.

(** [addError(message, start, end)] *)
Definition addError (message : string) (start end_ : Num) (this : Parser) : Parser :=
  {| input := input this; tokens := tokens this; position := position this;
     errors := errors this ++ [mkParseError message start end_] |}.

(** The loop of [findEndOfLine], from index [i]. *)
Fixpoint findEndOfLineFrom (text : string) (fuel i : nat) : nat :=
  match fuel with
  | 0 => String.length text
  | S fuel' =>
      match charAt text i with
      | Some c =>
          if Ascii.eqb c "010" || Ascii.eqb c "013" then i
          else findEndOfLineFrom text fuel' (S i)
      | None => String.length text
      end
  end.

(** [findEndOfLine(pos)]; reading [this.input.length] throws while
    [this.input] is still unassigned. *)
Definition findEndOfLine (pos : nat) (this : Parser) : M nat :=
  match input this with
  | Some text =>
      Normal (findEndOfLineFrom text (String.length text - pos) pos) this
  | None =>
      Throw (TypeError "Cannot read properties of undefined (reading 'length')") this
  end.

Definition statementStarters : list string :=
  [ "var"; "if"; "while"; "do"; "for"; "fun"; "class"; "return"; "match";
    "retry"; "try" ].

Definition isStatementStart (token : Token) : bool :=
  includes statementStarters (tvalue token) || TokenType_eqb (ttype token) IDENTIFIER.

Definition isTypeKeyword (value : string) : bool :=
  includes [ "int"; "float"; "string"; "bool"; "array"; "object"; "any" ] value.

(** [this.currentToken() && this.currentToken().value === v] *)
Definition curIs (this : Parser) (v : string) : bool :=
  match currentToken this with
  | Some token => tvalue token === v
  | None => false
  end.

(** [this.currentToken() && this.currentToken().value !== v] *)
Definition curIsNot (this : Parser) (v : string) : bool :=
  match currentToken this with
  | Some token => tvalue token !== v
  | None => false
  end.

(** [this.currentToken() && this.currentToken().type === 'IDENTIFIER'] *)
Definition curIsIdentifier (this : Parser) : bool :=
  match currentToken this with
  | Some token => TokenType_eqb (ttype token) IDENTIFIER
  | None => false
  end.

(** [throw new Error(`${text}${this.currentToken().start}`)]: building the
    message reads [start] of [null] when the tokens are exhausted, and it
    is that [TypeError] which is thrown. *)
Definition throwAt {A : Type} (text : string) (this : Parser) : M A :=
  match currentToken this with
  | Some token => Throw (Error (text ++ toString (tstart token))) this
  | None => Throw (nullRead "start") this
  end.

(** The loop of [skipToNextStatement]; the cursor moves at every turn, so
    the number of tokens left bounds the turns. *)
Fixpoint skipToNextStatementLoop (fuel : nat) (this : Parser) : Parser :=
  match fuel with
  | 0 => this
  | S fuel' =>
      match currentToken this with
      | None => this
      | Some token =>
          if tvalue token === ";" then nextToken this
          else if (tvalue token === "}") || (tvalue token === "{") then this
          else if isStatementStart token then this
          else skipToNextStatementLoop fuel' (nextToken this)
      end
  end.

Definition skipToNextStatement (this : Parser) : Parser :=
  skipToNextStatementLoop (length (tokens this) - position this) this.

(** The recovery loops
    [while (this.currentToken() && this.currentToken().value !== a && ...) this.nextToken()] *)
Fixpoint skipUntilLoop (stops : list string) (fuel : nat) (this : Parser) : Parser :=
  match fuel with
  | 0 => this
  | S fuel' =>
      match currentToken this with
      | None => this
      | Some token =>
          if includes stops (tvalue token) then this
          else skipUntilLoop stops fuel' (nextToken this)
      end
  end.

Definition skipUntil (stops : list string) (this : Parser) : Parser :=
  skipUntilLoop stops (length (tokens this) - position this) this.

(** [this.currentToken() ? this.currentToken().start : this.tokens.length - 1] *)
Definition errorPosition (this : Parser) : Z :=
  match currentToken this with
  | Some token => Z.of_nat (tstart token)
  | None => Z.of_nat (length (tokens this)) - 1
  end.

(** [addError(message, errorPos, errorPos + 1)] *)
Definition addErrorHere (message : string) (this : Parser) : Parser :=
  let errorPos := errorPosition this in
  addError message (num errorPos) (num (errorPos + 1)) this.

(** The parameter list of a function declaration, after the first name:
    [while (cur && cur.value === ',') { nextToken(); if (cur is IDENTIFIER) { push; nextToken() } }] *)
Fixpoint parseParamsLoop (fuel : nat) (params : list string) (this : Parser)
  : list string * Parser :=
  match fuel with
  | 0 => (params, this)
  | S fuel' =>
      if curIs this "," then
        let this := nextToken this in
        match currentToken this with
        | Some token =>
            if TokenType_eqb (ttype token) IDENTIFIER
            then parseParamsLoop fuel' (params ++ [tvalue token]) (nextToken this)
            else parseParamsLoop fuel' params this
        | None => parseParamsLoop fuel' params this
        end
      else (params, this)
  end.

(** Sequencing of two calls: an exception or a divergence of the first
    ends the second. *)
Notation "'do' x 'with' s <- c ; k" :=
  (match c with
   | Normal x s => k
   | Throw e s' => Throw e s'
   | Diverge => Diverge
   end)
  (at level 10, x name, s name, c at level 100, k at level 200,
   format "'[v' 'do'  x  'with'  s  <-  c ; '/' k ']'").

Definition some {A : Type} (c : M A) : M (option A) :=
  do a with this <- c; Normal (Some a) this.

(** [parseTemplateLiteral(token)] *)
Definition parseTemplateLiteral (token : Token) : Node :=
  Literal (VString (tvalue token)) (tvalue token)
    (ofNat (tstart token)) (ofNat (tend token)).

(** [start: startToken.start] in a node under construction: a [TypeError]
    when the method was entered with no token left. *)
Definition withStart (startToken : option Token) (this : Parser)
    (k : Token -> M Node) : M Node :=
  match startToken with
  | Some token => k token
  | None => Throw (nullRead "start") this
  end.

(** [this.currentToken() ? this.currentToken().end : fallback] *)
Definition endOrElse (this : Parser) (fallback : Num) : Num :=
  match currentToken this with
  | Some token => ofNat (tend token)
  | None => fallback
  end.

(** [this.currentToken() ? this.currentToken().start : fallback] *)
Definition startOrElse (this : Parser) (fallback : Num) : Num :=
  match currentToken this with
  | Some token => ofNat (tstart token)
  | None => fallback
  end.

Definition isIdentifierNode (node : Node) : bool :=
  match node with
  | Identifier _ _ _ => true
  | _ => false
  end.

(** After a missing closing parenthesis has been reported: skip to a
    [')'], a ['{'] or one of [more], and step over the [')']. *)
Definition recoverClose (stops : list string) (this : Parser) : Parser :=
  let this := skipUntil stops this in
  if curIs this ")" then nextToken this else this.

(** ** The recursive descent

    The methods of [NeutronParser] that call one another.  The recursion
    is bounded by [fuel]: a method of a recursive group hands [fuel - 1] to
    the methods it calls, and a [while] loop whose body calls a method is a
    function of its own, named after the method with the suffix [Loop].

    *** Expressions *)

Fixpoint parseExpression (fuel : nat) (this : Parser) {struct fuel} : M Node :=
  match fuel with
  | 0 => Diverge
  | S fuel => parseLogicalOr fuel this
  end

with parseLogicalOr (fuel : nat) (this : Parser) {struct fuel} : M Node :=
  match fuel with
  | 0 => Diverge
  | S fuel =>
      do expr with this <- parseLogicalAnd fuel this;
      parseLogicalOrLoop fuel expr this
  end

with parseLogicalOrLoop (fuel : nat) (expr : Node) (this : Parser)
    {struct fuel} : M Node :=
  match fuel with
  | 0 => Diverge
  | S fuel =>
      if curIs this "or" then
        let this := nextToken this in
        do right with this <- parseLogicalAnd fuel this;
        parseLogicalOrLoop fuel
          (LogicalExpression "or" expr right (nodeStart expr) (nodeEnd right)) this
      else Normal expr this
  end

with parseLogicalAnd (fuel : nat) (this : Parser) {struct fuel} : M Node :=
  match fuel with
  | 0 => Diverge
  | S fuel =>
      do expr with this <- parseEquality fuel this;
      parseLogicalAndLoop fuel expr this
  end

with parseLogicalAndLoop (fuel : nat) (expr : Node) (this : Parser)
    {struct fuel} : M Node :=
  match fuel with
  | 0 => Diverge
  | S fuel =>
      if curIs this "and" then
        let this := nextToken this in
        do right with this <- parseEquality fuel this;
        parseLogicalAndLoop fuel
          (LogicalExpression "and" expr right (nodeStart expr) (nodeEnd right)) this
      else Normal expr this
  end

with parseEquality (fuel : nat) (this : Parser) {struct fuel} : M Node :=
  match fuel with
  | 0 => Diverge
  | S fuel =>
      do expr with this <- parseRelational fuel this;
      parseEqualityLoop fuel expr this
  end

with parseEqualityLoop (fuel : nat) (expr : Node) (this : Parser)
    {struct fuel} : M Node :=
  match fuel with
  | 0 => Diverge
  | S fuel =>
      match currentToken this with
      | Some opToken =>
          if (tvalue opToken === "==") || (tvalue opToken === "!=") then
            let this := nextToken this in
            do right with this <- parseRelational fuel this;
            parseEqualityLoop fuel
              (BinaryExpression (tvalue opToken) expr right
                 (nodeStart expr) (nodeEnd right)) this
          else Normal expr this
      | None => Normal expr this
      end
  end

with parseRelational (fuel : nat) (this : Parser) {struct fuel} : M Node :=
  match fuel with
  | 0 => Diverge
  | S fuel =>
      do expr with this <- parseAdditive fuel this;
      parseRelationalLoop fuel expr this
  end

with parseRelationalLoop (fuel : nat) (expr : Node) (this : Parser)
    {struct fuel} : M Node :=
  match fuel with
  | 0 => Diverge
  | S fuel =>
      match currentToken this with
      | Some opToken =>
          if includes ["<"; "<="; ">"; ">="] (tvalue opToken) then
            let this := nextToken this in
            do right with this <- parseAdditive fuel this;
            parseRelationalLoop fuel
              (BinaryExpression (tvalue opToken) expr right
                 (nodeStart expr) (nodeEnd right)) this
          else Normal expr this
      | None => Normal expr this
      end
  end

with parseAdditive (fuel : nat) (this : Parser) {struct fuel} : M Node :=
  match fuel with
  | 0 => Diverge
  | S fuel =>
      do expr with this <- parseMultiplicative fuel this;
      parseAdditiveLoop fuel expr this
  end

with parseAdditiveLoop (fuel : nat) (expr : Node) (this : Parser)
    {struct fuel} : M Node :=
  match fuel with
  | 0 => Diverge
  | S fuel =>
      match currentToken this with
      | Some opToken =>
          if (tvalue opToken === "+") || (tvalue opToken === "-") then
            let this := nextToken this in
            do right with this <- parseMultiplicative fuel this;
            parseAdditiveLoop fuel
              (BinaryExpression (tvalue opToken) expr right
                 (nodeStart expr) (nodeEnd right)) this
          else Normal expr this
      | None => Normal expr this
      end
  end

with parseMultiplicative (fuel : nat) (this : Parser) {struct fuel} : M Node :=
  match fuel with
  | 0 => Diverge
  | S fuel =>
      do expr with this <- parseUnary fuel this;
      parseMultiplicativeLoop fuel expr this
  end

with parseMultiplicativeLoop (fuel : nat) (expr : Node) (this : Parser)
    {struct fuel} : M Node :=
  match fuel with
  | 0 => Diverge
  | S fuel =>
      match currentToken this with
      | Some opToken =>
          if includes ["*"; "/"; "%"] (tvalue opToken) then
            let this := nextToken this in
            do right with this <- parseUnary fuel this;
            parseMultiplicativeLoop fuel
              (BinaryExpression (tvalue opToken) expr right
                 (nodeStart expr) (nodeEnd right)) this
          else Normal expr this
      | None => Normal expr this
      end
  end

with parseUnary (fuel : nat) (this : Parser) {struct fuel} : M Node :=
  match fuel with
  | 0 => Diverge
  | S fuel =>
      match currentToken this with
      | Some opToken =>
          if tvalue opToken === "not" then
            let this := nextToken this in
            do argument with this <- parseUnary fuel this;
            Normal
              (UnaryExpression "not" argument
                 (ofNat (tstart opToken)) (nodeEnd argument)) this
          else parsePrimary fuel this
      | None => parsePrimary fuel this
      end
  end

with parsePrimary (fuel : nat) (this : Parser) {struct fuel} : M Node :=
  match fuel with
  | 0 => Diverge
  | S fuel =>
      match currentToken this with
      | None => Throw (Error "Unexpected end of input") this
      | Some token =>
          let value := tvalue token in
          let start := ofNat (tstart token) in
          let end_ := ofNat (tend token) in
          if TokenType_eqb (ttype token) NUMBER then
            Normal (Literal (VNumber (JsNumber.ofString value)) value start end_)
              (nextToken this)
          else if TokenType_eqb (ttype token) STRING then
            let this := nextToken this in
            if strIncludes value "${" then Normal (parseTemplateLiteral token) this
            else Normal (Literal (VString value) value start end_) this
          else if (value === "true") || (value === "false") then
            Normal (Literal (VBoolean (value === "true")) value start end_)
              (nextToken this)
          else if value === "nil" then
            Normal (Literal VNull value start end_) (nextToken this)
          else if TokenType_eqb (ttype token) IDENTIFIER then
            let identifier := Identifier value start end_ in
            let this := nextToken this in
            if curIs this "(" then parseCallExpression fuel identifier this
            else if curIs this "." then parseMemberExpression fuel identifier this
            else Normal identifier this
          else if value === "(" then
            let this := nextToken this in
            do expr with this <- parseExpression fuel this;
            if negb (curIs this ")") then throwAt "Expected ')' at position " this
            else Normal expr (nextToken this)
          else if value === "throw" then parseThrowStatement fuel this
          else if value === "[" then parseArrayExpression fuel this
          else if value === "{" then parseObjectExpression fuel this
          else
            Throw
              (Error ("Unexpected token '" ++ value ++ "' at position "
                      ++ toString (tstart token))) this
      end
  end

with parseExpressionsLoop (fuel : nat) (items : list Node) (this : Parser)
    {struct fuel} : M (list Node) :=
  (* [while (cur && cur.value === ',') { nextToken(); items.push(parseExpression()) }] *)
  match fuel with
  | 0 => Diverge
  | S fuel =>
      if curIs this "," then
        let this := nextToken this in
        do item with this <- parseExpression fuel this;
        parseExpressionsLoop fuel (items ++ [item]) this
      else Normal items this
  end

with parseCallExpression (fuel : nat) (callee : Node) (this : Parser)
    {struct fuel} : M Node :=
  match fuel with
  | 0 => Diverge
  | S fuel =>
      if negb (curIs this "(") then
        throwAt "Expected '(' for function call at position " this
      else
      let this := nextToken this in
      do args with this <-
        (if curIsNot this ")" then
           do first with this <- parseExpression fuel this;
           parseExpressionsLoop fuel [first] this
         else Normal [] this);
      match currentToken this with
      | Some endToken =>
          if tvalue endToken === ")" then
            Normal
              (CallExpression callee args (nodeStart callee) (ofNat (tend endToken)))
              (nextToken this)
          else throwAt "Expected ')' to close function call at position " this
      | None => throwAt "Expected ')' to close function call at position " this
      end
  end

with parseMemberExpression (fuel : nat) (object : Node) (this : Parser)
    {struct fuel} : M Node :=
  match fuel with
  | 0 => Diverge
  | S fuel =>
      if negb (curIs this ".") then
        throwAt "Expected '.' for member access at position " this
      else
      let this := nextToken this in
      match currentToken this with
      | Some token =>
          if TokenType_eqb (ttype token) IDENTIFIER then
            let property :=
              Identifier (tvalue token) (ofNat (tstart token)) (ofNat (tend token)) in
            let this := nextToken this in
            let member :=
              MemberExpression object property (nodeStart object) (nodeEnd property) in
            if curIs this "(" then parseCallExpression fuel member this
            else Normal member this
          else throwAt "Expected identifier after '.' at position " this
      | None => throwAt "Expected identifier after '.' at position " this
      end
  end

with parseArrayExpression (fuel : nat) (this : Parser) {struct fuel} : M Node :=
  match fuel with
  | 0 => Diverge
  | S fuel =>
      let startToken := currentToken this in
      let this := nextToken this in
      do elements with this <-
        (if curIsNot this "]" then
           do first with this <- parseExpression fuel this;
           parseExpressionsLoop fuel [first] this
         else Normal [] this);
      match currentToken this with
      | Some endToken =>
          if tvalue endToken === "]" then
            let this := nextToken this in
            withStart startToken this (fun startToken =>
              Normal
                (ArrayExpression elements
                   (ofNat (tstart startToken)) (ofNat (tend endToken))) this)
          else throwAt "Expected ']' to close array at position " this
      | None => throwAt "Expected ']' to close array at position " this
      end
  end

with parseObjectExpression (fuel : nat) (this : Parser) {struct fuel} : M Node :=
  match fuel with
  | 0 => Diverge
  | S fuel =>
      let startToken := currentToken this in
      let this := nextToken this in
      do properties with this <-
        (if curIsNot this "}" then
           do first with this <- parseObjectProperty fuel this;
           parsePropertiesLoop fuel [first] this
         else Normal [] this);
      match currentToken this with
      | Some endToken =>
          if tvalue endToken === "}" then
            let this := nextToken this in
            withStart startToken this (fun startToken =>
              Normal
                (ObjectExpression properties
                   (ofNat (tstart startToken)) (ofNat (tend endToken))) this)
          else throwAt "Expected '}' to close object at position " this
      | None => throwAt "Expected '}' to close object at position " this
      end
  end

with parsePropertiesLoop (fuel : nat) (properties : list Node) (this : Parser)
    {struct fuel} : M (list Node) :=
  match fuel with
  | 0 => Diverge
  | S fuel =>
      if curIs this "," then
        let this := nextToken this in
        do property with this <- parseObjectProperty fuel this;
        parsePropertiesLoop fuel (properties ++ [property]) this
      else Normal properties this
  end

with parseObjectProperty (fuel : nat) (this : Parser) {struct fuel} : M Node :=
  match fuel with
  | 0 => Diverge
  | S fuel =>
      match currentToken this with
      | Some key =>
          if TokenType_eqb (ttype key) STRING then
            let this := nextToken this in
            if negb (curIs this ":") then
              throwAt "Expected ':' after object property key at position " this
            else
            let this := nextToken this in
            do value with this <- parseExpression fuel this;
            Normal (Property key value (ofNat (tstart key)) (nodeEnd value)) this
          else throwAt "Expected string key for object property at position " this
      | None => throwAt "Expected string key for object property at position " this
      end
  end

with parseThrowStatement (fuel : nat) (this : Parser) {struct fuel} : M Node :=
  match fuel with
  | 0 => Diverge
  | S fuel =>
      let startToken := currentToken this in
      let this := nextToken this in
      do argument with this <-
        (if curIsNot this ";" && curIsNot this "}"
            && curIsNot this (String "010" EmptyString)
         then some (parseExpression fuel this)
         else Normal None this);
      let this := if curIs this ";" then nextToken this else this in
      withStart startToken this (fun startToken =>
        Normal
          (ThrowStatement argument (ofNat (tstart startToken))
             (match argument with
              | Some argument => nodeEnd argument
              | None => ofNat (tend startToken + 5)
              end)) this)
  end.

(** *** Statements made of expressions only *)

Definition parseVariableDeclaration (fuel : nat) (this : Parser) : M Node :=
  match currentToken this with
  | None => Throw (nullRead "value") this
  | Some startToken =>
      let static : M bool :=
        if tvalue startToken === "static" then
          let this := nextToken this in
          if curIsNot this "var"
          then throwAt "Expected 'var' after 'static' at position " this
          else Normal true (nextToken this)
        else Normal false (nextToken this) in
      do isStatic with this <- static;
      let '(declaredType, this) :=
        match currentToken this with
        | Some token =>
            if isTypeKeyword (tvalue token)
            then (Some (tvalue token), nextToken this)
            else (None, this)
        | None => (None, this)
        end in
      match currentToken this with
      | Some nameToken =>
          if TokenType_eqb (ttype nameToken) IDENTIFIER then
            let name := tvalue nameToken in
            let this := nextToken this in
            do init with this <-
              (if curIs this "=" then some (parseExpression fuel (nextToken this))
               else Normal None this);
            if curIs this ";" then
              let this := nextToken this in
              Normal
                (VariableDeclaration declaredType name init isStatic
                   (ofNat (tstart startToken))
                   (startOrElse this (ofNat (tend nameToken + 1))))
                this
            else
              do lineEnd with this <- findEndOfLine (tend nameToken) this;
              let this :=
                addError "Missing semicolon at end of variable declaration"
                  (ofNat (tend nameToken)) (ofNat lineEnd) this in
              Normal
                (VariableDeclaration declaredType name init isStatic
                   (ofNat (tstart startToken)) (ofNat (tend nameToken)))
                this
          else throwAt "Expected identifier at position " this
      | None => throwAt "Expected identifier at position " this
      end
  end.

Definition parseAssignmentExpression (fuel : nat) (left : Node) (this : Parser)
    : M Node :=
  if negb (curIs this "=") then
    throwAt "Expected '=' in assignment at position " this
  else
  let this := nextToken this in
  do right with this <- parseExpression fuel this;
  if curIs this ";" then
    let this := nextToken this in
    Normal
      (AssignmentExpression "=" left right (nodeStart left)
         (startOrElse this (plus (nodeEnd right) 1))) this
  else
    Normal
      (AssignmentExpression "=" left right (nodeStart left) (nodeEnd right)) this.

Definition parseExpressionStatement (fuel : nat) (this : Parser) : M Node :=
  do expr with this <- parseExpression fuel this;
  if isIdentifierNode expr && curIs this "=" then
    parseAssignmentExpression fuel expr this
  else if curIs this ";" then
    let this := nextToken this in
    Normal
      (ExpressionStatement expr (nodeStart expr)
         (startOrElse this (plus (nodeEnd expr) 1))) this
  else
    Normal (ExpressionStatement expr (nodeStart expr) (nodeEnd expr)) this.

Definition parseReturnStatement (fuel : nat) (this : Parser) : M Node :=
  let startToken := currentToken this in
  let this := nextToken this in
  do argument with this <-
    (if curIsNot this ";" && curIsNot this "}"
        && curIsNot this (String "010" EmptyString)
     then some (parseExpression fuel this)
     else Normal None this);
  let this := if curIs this ";" then nextToken this else this in
  withStart startToken this (fun startToken =>
    Normal
      (ReturnStatement argument (ofNat (tstart startToken))
         (match argument with
          | Some argument => nodeEnd argument
          | None => ofNat (tend startToken + 6)
          end)) this).

(** *** Statements *)

Fixpoint parseStatement (fuel : nat) (this : Parser) {struct fuel} : M (option Node) :=
  match fuel with
  | 0 => Diverge
  | S fuel =>
      match currentToken this with
      | None => Normal None this
      | Some token =>
          let value := tvalue token in
          let attempt : M (option Node) :=
            if (value === "static") || (value === "var") then
              some (parseVariableDeclaration fuel this)
            else if value === "if" then some (parseIfStatement fuel this)
            else if value === "while" then some (parseWhileStatement fuel this)
            else if value === "do" then some (parseDoWhileStatement fuel this)
            else if value === "for" then some (parseForStatement fuel this)
            else if value === "fun" then some (parseFunctionDeclaration fuel this)
            else if value === "class" then some (parseClassDeclaration fuel this)
            else if value === "return" then some (parseReturnStatement fuel this)
            else if value === "match" then some (parseMatchStatement fuel this)
            else if value === "retry" then some (parseRetryStatement fuel this)
            else if value === "try" then some (parseTryStatement fuel this)
            else if TokenType_eqb (ttype token) IDENTIFIER then
              some (parseExpressionStatement fuel this)
            else Normal None (skipToNextStatement this)
          in
          match attempt with
          | Throw e this =>
              let this :=
                addError (message e) (ofNat (tstart token)) (ofNat (tend token)) this in
              Normal None (skipToNextStatement this)
          | completed => completed
          end
      end
  end

with parseIfStatement (fuel : nat) (this : Parser) {struct fuel} : M Node :=
  match fuel with
  | 0 => Diverge
  | S fuel =>
      let startToken := currentToken this in
      let this := nextToken this in
      let rest (this : Parser) : M Node :=
        let this := nextToken this in
        do test with this <- parseExpression fuel this;
        let this :=
          if negb (curIs this ")")
          then recoverClose [")"; "{"; ";"]
                 (addErrorHere "Expected ')' after if condition" this)
          else nextToken this in
        do consequent with this <- parseBlock fuel this;
        do alternate with this <-
          (if curIs this "else" then
             let this := nextToken this in
             if curIs this "if" then some (parseIfStatement fuel this)
             else some (parseBlock fuel this)
           else Normal None this);
        withStart startToken this (fun startToken =>
          Normal
            (IfStatement (Some test) (Some consequent) alternate
               (ofNat (tstart startToken)) (endOrElse this (nodeEnd consequent)))
            this)
      in
      if negb (curIs this "(") then
        let this := addErrorHere "Expected '(' after 'if'" this in
        let this := skipUntil ["("; "{"; ";"] this in
        match currentToken this with
        | None =>
            withStart startToken this (fun startToken =>
              Normal
                (IfStatement None None None
                   (ofNat (tstart startToken)) (ofNat (tend startToken)))
                this)
        | Some _ => rest this
        end
      else rest this
  end

with parseBlock (fuel : nat) (this : Parser) {struct fuel} : M Node :=
  match fuel with
  | 0 => Diverge
  | S fuel =>
      if curIs this "{" then
        let this := nextToken this in
        do body with this <- parseBlockLoop fuel [] this;
        let this :=
          match currentToken this with
          | Some _ => nextToken this
          | None => this
          end in
        Normal (BlockStatement body) this
      else
        do stmt with this <- parseStatement fuel this;
        Normal (BlockStatement [stmt]) this
  end

with parseBlockLoop (fuel : nat) (body : list (option Node)) (this : Parser)
    {struct fuel} : M (list (option Node)) :=
  match fuel with
  | 0 => Diverge
  | S fuel =>
      if (position this <? length (tokens this)) && curIsNot this "}" then
        do stmt with this <- parseStatement fuel this;
        parseBlockLoop fuel
          (match stmt with
           | Some _ => body ++ [stmt]
           | None => body
           end) this
      else Normal body this
  end

with parseWhileStatement (fuel : nat) (this : Parser) {struct fuel} : M Node :=
  match fuel with
  | 0 => Diverge
  | S fuel =>
      let startToken := currentToken this in
      let this := nextToken this in
      let rest (this : Parser) : M Node :=
        let this := nextToken this in
        do test with this <- parseExpression fuel this;
        let this :=
          if negb (curIs this ")")
          then recoverClose [")"; "{"; ";"]
                 (addErrorHere "Expected ')' after while condition" this)
          else nextToken this in
        do body with this <- parseBlock fuel this;
        withStart startToken this (fun startToken =>
          Normal
            (WhileStatement (Some test) (Some body)
               (ofNat (tstart startToken)) (endOrElse this (nodeEnd body)))
            this)
      in
      if negb (curIs this "(") then
        let this := addErrorHere "Expected '(' after 'while'" this in
        let this := skipUntil ["("; "{"; ";"] this in
        match currentToken this with
        | None =>
            withStart startToken this (fun startToken =>
              Normal
                (WhileStatement None None
                   (ofNat (tstart startToken)) (ofNat (tend startToken)))
                this)
        | Some _ => rest this
        end
      else rest this
  end

with parseForStatement (fuel : nat) (this : Parser) {struct fuel} : M Node :=
  match fuel with
  | 0 => Diverge
  | S fuel =>
      let startToken := currentToken this in
      let this := nextToken this in
      if negb (curIs this "(") then
        throwAt "Expected '(' after 'for' at position " this
      else
      let this := nextToken this in
      match currentToken this with
      | None => Throw (nullRead "value") this
      | Some token =>
      do init with this <-
        (if tvalue token !== ";" then
           if tvalue token === "var" then some (parseVariableDeclaration fuel this)
           else some (parseExpression fuel this)
         else Normal None this);
      if negb (curIs this ";") then
        throwAt "Expected ';' after for init at position " this
      else
      let this := nextToken this in
      match currentToken this with
      | None => Throw (nullRead "value") this
      | Some token =>
      do test with this <-
        (if tvalue token !== ";" then some (parseExpression fuel this)
         else Normal None this);
      if negb (curIs this ";") then
        throwAt "Expected ';' after for test at position " this
      else
      let this := nextToken this in
      match currentToken this with
      | None => Throw (nullRead "value") this
      | Some token =>
      do update with this <-
        (if tvalue token !== ")" then some (parseExpression fuel this)
         else Normal None this);
      if negb (curIs this ")") then
        throwAt "Expected ')' after for update at position " this
      else
      let this := nextToken this in
      do body with this <- parseBlock fuel this;
      withStart startToken this (fun startToken =>
        Normal
          (ForStatement init test update body
             (ofNat (tstart startToken))
             (endOrElse this (ofNat (tend startToken))))
          this)
      end end end
  end

with parseFunctionDeclaration (fuel : nat) (this : Parser) {struct fuel} : M Node :=
  match fuel with
  | 0 => Diverge
  | S fuel =>
      let startToken := currentToken this in
      let this := nextToken this in
      match currentToken this with
      | Some nameToken =>
          if TokenType_eqb (ttype nameToken) IDENTIFIER then
            let name := tvalue nameToken in
            let this := nextToken this in
            if negb (curIs this "(") then
              throwAt "Expected '(' after function name at position " this
            else
            let this := nextToken this in
            let '(params, this) :=
              if curIsNot this ")" then
                let '(params, this) :=
                  match currentToken this with
                  | Some token =>
                      if TokenType_eqb (ttype token) IDENTIFIER
                      then ([tvalue token], nextToken this)
                      else ([], this)
                  | None => ([], this)
                  end in
                parseParamsLoop (length (tokens this) - position this) params this
              else ([], this) in
            if negb (curIs this ")") then
              throwAt "Expected ')' after function parameters at position " this
            else
            let this := nextToken this in
            do body with this <- parseBlock fuel this;
            withStart startToken this (fun startToken =>
              Normal
                (FunctionDeclaration
                   (Identifier name (ofNat (tstart nameToken)) (ofNat (tend nameToken)))
                   params body
                   (ofNat (tstart startToken))
                   (endOrElse this (ofNat (tend startToken)))) this)
          else throwAt "Expected function name after 'fun' at position " this
      | None => throwAt "Expected function name after 'fun' at position " this
      end
  end

with parseClassDeclaration (fuel : nat) (this : Parser) {struct fuel} : M Node :=
  match fuel with
  | 0 => Diverge
  | S fuel =>
      let startToken := currentToken this in
      let this := nextToken this in
      match currentToken this with
      | Some nameToken =>
          if TokenType_eqb (ttype nameToken) IDENTIFIER then
            let name := tvalue nameToken in
            let this := nextToken this in
            if negb (curIs this "{") then
              throwAt "Expected '{' to start class body at position " this
            else
            do body with this <- parseBlock fuel this;
            withStart startToken this (fun startToken =>
              Normal
                (ClassDeclaration
                   (Identifier name (ofNat (tstart nameToken)) (ofNat (tend nameToken)))
                   body
                   (ofNat (tstart startToken))
                   (endOrElse this (ofNat (tend startToken)))) this)
          else throwAt "Expected class name after 'class' at position " this
      | None => throwAt "Expected class name after 'class' at position " this
      end
  end

with parseDoWhileStatement (fuel : nat) (this : Parser) {struct fuel} : M Node :=
  match fuel with
  | 0 => Diverge
  | S fuel =>
      let startToken := currentToken this in
      let this := nextToken this in
      do body with this <- parseBlock fuel this;
      if negb (curIs this "while") then
        throwAt "Expected 'while' after 'do' block at position " this
      else
      let this := nextToken this in
      if negb (curIs this "(") then
        throwAt "Expected '(' after 'while' in do-while at position " this
      else
      let this := nextToken this in
      do test with this <- parseExpression fuel this;
      if negb (curIs this ")") then
        throwAt "Expected ')' after while condition at position " this
      else
      let this := nextToken this in
      let this := if curIs this ";" then nextToken this else this in
      withStart startToken this (fun startToken =>
        Normal
          (DoWhileStatement test body (ofNat (tstart startToken))
             (endOrElse this (ofNat (tend startToken)))) this)
  end

with parseMatchStatement (fuel : nat) (this : Parser) {struct fuel} : M Node :=
  match fuel with
  | 0 => Diverge
  | S fuel =>
      let startToken := currentToken this in
      let this := nextToken this in
      let cases (discriminant : Node) (this : Parser) : M Node :=
        let this := nextToken this in
        do cases with this <- parseMatchStatementLoop fuel [] this;
        let this :=
          if negb (curIs this "}")
          then addErrorHere "Expected '}' to end match statement" this
          else nextToken this in
        withStart startToken this (fun startToken =>
          Normal
            (MatchStatement (Some discriminant) cases (ofNat (tstart startToken))
               (endOrElse this
                  (match last (tokens this) with
                   | Some token => ofNat (tend token)
                   | None => ofNat (tend startToken)
                   end))) this)
      in
      let rest (this : Parser) : M Node :=
        let this := nextToken this in
        do discriminant with this <- parseExpression fuel this;
        let this :=
          if negb (curIs this ")")
          then recoverClose [")"; "{"]
                 (addErrorHere "Expected ')' after match expression" this)
          else nextToken this in
        if negb (curIs this "{") then
          let this := addErrorHere "Expected '{' to start match body" this in
          let this := skipUntil ["{"] this in
          match currentToken this with
          | None =>
              withStart startToken this (fun startToken =>
                Normal
                  (MatchStatement (Some discriminant) []
                     (ofNat (tstart startToken)) (ofNat (tend startToken))) this)
          | Some _ => cases discriminant this
          end
        else cases discriminant this
      in
      if negb (curIs this "(") then
        let this := addErrorHere "Expected '(' after 'match'" this in
        let this := skipUntil ["("; "{"] this in
        match currentToken this with
        | None =>
            withStart startToken this (fun startToken =>
              Normal
                (MatchStatement None []
                   (ofNat (tstart startToken)) (ofNat (tend startToken))) this)
        | Some _ => rest this
        end
      else rest this
  end

with parseMatchStatementLoop (fuel : nat) (cases : list Node) (this : Parser)
    {struct fuel} : M (list Node) :=
  match fuel with
  | 0 => Diverge
  | S fuel =>
      match currentToken this with
      | None => Normal cases this
      | Some token =>
          if tvalue token === "}" then Normal cases this
          else if tvalue token === "case" then
            do case with this <- parseMatchCase fuel this;
            parseMatchStatementLoop fuel (cases ++ [case]) this
          else if tvalue token === "default" then
            do case with this <- parseMatchDefault fuel this;
            parseMatchStatementLoop fuel (cases ++ [case]) this
          else
            let this :=
              addError "Expected 'case' or 'default' in match statement"
                (ofNat (tstart token)) (ofNat (tstart token + 1)) this in
            let this := skipUntil ["case"; "default"; "}"] this in
            if curIs this "case" then
              do case with this <- parseMatchCase fuel this;
              parseMatchStatementLoop fuel (cases ++ [case]) this
            else if curIs this "default" then
              do case with this <- parseMatchDefault fuel this;
              parseMatchStatementLoop fuel (cases ++ [case]) this
            else parseMatchStatementLoop fuel cases this
      end
  end

with parseMatchCase (fuel : nat) (this : Parser) {struct fuel} : M Node :=
  match fuel with
  | 0 => Diverge
  | S fuel =>
      let startToken := currentToken this in
      let this := nextToken this in
      do test with this <- parseExpression fuel this;
      if negb (curIs this "=>") then
        throwAt "Expected '=>' after match case at position " this
      else
      let this := nextToken this in
      do consequent with this <-
        (if curIs this "{" then some (parseBlock fuel this)
         else parseStatement fuel this);
      withStart startToken this (fun startToken =>
        match consequent with
        | Some consequent =>
            Normal
              (MatchCase test consequent (ofNat (tstart startToken))
                 (nodeEnd consequent)) this
        | None => Throw (nullRead "end") this
        end)
  end

with parseMatchDefault (fuel : nat) (this : Parser) {struct fuel} : M Node :=
  match fuel with
  | 0 => Diverge
  | S fuel =>
      let startToken := currentToken this in
      let this := nextToken this in
      if negb (curIs this "=>") then
        throwAt "Expected '=>' after 'default' in match statement at position " this
      else
      let this := nextToken this in
      do consequent with this <-
        (if curIs this "{" then some (parseBlock fuel this)
         else parseStatement fuel this);
      withStart startToken this (fun startToken =>
        match consequent with
        | Some consequent =>
            Normal
              (MatchDefault consequent (ofNat (tstart startToken))
                 (nodeEnd consequent)) this
        | None => Throw (nullRead "end") this
        end)
  end

with parseRetryStatement (fuel : nat) (this : Parser) {struct fuel} : M Node :=
  match fuel with
  | 0 => Diverge
  | S fuel =>
      let startToken := currentToken this in
      let this := nextToken this in
      if negb (curIs this "(") then
        throwAt "Expected '(' after 'retry' at position " this
      else
      let this := nextToken this in
      do count with this <- parseExpression fuel this;
      if negb (curIs this ")") then
        throwAt "Expected ')' after retry count at position " this
      else
      let this := nextToken this in
      do body with this <- parseBlock fuel this;
      do handler with this <-
        (if curIs this "catch" then some (parseCatchClause fuel this)
         else Normal None this);
      withStart startToken this (fun startToken =>
        Normal
          (RetryStatement count body handler (ofNat (tstart startToken))
             (endOrElse this (ofNat (tend startToken)))) this)
  end

with parseTryStatement (fuel : nat) (this : Parser) {struct fuel} : M Node :=
  match fuel with
  | 0 => Diverge
  | S fuel =>
      let startToken := currentToken this in
      let this := nextToken this in
      do block with this <- parseBlock fuel this;
      do handlers with this <-
        (if curIs this "catch" then
           do handler with this <- parseCatchClause fuel this;
           Normal [handler] this
         else Normal [] this);
      do finalizer with this <-
        (if curIs this "finally" then some (parseFinallyClause fuel this)
         else Normal None this);
      withStart startToken this (fun startToken =>
        Normal
          (TryStatement block handlers finalizer (ofNat (tstart startToken))
             (endOrElse this (ofNat (tend startToken)))) this)
  end

with parseCatchClause (fuel : nat) (this : Parser) {struct fuel} : M Node :=
  match fuel with
  | 0 => Diverge
  | S fuel =>
      let startToken := currentToken this in
      let this := nextToken this in
      if negb (curIs this "(") then
        throwAt "Expected '(' after 'catch' at position " this
      else
      let this := nextToken this in
      let '(param, this) :=
        match currentToken this with
        | Some token =>
            if TokenType_eqb (ttype token) IDENTIFIER then
              (Some (Identifier (tvalue token)
                       (ofNat (tstart token)) (ofNat (tend token))),
               nextToken this)
            else (None, this)
        | None => (None, this)
        end in
      if negb (curIs this ")") then
        throwAt "Expected ')' after catch parameter at position " this
      else
      let this := nextToken this in
      do body with this <- parseBlock fuel this;
      withStart startToken this (fun startToken =>
        Normal (CatchClause param body (ofNat (tstart startToken)) (nodeEnd body)) this)
  end

with parseFinallyClause (fuel : nat) (this : Parser) {struct fuel} : M Node :=
  match fuel with
  | 0 => Diverge
  | S fuel =>
      let startToken := currentToken this in
      let this := nextToken this in
      do body with this <- parseBlock fuel this;
      withStart startToken this (fun startToken =>
        Normal (FinallyClause body (ofNat (tstart startToken)) (nodeEnd body)) this)
  end.

(** [checkForPossibleFunctionCallAfterExpression(expr)] (no caller) *)
Definition checkForPossibleFunctionCallAfterExpression
    (fuel : nat) (expr : Node) (this : Parser) : M Node :=
  match expr with
  | MemberExpression _ _ _ _ =>
      if curIs this "(" then parseCallExpression fuel expr this
      else Normal expr this
  | _ => Normal expr this
  end.

(** *** The entry point *)

(** [while (this.position < this.tokens.length) { ... }] of [parse] *)
Fixpoint parseLoop (fuel : nat) (statements : list Node) (this : Parser)
  : M (list Node) :=
  match fuel with
  | 0 => Diverge
  | S fuel =>
      if position this <? length (tokens this) then
        do stmt with this <- parseStatement fuel this;
        parseLoop fuel
          (match stmt with
           | Some stmt => statements ++ [stmt]
           | None => statements
           end) this
      else Normal statements this
  end.

(** [parse(input)].  The object returned for a blank text has no [errors]
    property; otherwise [errors] is [this.errors] itself, which no call of
    [parse] empties. *)
Definition parse (fuel : nat) (text : string) (this : Parser) : M Program :=
  if isBlank text then Normal {| body := []; errorsField := false |} this
  else
    do tokens with this <- tokenize text this;
    let this :=
      {| input := input this; tokens := tokens; position := 0;
         errors := errors this |} in
    do statements with this <- parseLoop fuel [] this;
    Normal {| body := statements; errorsField := true |} this.


End NeutronParser.

(** ** [class TypeChecker] *)

Module TypeChecker.

Import NeutronParser.

Record Position : Type := mkPosition {
  line : nat;
  character : nat
}.

Record Diagnostic : Type := mkDiagnostic {
  severity : nat;
  range : Position * Position;
  message : string
}.

(** The fields of a [TypeChecker] object.  [errors] is the array handed
    to [check]: the caller reads the diagnostics from it afterwards.
    [compatCalls] is a ghost field no method reads: the arguments of
    every call of [isCompatibleType] made so far, in order. *)
Record TypeChecker : Type := mkTypeChecker {
  symbolTable : gmap string string;
  staticVariables : gset string;
  assignedVariables : gset string;
  errors : list Diagnostic;
  compatCalls : list (string * string)
}.

(** [new TypeChecker()] *)
Definition constructor : TypeChecker :=
  {| symbolTable := ∅; staticVariables := ∅; assignedVariables := ∅;
     errors := []; compatCalls := [] |}.

Definition pushError (d : Diagnostic) (this : TypeChecker) : TypeChecker :=
  {| symbolTable := symbolTable this; staticVariables := staticVariables this;
     assignedVariables := assignedVariables this;
     errors := errors this ++ [d]; compatCalls := compatCalls this |}.

Definition setSymbol (name type : string) (this : TypeChecker) : TypeChecker :=
  {| symbolTable := <[name := type]> (symbolTable this);
     staticVariables := staticVariables this;
     assignedVariables := assignedVariables this;
     errors := errors this; compatCalls := compatCalls this |}.

Definition addStatic (name : string) (this : TypeChecker) : TypeChecker :=
  {| symbolTable := symbolTable this;
     staticVariables := {[name]} ∪ staticVariables this;
     assignedVariables := assignedVariables this;
     errors := errors this; compatCalls := compatCalls this |}.

Definition addAssigned (name : string) (this : TypeChecker) : TypeChecker :=
  {| symbolTable := symbolTable this;
     staticVariables := staticVariables this;
     assignedVariables := {[name]} ∪ assignedVariables this;
     errors := errors this; compatCalls := compatCalls this |}.

(** A string used as a condition: the empty string is falsy. *)
Definition truthy (s : string) : bool := s !== "".

(** [s || 'any'] *)
Definition orAny (s : string) : string := if truthy s then s else "any".

(** [this.symbolTable.get(name) || 'any'] *)
Definition lookupOrAny (table : gmap string string) (name : string) : string :=
  match table !! name with
  | Some type => orAny type
  | None => "any"
  end.

(** [inferType(node)] for a node that is not [null] *)
Fixpoint inferNode (table : gmap string string) (node : Node) : string :=
  match node with
  | Literal value raw _ _ =>
      match value with
      | VNumber n =>
          if strIncludes raw "."
          then "float"
          else if JsNumber.isInteger n then "int" else "float"
      | VString _ =>
          if startsWith raw "034" || startsWith raw "'" then "string" else "any"
      | VBoolean _ => "bool"
      | VNull => "any"
      end
  | ArrayExpression _ _ _ => "array"
  | ObjectExpression _ _ _ => "object"
  | Identifier name _ _ => lookupOrAny table name
  | BinaryExpression operator lhs rhs _ _
  | LogicalExpression operator lhs rhs _ _ =>
      if includes ["=="; "!="; "<"; "<="; ">"; ">="; "and"; "or"] operator then
        "bool"
      else if includes ["+"; "-"; "*"; "/"; "%"] operator then
        let leftType := orAny (inferNode table lhs) in
        let rightType := orAny (inferNode table rhs) in
        if (leftType === "int") && (rightType === "int") && (operator !== "/")
        then "int"
        else "float"
      else "any"
  | UnaryExpression operator argument _ _ =>
      if operator === "not" then "bool"
      else orAny (inferNode table argument)
  | CallExpression _ _ _ _ => "any"
  | MemberExpression _ _ _ _ => "any"
  | _ => "any"
  end.

(** [inferType(node)] *)
Definition inferType (this : TypeChecker) (node : option Node) : string :=
  match node with
  | None => "any"
  | Some node => inferNode (symbolTable this) node
  end.

(** [isCompatibleType(expected, actual)] *)
Definition isCompatibleType (expected actual : string) : bool :=
  if expected === actual then true
  else if (expected === "any") || (actual === "any") then true
  else if (expected === "float") && (actual === "int") then true
  else if actual === "nil" then true
  else false.

(** A call [this.isCompatibleType(expected, actual)] from a method. *)
Definition callIsCompatibleType (expected actual : string) (this : TypeChecker)
  : bool * TypeChecker :=
  (isCompatibleType expected actual,
   {| symbolTable := symbolTable this; staticVariables := staticVariables this;
      assignedVariables := assignedVariables this; errors := errors this;
      compatCalls := compatCalls this ++ [(expected, actual)] |}).

(** The loop of [getPositionFromIndex] over the first [index] characters. *)
Fixpoint positionLoop (text : string) (index line char : nat) : Position :=
  match index, text with
  | S index, String c text =>
      if Ascii.eqb c "010" then positionLoop text index (line + 1) 0
      else positionLoop text index line (char + 1)
  | _, _ => mkPosition line char
  end.

(** [getPositionFromIndex(document, index)]: [i < index] is false from
    the start when [index] is [undefined] or [NaN]. *)
Definition getPositionFromIndex (document : string) (index : Num) : Position :=
  match index with
  | num z => positionLoop document (Z.to_nat z) 0 0
  | _ => mkPosition 0 0
  end.

Definition error (document : string) (start end_ : Num) (message : string)
  : Diagnostic :=
  {| severity := 1;
     range := (getPositionFromIndex document start,
               getPositionFromIndex document end_);
     message := message |}.

(** [node.name], for the node kinds that have one *)
Definition nodeName (node : Node) : option string :=
  match node with
  | Identifier name _ _ => Some name
  | VariableDeclaration _ name _ _ _ _ => Some name
  | _ => None
  end.

(** [for (const item of items) this.checkNode(item, document)] *)
Definition forEach {A : Type} (visit : A -> TypeChecker -> TypeChecker)
    (items : list A) (this : TypeChecker) : TypeChecker :=
  fold_left (fun this item => visit item this) items this.

(** The methods below call [this.checkNode]; it is their parameter
    [checkNode], and the recursion is closed in [checkNode] further down.
    A method receives the fields of its [node]. *)
Section Methods.

Variable checkNode : Node -> string -> TypeChecker -> TypeChecker.

(** [this.checkNode(node, document)] on a field that may be [null] *)
Definition checkField (node : option Node) (document : string)
    (this : TypeChecker) : TypeChecker :=
  match node with
  | Some node => checkNode node document this
  | None => this
  end.

(** A string field used as a condition: [null] and the empty string
    are falsy. *)
Definition ifTruthy (field : option string) : option string :=
  match field with
  | Some value => if truthy value then Some value else None
  | None => None
  end.

Definition checkVariableDeclaration
    (declaredType : option string) (name : string) (init : option Node)
    (isStatic : bool) (start end_ : Num)
    (document : string) (this : TypeChecker) : TypeChecker :=
  let variableName := name in
  match symbolTable this !! variableName with
  | Some _ =>
      pushError
        (error document start end_
           ("Variable '" ++ variableName ++ "' has already been declared"))
        this
  | None =>
      let this := if isStatic then addStatic variableName this else this in
      match ifTruthy declaredType with
      | None =>
          let this :=
            if truthy name then
              let this := setSymbol name "any" this in
              match init with
              | Some _ => addAssigned name this
              | None => this
              end
            else this in
          checkField init document this
      | Some declaredType =>
          match init with
          | Some init =>
              let actualType := inferType this (Some init) in
              let '(compatible, this) :=
                callIsCompatibleType declaredType actualType this in
              if negb compatible then
                pushError
                  (error document (nodeStart init) (nodeEnd init)
                     ("Type mismatch: expected " ++ declaredType
                      ++ " but got " ++ actualType
                      ++ " for variable '" ++ variableName ++ "'"))
                  this
              else addAssigned variableName
                     (setSymbol variableName declaredType this)
          | None => setSymbol variableName declaredType this
          end
      end
  end.

Definition checkAssignmentExpression
    (left right : Node) (document : string) (this : TypeChecker)
  : TypeChecker :=
  match left with
  | Identifier varName _ _ =>
      let typeCheck (this : TypeChecker) : TypeChecker :=
        let this :=
          match symbolTable this !! varName with
          | Some declaredType =>
              if truthy declaredType && (declaredType !== "any") then
                let actualType := inferType this (Some right) in
                let '(compatible, this) :=
                  callIsCompatibleType declaredType actualType this in
                if negb compatible then
                  pushError
                    (error document (nodeStart right) (nodeEnd right)
                       ("Type mismatch: expected " ++ declaredType
                        ++ " but got " ++ actualType
                        ++ " when assigning to '" ++ varName ++ "'"))
                    this
                else this
              else this
          | None => this
          end in
        checkNode right document this
      in
      if bool_decide (varName ∈ staticVariables this) then
        if bool_decide (varName ∈ assignedVariables this) then
          pushError
            (error document (nodeStart left) (nodeEnd right)
               ("Cannot reassign static variable '" ++ varName
                ++ "' - it has already been assigned"))
            this
        else typeCheck (addAssigned varName this)
      else typeCheck this
  | _ => this
  end.

Definition checkIfStatement (test consequent alternate : option Node)
    (document : string) (this : TypeChecker) : TypeChecker :=
  let this := checkField test document this in
  let this := checkField consequent document this in
  checkField alternate document this.

Definition checkWhileStatement (test body : option Node)
    (document : string) (this : TypeChecker) : TypeChecker :=
  let this := checkField test document this in
  checkField body document this.

Definition checkForStatement (init test update body : option Node)
    (document : string) (this : TypeChecker) : TypeChecker :=
  let this := checkField init document this in
  let this := checkField test document this in
  let this := checkField update document this in
  checkField body document this.

Definition checkBinaryExpression (left right : option Node)
    (document : string) (this : TypeChecker) : TypeChecker :=
  let this := checkField left document this in
  checkField right document this.

Definition checkCallExpression (callee : option Node) (arguments : list Node)
    (document : string) (this : TypeChecker) : TypeChecker :=
  let this := checkField callee document this in
  forEach (fun arg => checkNode arg document) arguments this.

Definition checkDoWhileStatement (test body : option Node)
    (document : string) (this : TypeChecker) : TypeChecker :=
  let this := checkField test document this in
  checkField body document this.

Definition checkMatchStatement (discriminant : option Node) (cases : list Node)
    (document : string) (this : TypeChecker) : TypeChecker :=
  let this := checkField discriminant document this in
  forEach (fun caseNode => checkNode caseNode document) cases this.

Definition checkTryStatement (block : option Node) (handlers : list Node)
    (finalizer : option Node) (document : string) (this : TypeChecker)
  : TypeChecker :=
  let this := checkField block document this in
  let this := forEach (fun handler => checkNode handler document) handlers this in
  checkField finalizer document this.

Definition checkCatchClause (param : option Node) (body : option Node)
    (document : string) (this : TypeChecker) : TypeChecker :=
  let this := checkField body document this in
  match param with
  | Some param =>
      match ifTruthy (nodeName param) with
      | Some name =>
          let this := setSymbol name "any" this in
          checkField body document this
      | None => this
      end
  | None => this
  end.

Definition checkRetryStatement (count body handler : option Node)
    (document : string) (this : TypeChecker) : TypeChecker :=
  let this := checkField count document this in
  let this := checkField body document this in
  checkField handler document this.

(** [checkChildren(node, document)] on the node kinds that reach the
    [default] case of [checkNode]: the fields that hold a node or an
    array of nodes, in the order the parser writes them.  The [key]
    of a [Property] is a token and [params] holds strings; walking
    either finds no object inside and does nothing. *)
Definition checkChildren (node : Node) (document : string)
    (this : TypeChecker) : TypeChecker :=
  match node with
  | BlockStatement body =>
      forEach (fun item => checkField item document) body this
  | LogicalExpression _ lhs rhs _ _ =>
      checkNode rhs document (checkNode lhs document this)
  | UnaryExpression _ argument _ _ => checkNode argument document this
  | MemberExpression object property _ _ =>
      checkNode property document (checkNode object document this)
  | ArrayExpression elements _ _ =>
      forEach (fun item => checkNode item document) elements this
  | ObjectExpression properties _ _ =>
      forEach (fun item => checkNode item document) properties this
  | Property _ value _ _ => checkNode value document this
  | FunctionDeclaration id _ body _ _ =>
      checkNode body document (checkNode id document this)
  | ClassDeclaration id body _ _ =>
      checkNode body document (checkNode id document this)
  | _ => this
  end.

End Methods.

(** [checkNode(node, document)] for a node that is not [null] *)
Fixpoint checkNode (node : Node) (document : string) (this : TypeChecker)
    {struct node} : TypeChecker :=
  match node with
  | VariableDeclaration declaredType name init isStatic start end_ =>
      checkVariableDeclaration checkNode declaredType name init isStatic
        start end_ document this
  | AssignmentExpression _ lhs rhs _ _ =>
      checkAssignmentExpression checkNode lhs rhs document this
  | BinaryExpression _ lhs rhs _ _ =>
      checkBinaryExpression checkNode (Some lhs) (Some rhs) document this
  | IfStatement test consequent alternate _ _ =>
      checkIfStatement checkNode test consequent alternate document this
  | WhileStatement test body _ _ =>
      checkWhileStatement checkNode test body document this
  | DoWhileStatement test body _ _ =>
      checkDoWhileStatement checkNode (Some test) (Some body) document this
  | ForStatement init test update body _ _ =>
      checkForStatement checkNode init test update (Some body) document this
  | ExpressionStatement expression _ _ => checkNode expression document this
  | CallExpression callee arguments _ _ =>
      checkCallExpression checkNode (Some callee) arguments document this
  | ReturnStatement argument _ _ => checkField checkNode argument document this
  | MatchStatement discriminant cases _ _ =>
      checkMatchStatement checkNode discriminant cases document this
  | MatchCase test consequent _ _ =>
      checkNode consequent document (checkNode test document this)
  | MatchDefault consequent _ _ => checkNode consequent document this
  | TryStatement block handlers finalizer _ _ =>
      checkTryStatement checkNode (Some block) handlers finalizer document this
  | CatchClause param body _ _ =>
      checkCatchClause checkNode param (Some body) document this
  | FinallyClause body _ _ => checkNode body document this
  | RetryStatement count body handler _ _ =>
      checkRetryStatement checkNode (Some count) (Some body) handler document this
  | ThrowStatement argument _ _ => checkField checkNode argument document this
  | BlockStatement _ | LogicalExpression _ _ _ _ _ | UnaryExpression _ _ _ _
  | Literal _ _ _ _ | Identifier _ _ _ | MemberExpression _ _ _ _
  | ArrayExpression _ _ _ | ObjectExpression _ _ _ | Property _ _ _ _
  | FunctionDeclaration _ _ _ _ _ | ClassDeclaration _ _ _ _ =>
      checkChildren checkNode node document this
  end.

(** [check(ast, document, errors)]: the three tables are emptied, and
    [this.errors] becomes the caller's array. *)
Definition check (ast : Program) (document : string) (errors : list Diagnostic)
    (this : TypeChecker) : TypeChecker :=
  let this :=
    {| symbolTable := ∅; staticVariables := ∅; assignedVariables := ∅;
       errors := errors; compatCalls := [] |} in
  forEach (fun node => checkNode node document) (body ast) this.

End TypeChecker.

(** ** The server: [analyzeTypeSafety]

    [server.js] declares [analyzeTypeSafety] twice; a call runs the
    declaration that comes last, the one without the cache, which is the
    one embedded here.  [document] stands for [document.getText()]. *)

Module Server.

Import NeutronParser.

(** The diagnostic pushed for one syntax error:
    [{ range: { start: getPositionFromIndex(document, syntaxError.start),
                end: getPositionFromIndex(document, syntaxError.end) },
       message: syntaxError.message, severity: DiagnosticSeverity.Error }]. *)
Definition syntaxDiagnostic (document : string) (syntaxError : ParseError)
  : TypeChecker.Diagnostic :=
  {| TypeChecker.severity := 1;
     TypeChecker.range :=
       (TypeChecker.getPositionFromIndex document (pstart syntaxError),
        TypeChecker.getPositionFromIndex document (pend syntaxError));
     TypeChecker.message := pmessage syntaxError |}.

(** [analyzeTypeSafety(text, document)]: the whole body is inside [try],
    and the handler only logs, so that the function returns the [errors]
    collected so far; [None] when the parser does not return. *)
Definition analyzeTypeSafety (fuel : nat) (text document : string)
  : option (list TypeChecker.Diagnostic) :=
  let errors : list TypeChecker.Diagnostic := [] in
  match parse fuel text NeutronParser.constructor with
  | Normal result parser =>
      let errors :=
        match readErrors parser result with
        | Some syntaxErrors =>
            (errors ++ map (syntaxDiagnostic document) syntaxErrors)%list
        | None => errors
        end in
      let typeChecker := TypeChecker.constructor in
      Some (TypeChecker.errors (TypeChecker.check result document errors typeChecker))
  | Throw e _ => Some errors
  | Diverge => None
  end.

End Server.

(** * Notions used to state the lemmas and the properties *)

Import NeutronParser.

(** [analyzeTypeSafety] of the server, without the syntax errors: a fresh
    parser, a fresh checker, and the diagnostics of the checker. *)
Definition diagnose (fuel : nat) (text : string) : option (list TypeChecker.Diagnostic) :=
  match NeutronParser.parse fuel text NeutronParser.constructor with
  | Normal ast _ =>
      Some (TypeChecker.errors
              (TypeChecker.check ast text [] TypeChecker.constructor))
  | _ => None
  end.

(** The state of the lexer after [turns] turns of its loop on [text]:
    the value of [current] and the tokens pushed so far.  [None] when the
    loop has ended or thrown before. *)
Fixpoint lexerState (text : string) (turns : nat) : option (nat * list Token) :=
  match turns with
  | 0 => Some (0, [])
  | S turns =>
      match lexerState text turns with
      | Some (current, tokens) =>
          match charAt text current with
          | Some char =>
              match tokenizeStep text current char tokens with
              | inr state => Some state
              | inl _ => None
              end
          | None => None
          end
      | None => None
      end
  end.

(** The span of [node] lies within [text]: [0 <= start] and
    [end <= text.length], both being numbers. *)
Definition withinText (text : string) (node : Node) : Prop :=
  exists start end_ : Z,
    nodeStart node = num start /\ nodeEnd node = num end_ /\
    (0 <= start)%Z /\ (end_ <= Z.of_nat (String.length text))%Z.

(** Two states of a parser that differ at most by the cursor. *)
Definition sameButCursor (a b : Parser) : Prop :=
  input a = input b /\ tokens a = tokens b /\ errors a = errors b.

(** A call that, when it returns or throws, has moved the cursor at most. *)
Definition movesCursorOnly {A : Type} (c : M A) (this : Parser) : Prop :=
  match c with
  | Normal _ this' | Throw _ this' => sameButCursor this this'
  | Diverge => True
  end.

(** The same statement about every method that parses an expression. *)
Definition ExpressionsMoveCursorOnly (fuel : nat) : Prop :=
  (forall this, movesCursorOnly (parseExpression fuel this) this)
  /\ (forall this, movesCursorOnly (parseLogicalOr fuel this) this)
  /\ (forall expr this, movesCursorOnly (parseLogicalOrLoop fuel expr this) this)
  /\ (forall this, movesCursorOnly (parseLogicalAnd fuel this) this)
  /\ (forall expr this, movesCursorOnly (parseLogicalAndLoop fuel expr this) this)
  /\ (forall this, movesCursorOnly (parseEquality fuel this) this)
  /\ (forall expr this, movesCursorOnly (parseEqualityLoop fuel expr this) this)
  /\ (forall this, movesCursorOnly (parseRelational fuel this) this)
  /\ (forall expr this, movesCursorOnly (parseRelationalLoop fuel expr this) this)
  /\ (forall this, movesCursorOnly (parseAdditive fuel this) this)
  /\ (forall expr this, movesCursorOnly (parseAdditiveLoop fuel expr this) this)
  /\ (forall this, movesCursorOnly (parseMultiplicative fuel this) this)
  /\ (forall expr this,
        movesCursorOnly (parseMultiplicativeLoop fuel expr this) this)
  /\ (forall this, movesCursorOnly (parseUnary fuel this) this)
  /\ (forall this, movesCursorOnly (parsePrimary fuel this) this)
  /\ (forall items this, movesCursorOnly (parseExpressionsLoop fuel items this) this)
  /\ (forall callee this, movesCursorOnly (parseCallExpression fuel callee this) this)
  /\ (forall object this,
        movesCursorOnly (parseMemberExpression fuel object this) this)
  /\ (forall this, movesCursorOnly (parseArrayExpression fuel this) this)
  /\ (forall this, movesCursorOnly (parseObjectExpression fuel this) this)
  /\ (forall properties this,
        movesCursorOnly (parsePropertiesLoop fuel properties this) this)
  /\ (forall this, movesCursorOnly (parseObjectProperty fuel this) this)
  /\ (forall this, movesCursorOnly (parseThrowStatement fuel this) this).

(** The part of [parseVariableDeclaration] that comes before the test for
    the semicolon, as a function of its own: the first token, the
    [static] flag, the type annotation, the name token and the
    initializer.  Lemma [parseVariableDeclaration_head] shows that
    [parseVariableDeclaration] runs exactly this and then tests for the
    semicolon. *)
Definition declarationHead (fuel : nat) (this : Parser)
  : M (Token * bool * option string * Token * option Node) :=
  match currentToken this with
  | None => Throw (nullRead "value") this
  | Some startToken =>
      let static : M bool :=
        if tvalue startToken === "static" then
          let this := nextToken this in
          if curIsNot this "var"
          then throwAt "Expected 'var' after 'static' at position " this
          else Normal true (nextToken this)
        else Normal false (nextToken this) in
      do isStatic with this <- static;
      let '(declaredType, this) :=
        match currentToken this with
        | Some token =>
            if isTypeKeyword (tvalue token)
            then (Some (tvalue token), nextToken this)
            else (None, this)
        | None => (None, this)
        end in
      match currentToken this with
      | Some nameToken =>
          if TokenType_eqb (ttype nameToken) IDENTIFIER then
            let this := nextToken this in
            do init with this <-
              (if curIs this "=" then some (parseExpression fuel (nextToken this))
               else Normal None this);
            Normal (startToken, isStatic, declaredType, nameToken, init) this
          else throwAt "Expected identifier at position " this
      | None => throwAt "Expected identifier at position " this
      end
  end.

(** [lineEnd] is the end of the line of [text] that holds offset [pos]:
    no line break between [pos] and [lineEnd], and a line break or the end
    of the text at [lineEnd]. *)
Definition isEndOfLine (text : string) (pos lineEnd : nat) : Prop :=
  pos <= lineEnd <= String.length text
  /\ (forall i c, pos <= i < lineEnd -> charAt text i = Some c ->
                  c <> "010"%char /\ c <> "013"%char)
  /\ (lineEnd = String.length text
      \/ charAt text lineEnd = Some "010"%char
      \/ charAt text lineEnd = Some "013"%char).

(** Every type annotation in [node] is one of the type keywords, as in
    every tree built by the parser ([parseVariableDeclaration] takes the
    annotation from a token accepted by [isTypeKeyword]). *)
Fixpoint declaresTypeKeywords (node : Node) : bool :=
  let field (o : option Node) : bool :=
    match o with
    | Some child => declaresTypeKeywords child
    | None => true
    end in
  match node with
  | VariableDeclaration declaredType _ init _ _ _ =>
      match declaredType with
      | Some type => isTypeKeyword type
      | None => true
      end && field init
  | IfStatement test consequent alternate _ _ =>
      field test && field consequent && field alternate
  | BlockStatement body => forallb field body
  | WhileStatement test body _ _ => field test && field body
  | ForStatement init test update body _ _ =>
      field init && field test && field update && declaresTypeKeywords body
  | LogicalExpression _ lhs rhs _ _ | BinaryExpression _ lhs rhs _ _
  | AssignmentExpression _ lhs rhs _ _ =>
      declaresTypeKeywords lhs && declaresTypeKeywords rhs
  | UnaryExpression _ argument _ _ => declaresTypeKeywords argument
  | Literal _ _ _ _ | Identifier _ _ _ => true
  | CallExpression callee arguments _ _ =>
      declaresTypeKeywords callee && forallb declaresTypeKeywords arguments
  | MemberExpression object property _ _ =>
      declaresTypeKeywords object && declaresTypeKeywords property
  | ArrayExpression items _ _ | ObjectExpression items _ _ =>
      forallb declaresTypeKeywords items
  | Property _ value _ _ => declaresTypeKeywords value
  | ExpressionStatement expression _ _ => declaresTypeKeywords expression
  | FunctionDeclaration id _ body _ _ | ClassDeclaration id body _ _ =>
      declaresTypeKeywords id && declaresTypeKeywords body
  | ReturnStatement argument _ _ | ThrowStatement argument _ _ => field argument
  | DoWhileStatement test body _ _ =>
      declaresTypeKeywords test && declaresTypeKeywords body
  | MatchStatement discriminant cases _ _ =>
      field discriminant && forallb declaresTypeKeywords cases
  | MatchCase test consequent _ _ =>
      declaresTypeKeywords test && declaresTypeKeywords consequent
  | MatchDefault consequent _ _ => declaresTypeKeywords consequent
  | RetryStatement count body handler _ _ =>
      declaresTypeKeywords count && declaresTypeKeywords body && field handler
  | TryStatement block handlers finalizer _ _ =>
      declaresTypeKeywords block && forallb declaresTypeKeywords handlers
      && field finalizer
  | CatchClause param body _ _ => field param && declaresTypeKeywords body
  | FinallyClause body _ _ => declaresTypeKeywords body
  end.

(** No variable is recorded with the type ['nil'], and no call of
    [isCompatibleType] so far had ['nil'] as its [actual] argument. *)
Definition nilFree (this : TypeChecker.TypeChecker) : Prop :=
  (forall name type,
      TypeChecker.symbolTable this !! name = Some type -> type <> "nil")
  /\ Forall (fun call : string * string => snd call <> "nil")
       (TypeChecker.compatCalls this).

(** The diagnostics that walking [node] from the state [this] adds. *)
Definition diagnosticsOf (node : Node) (document : string)
    (this : TypeChecker.TypeChecker) : list TypeChecker.Diagnostic :=
  drop (length (TypeChecker.errors this))
    (TypeChecker.errors (TypeChecker.checkNode node document this)).

(** Walking [node], when its annotations are type keywords, keeps a
    checker [nilFree]. *)
Definition KeepsNilFree (node : Node) : Prop :=
  declaresTypeKeywords node = true ->
  forall (document : string) (this : TypeChecker.TypeChecker),
    nilFree this -> nilFree (TypeChecker.checkNode node document this).

(** Walking [node] only appends to the diagnostics. *)
Definition AppendsOnly (node : Node) : Prop :=
  forall (document : string) (this : TypeChecker.TypeChecker),
    TypeChecker.errors this
    `prefix_of` TypeChecker.errors (TypeChecker.checkNode node document this).

(** [c'] is the outcome [c] of the same call with less fuel, unless the
    fuel of [c] ran out. *)
Definition stable {A : Type} (c c' : M A) : Prop := c <> Diverge -> c' = c.

(** More fuel changes no outcome of the methods that parse an
    expression. *)
Definition ExpressionsStable (fuel fuel' : nat) : Prop :=
  (forall this, stable (parseExpression fuel this) (parseExpression fuel' this))
  /\ (forall this, stable (parseLogicalOr fuel this) (parseLogicalOr fuel' this))
  /\ (forall expr this,
        stable (parseLogicalOrLoop fuel expr this)
          (parseLogicalOrLoop fuel' expr this))
  /\ (forall this, stable (parseLogicalAnd fuel this) (parseLogicalAnd fuel' this))
  /\ (forall expr this,
        stable (parseLogicalAndLoop fuel expr this)
          (parseLogicalAndLoop fuel' expr this))
  /\ (forall this, stable (parseEquality fuel this) (parseEquality fuel' this))
  /\ (forall expr this,
        stable (parseEqualityLoop fuel expr this)
          (parseEqualityLoop fuel' expr this))
  /\ (forall this, stable (parseRelational fuel this) (parseRelational fuel' this))
  /\ (forall expr this,
        stable (parseRelationalLoop fuel expr this)
          (parseRelationalLoop fuel' expr this))
  /\ (forall this, stable (parseAdditive fuel this) (parseAdditive fuel' this))
  /\ (forall expr this,
        stable (parseAdditiveLoop fuel expr this)
          (parseAdditiveLoop fuel' expr this))
  /\ (forall this,
        stable (parseMultiplicative fuel this) (parseMultiplicative fuel' this))
  /\ (forall expr this,
        stable (parseMultiplicativeLoop fuel expr this)
          (parseMultiplicativeLoop fuel' expr this))
  /\ (forall this, stable (parseUnary fuel this) (parseUnary fuel' this))
  /\ (forall this, stable (parsePrimary fuel this) (parsePrimary fuel' this))
  /\ (forall items this,
        stable (parseExpressionsLoop fuel items this)
          (parseExpressionsLoop fuel' items this))
  /\ (forall callee this,
        stable (parseCallExpression fuel callee this)
          (parseCallExpression fuel' callee this))
  /\ (forall object this,
        stable (parseMemberExpression fuel object this)
          (parseMemberExpression fuel' object this))
  /\ (forall this,
        stable (parseArrayExpression fuel this) (parseArrayExpression fuel' this))
  /\ (forall this,
        stable (parseObjectExpression fuel this) (parseObjectExpression fuel' this))
  /\ (forall properties this,
        stable (parsePropertiesLoop fuel properties this)
          (parsePropertiesLoop fuel' properties this))
  /\ (forall this,
        stable (parseObjectProperty fuel this) (parseObjectProperty fuel' this))
  /\ (forall this,
        stable (parseThrowStatement fuel this) (parseThrowStatement fuel' this)).

(** The same for the methods that parse a statement. *)
Definition StatementsStable (fuel fuel' : nat) : Prop :=
  (forall this, stable (parseStatement fuel this) (parseStatement fuel' this))
  /\ (forall this, stable (parseIfStatement fuel this) (parseIfStatement fuel' this))
  /\ (forall this, stable (parseBlock fuel this) (parseBlock fuel' this))
  /\ (forall body this,
        stable (parseBlockLoop fuel body this) (parseBlockLoop fuel' body this))
  /\ (forall this,
        stable (parseWhileStatement fuel this) (parseWhileStatement fuel' this))
  /\ (forall this,
        stable (parseForStatement fuel this) (parseForStatement fuel' this))
  /\ (forall this,
        stable (parseFunctionDeclaration fuel this)
          (parseFunctionDeclaration fuel' this))
  /\ (forall this,
        stable (parseClassDeclaration fuel this) (parseClassDeclaration fuel' this))
  /\ (forall this,
        stable (parseDoWhileStatement fuel this) (parseDoWhileStatement fuel' this))
  /\ (forall this,
        stable (parseMatchStatement fuel this) (parseMatchStatement fuel' this))
  /\ (forall cases this,
        stable (parseMatchStatementLoop fuel cases this)
          (parseMatchStatementLoop fuel' cases this))
  /\ (forall this, stable (parseMatchCase fuel this) (parseMatchCase fuel' this))
  /\ (forall this,
        stable (parseMatchDefault fuel this) (parseMatchDefault fuel' this))
  /\ (forall this,
        stable (parseRetryStatement fuel this) (parseRetryStatement fuel' this))
  /\ (forall this,
        stable (parseTryStatement fuel this) (parseTryStatement fuel' this))
  /\ (forall this,
        stable (parseCatchClause fuel this) (parseCatchClause fuel' this))
  /\ (forall this,
        stable (parseFinallyClause fuel this) (parseFinallyClause fuel' this)).

(** [declaresTypeKeywords] on a field that may be [null]. *)
Definition fieldDeclaresTypeKeywords (o : option Node) : bool :=
  match o with
  | Some child => declaresTypeKeywords child
  | None => true
  end.

(** What a call returns, if it returns, passes the test [ok]. *)
Definition yields {A : Type} (ok : A -> bool) (c : M A) : Prop :=
  match c with
  | Normal a _ => ok a = true
  | _ => True
  end.

(** Every method that parses an expression returns a tree whose
    annotations are type keywords, the trees it is given being such. *)
Definition ExpressionsYieldTypeKeywords (fuel : nat) : Prop :=
  (forall this, yields declaresTypeKeywords (parseExpression fuel this))
  /\ (forall this, yields declaresTypeKeywords (parseLogicalOr fuel this))
  /\ (forall expr this, declaresTypeKeywords expr = true ->
        yields declaresTypeKeywords (parseLogicalOrLoop fuel expr this))
  /\ (forall this, yields declaresTypeKeywords (parseLogicalAnd fuel this))
  /\ (forall expr this, declaresTypeKeywords expr = true ->
        yields declaresTypeKeywords (parseLogicalAndLoop fuel expr this))
  /\ (forall this, yields declaresTypeKeywords (parseEquality fuel this))
  /\ (forall expr this, declaresTypeKeywords expr = true ->
        yields declaresTypeKeywords (parseEqualityLoop fuel expr this))
  /\ (forall this, yields declaresTypeKeywords (parseRelational fuel this))
  /\ (forall expr this, declaresTypeKeywords expr = true ->
        yields declaresTypeKeywords (parseRelationalLoop fuel expr this))
  /\ (forall this, yields declaresTypeKeywords (parseAdditive fuel this))
  /\ (forall expr this, declaresTypeKeywords expr = true ->
        yields declaresTypeKeywords (parseAdditiveLoop fuel expr this))
  /\ (forall this, yields declaresTypeKeywords (parseMultiplicative fuel this))
  /\ (forall expr this, declaresTypeKeywords expr = true ->
        yields declaresTypeKeywords (parseMultiplicativeLoop fuel expr this))
  /\ (forall this, yields declaresTypeKeywords (parseUnary fuel this))
  /\ (forall this, yields declaresTypeKeywords (parsePrimary fuel this))
  /\ (forall items this, forallb declaresTypeKeywords items = true ->
        yields (forallb declaresTypeKeywords) (parseExpressionsLoop fuel items this))
  /\ (forall callee this, declaresTypeKeywords callee = true ->
        yields declaresTypeKeywords (parseCallExpression fuel callee this))
  /\ (forall object this, declaresTypeKeywords object = true ->
        yields declaresTypeKeywords (parseMemberExpression fuel object this))
  /\ (forall this, yields declaresTypeKeywords (parseArrayExpression fuel this))
  /\ (forall this, yields declaresTypeKeywords (parseObjectExpression fuel this))
  /\ (forall properties this, forallb declaresTypeKeywords properties = true ->
        yields (forallb declaresTypeKeywords)
          (parsePropertiesLoop fuel properties this))
  /\ (forall this, yields declaresTypeKeywords (parseObjectProperty fuel this))
  /\ (forall this, yields declaresTypeKeywords (parseThrowStatement fuel this)).

(** The same for the methods that parse a statement. *)
Definition StatementsYieldTypeKeywords (fuel : nat) : Prop :=
  (forall this, yields fieldDeclaresTypeKeywords (parseStatement fuel this))
  /\ (forall this, yields declaresTypeKeywords (parseIfStatement fuel this))
  /\ (forall this, yields declaresTypeKeywords (parseBlock fuel this))
  /\ (forall body this, forallb fieldDeclaresTypeKeywords body = true ->
        yields (forallb fieldDeclaresTypeKeywords) (parseBlockLoop fuel body this))
  /\ (forall this, yields declaresTypeKeywords (parseWhileStatement fuel this))
  /\ (forall this, yields declaresTypeKeywords (parseForStatement fuel this))
  /\ (forall this, yields declaresTypeKeywords (parseFunctionDeclaration fuel this))
  /\ (forall this, yields declaresTypeKeywords (parseClassDeclaration fuel this))
  /\ (forall this, yields declaresTypeKeywords (parseDoWhileStatement fuel this))
  /\ (forall this, yields declaresTypeKeywords (parseMatchStatement fuel this))
  /\ (forall cases this, forallb declaresTypeKeywords cases = true ->
        yields (forallb declaresTypeKeywords)
          (parseMatchStatementLoop fuel cases this))
  /\ (forall this, yields declaresTypeKeywords (parseMatchCase fuel this))
  /\ (forall this, yields declaresTypeKeywords (parseMatchDefault fuel this))
  /\ (forall this, yields declaresTypeKeywords (parseRetryStatement fuel this))
  /\ (forall this, yields declaresTypeKeywords (parseTryStatement fuel this))
  /\ (forall this, yields declaresTypeKeywords (parseCatchClause fuel this))
  /\ (forall this, yields declaresTypeKeywords (parseFinallyClause fuel this)).

(** ** Notions of the further properties *)

(** The text a token was read from. *)
Definition lexeme (text : string) (token : Token) : string :=
  slice text (tstart token) (tend token).

(** What one turn of the lexer guarantees of the token it pushes. *)
Definition lexed (text : string) (token : Token) : Prop :=
  tstart token < tend token <= String.length text
  /\ match ttype token with
     | STRING =>
         tvalue token = lexeme text token
         /\ tstart token + 2 <= tend token
         /\ exists quote : ascii,
              (quote = "034"%char \/ quote = "'"%char)
              /\ charAt text (tstart token) = Some quote
              /\ charAt text (tend token - 1) = Some quote
     | NUMBER =>
         tvalue token = lexeme text token
         /\ exists c : ascii,
              charAt text (tstart token) = Some c
              /\ (isDigit c = true
                  \/ (c = "-"%char /\ tstart token + 2 <= tend token))
     | IDENTIFIER =>
         tvalue token = lexeme text token
         /\ isKeyword (tvalue token) = false
         /\ exists c : ascii,
              charAt text (tstart token) = Some c /\ isIdentStart c = true
     | KEYWORD =>
         tvalue token = lexeme text token /\ isKeyword (tvalue token) = true
     | OPERATOR =>
         tend token = tstart token + 2
         /\ ((tvalue token = lexeme text token
              /\ In (tvalue token) ["=="; "!="; ">="; "<="])
             \/ (tvalue token = "and" /\ lexeme text token = "&&")
             \/ (tvalue token = "or" /\ lexeme text token = "||"))
     | SYMBOL =>
         tend token = tstart token + 1
         /\ tvalue token = lexeme text token
         /\ (tvalue token = "-" ->
             forall d : ascii,
               charAt text (tend token) = Some d -> isDigit d = false)
     end.

(** The tokens pushed so far lie before [current], in order. *)
Definition precedes (a b : Token) : Prop := tend a <= tstart b.

Definition lexerInvariant (text : string) (current : nat) (tokens : list Token)
  : Prop :=
  Forall (lexed text) tokens
  /\ StronglySorted precedes tokens
  /\ Forall (fun token => tend token <= current) tokens.

(** A tree made of expressions only: no declaration, no assignment and
    no other statement inside (a [throw] with its argument apart, which
    [parsePrimary] accepts). *)
Fixpoint isExpressionTree (node : Node) : bool :=
  match node with
  | Literal _ _ _ _ | Identifier _ _ _ => true
  | LogicalExpression _ lhs rhs _ _ | BinaryExpression _ lhs rhs _ _ =>
      isExpressionTree lhs && isExpressionTree rhs
  | UnaryExpression _ argument _ _ => isExpressionTree argument
  | CallExpression callee arguments _ _ =>
      isExpressionTree callee && forallb isExpressionTree arguments
  | MemberExpression object property _ _ =>
      isExpressionTree object && isExpressionTree property
  | ArrayExpression items _ _ | ObjectExpression items _ _ =>
      forallb isExpressionTree items
  | Property _ value _ _ => isExpressionTree value
  | ThrowStatement argument _ _ =>
      match argument with
      | Some argument => isExpressionTree argument
      | None => true
      end
  | _ => false
  end.

(** Every method that parses an expression returns a tree that passes
    the test [ok], the trees it is given passing it. *)
Definition ExpressionsYield (ok : Node -> bool) (fuel : nat) : Prop :=
  (forall this, yields ok (parseExpression fuel this))
  /\ (forall this, yields ok (parseLogicalOr fuel this))
  /\ (forall expr this, ok expr = true ->
        yields ok (parseLogicalOrLoop fuel expr this))
  /\ (forall this, yields ok (parseLogicalAnd fuel this))
  /\ (forall expr this, ok expr = true ->
        yields ok (parseLogicalAndLoop fuel expr this))
  /\ (forall this, yields ok (parseEquality fuel this))
  /\ (forall expr this, ok expr = true ->
        yields ok (parseEqualityLoop fuel expr this))
  /\ (forall this, yields ok (parseRelational fuel this))
  /\ (forall expr this, ok expr = true ->
        yields ok (parseRelationalLoop fuel expr this))
  /\ (forall this, yields ok (parseAdditive fuel this))
  /\ (forall expr this, ok expr = true ->
        yields ok (parseAdditiveLoop fuel expr this))
  /\ (forall this, yields ok (parseMultiplicative fuel this))
  /\ (forall expr this, ok expr = true ->
        yields ok (parseMultiplicativeLoop fuel expr this))
  /\ (forall this, yields ok (parseUnary fuel this))
  /\ (forall this, yields ok (parsePrimary fuel this))
  /\ (forall items this, forallb ok items = true ->
        yields (forallb ok) (parseExpressionsLoop fuel items this))
  /\ (forall callee this, ok callee = true ->
        yields ok (parseCallExpression fuel callee this))
  /\ (forall object this, ok object = true ->
        yields ok (parseMemberExpression fuel object this))
  /\ (forall this, yields ok (parseArrayExpression fuel this))
  /\ (forall this, yields ok (parseObjectExpression fuel this))
  /\ (forall properties this, forallb ok properties = true ->
        yields (forallb ok) (parsePropertiesLoop fuel properties this))
  /\ (forall this, yields ok (parseObjectProperty fuel this))
  /\ (forall this, yields ok (parseThrowStatement fuel this)).

(** The number of line feeds in [s]. *)
Fixpoint lineFeeds (s : string) : nat :=
  match s with
  | EmptyString => 0
  | String c rest => (if Ascii.eqb c "010" then 1 else 0) + lineFeeds rest
  end.

(** What a method of the parser may do to the parser: record further
    errors and move the cursor forward, at most to the end of the tokens;
    the text and the tokens stay. *)
Definition extends (a b : Parser) : Prop :=
  input a = input b /\ tokens a = tokens b
  /\ errors a `prefix_of` errors b
  /\ position a <= position b <= Nat.max (position a) (length (tokens a)).

(** A call that, when it returns or throws, has done no more than that. *)
Definition keepsParser {A : Type} (c : M A) (this : Parser) : Prop :=
  match c with
  | Normal _ this' | Throw _ this' => extends this this'
  | Diverge => True
  end.

(** A statement [Q rank c this] about the call [c] of every method that
    parses an expression, on every parser [this].  The [rank] of a method
    is larger than that of the methods it calls before it has consumed a
    token; the loops have rank 0. *)
Definition ExpressionsEach
    (Q : nat -> forall A : Type, M A -> Parser -> Prop) (fuel : nat) : Prop :=
  (forall this, Q 10 _ (parseExpression fuel this) this)
  /\ (forall this, Q 9 _ (parseLogicalOr fuel this) this)
  /\ (forall expr this, Q 0 _ (parseLogicalOrLoop fuel expr this) this)
  /\ (forall this, Q 8 _ (parseLogicalAnd fuel this) this)
  /\ (forall expr this, Q 0 _ (parseLogicalAndLoop fuel expr this) this)
  /\ (forall this, Q 7 _ (parseEquality fuel this) this)
  /\ (forall expr this, Q 0 _ (parseEqualityLoop fuel expr this) this)
  /\ (forall this, Q 6 _ (parseRelational fuel this) this)
  /\ (forall expr this, Q 0 _ (parseRelationalLoop fuel expr this) this)
  /\ (forall this, Q 5 _ (parseAdditive fuel this) this)
  /\ (forall expr this, Q 0 _ (parseAdditiveLoop fuel expr this) this)
  /\ (forall this, Q 4 _ (parseMultiplicative fuel this) this)
  /\ (forall expr this, Q 0 _ (parseMultiplicativeLoop fuel expr this) this)
  /\ (forall this, Q 3 _ (parseUnary fuel this) this)
  /\ (forall this, Q 2 _ (parsePrimary fuel this) this)
  /\ (forall items this, Q 0 _ (parseExpressionsLoop fuel items this) this)
  /\ (forall callee this, Q 1 _ (parseCallExpression fuel callee this) this)
  /\ (forall object this, Q 1 _ (parseMemberExpression fuel object this) this)
  /\ (forall this, Q 1 _ (parseArrayExpression fuel this) this)
  /\ (forall this, Q 1 _ (parseObjectExpression fuel this) this)
  /\ (forall properties this, Q 0 _ (parsePropertiesLoop fuel properties this) this)
  /\ (forall this, Q 1 _ (parseObjectProperty fuel this) this)
  /\ (forall this, Q 1 _ (parseThrowStatement fuel this) this).

(** The same for the methods that parse a statement. *)
Definition StatementsEach
    (Q : forall A : Type, M A -> Parser -> Prop) (fuel : nat) : Prop :=
  (forall this, Q _ (parseStatement fuel this) this)
  /\ (forall this, Q _ (parseIfStatement fuel this) this)
  /\ (forall this, Q _ (parseBlock fuel this) this)
  /\ (forall body this, Q _ (parseBlockLoop fuel body this) this)
  /\ (forall this, Q _ (parseWhileStatement fuel this) this)
  /\ (forall this, Q _ (parseForStatement fuel this) this)
  /\ (forall this, Q _ (parseFunctionDeclaration fuel this) this)
  /\ (forall this, Q _ (parseClassDeclaration fuel this) this)
  /\ (forall this, Q _ (parseDoWhileStatement fuel this) this)
  /\ (forall this, Q _ (parseMatchStatement fuel this) this)
  /\ (forall cases this, Q _ (parseMatchStatementLoop fuel cases this) this)
  /\ (forall this, Q _ (parseMatchCase fuel this) this)
  /\ (forall this, Q _ (parseMatchDefault fuel this) this)
  /\ (forall this, Q _ (parseRetryStatement fuel this) this)
  /\ (forall this, Q _ (parseTryStatement fuel this) this)
  /\ (forall this, Q _ (parseCatchClause fuel this) this)
  /\ (forall this, Q _ (parseFinallyClause fuel this) this).

(** The number of tokens from the cursor on. *)
Definition remaining (this : Parser) : nat :=
  length (tokens this) - position this.

(** The call has come to an end, and if it has returned, the cursor has
    moved forward: by one token at least for a method, possibly not at
    all for a loop (rank 0). *)
Definition finishes {A : Type} (rank : nat) (c : M A) (this : Parser) : Prop :=
  match c with
  | Normal _ this' =>
      if rank =? 0 then remaining this' <= remaining this
      else remaining this' < remaining this
  | Throw _ _ => True
  | Diverge => False
  end.

(** Fuel that is enough for a method of rank [rank] with [n] tokens left. *)
Definition enough (rank n : nat) : nat := 12 * n + rank + 1.

(** A token that opens or closes a block. *)
Definition isBrace (token : Token) : bool :=
  (tvalue token === "{") || (tvalue token === "}").

(** No token of the parser is a brace. *)
Definition braceFree (this : Parser) : Prop :=
  forallb (fun token => negb (isBrace token)) (tokens this) = true.

(** With no brace among the tokens, the methods that parse a statement
    come to an end when they have fuel for twelve nested calls per token
    left and a few more; a method entered on the keyword of its statement
    is given that token.  The loop of a block, and the loop and the cases
    of a [match], are entered after an opening brace only. *)
Definition StatementsEnd (fuel : nat) : Prop :=
  let entered (this : Parser) (ends : Prop) : Prop :=
    braceFree this ->
    (exists token, currentToken this = Some token) ->
    enough 13 (remaining this) <= fuel -> ends in
  (forall this, braceFree this -> enough 14 (remaining this) <= fuel ->
                parseStatement fuel this <> Diverge)
  /\ (forall this, entered this (parseIfStatement fuel this <> Diverge))
  /\ (forall this, braceFree this -> enough 15 (remaining this) <= fuel ->
                   parseBlock fuel this <> Diverge)
  /\ (forall this, entered this (parseWhileStatement fuel this <> Diverge))
  /\ (forall this, entered this (parseForStatement fuel this <> Diverge))
  /\ (forall this, entered this (parseFunctionDeclaration fuel this <> Diverge))
  /\ (forall this, entered this (parseClassDeclaration fuel this <> Diverge))
  /\ (forall this, entered this (parseDoWhileStatement fuel this <> Diverge))
  /\ (forall this, entered this (parseMatchStatement fuel this <> Diverge))
  /\ (forall this, entered this (parseRetryStatement fuel this <> Diverge))
  /\ (forall this, entered this (parseTryStatement fuel this <> Diverge))
  /\ (forall this, entered this (parseCatchClause fuel this <> Diverge))
  /\ (forall this, entered this (parseFinallyClause fuel this <> Diverge)).

(** The tokens from the cursor on. *)
Definition ahead (this : Parser) : list Token :=
  drop (position this) (tokens this).

(** A token on which [parseStatement] starts no statement: it is no
    identifier, none of the words that start a statement, and no brace.
    Numbers, strings, operators, the other symbols and the other keywords
    are such tokens. *)
Definition startsNoStatement (token : Token) : bool :=
  negb (TokenType_eqb (ttype token) IDENTIFIER)
  && negb (includes ["static"; "var"; "if"; "while"; "do"; "for"; "fun"; "class";
                     "return"; "match"; "retry"; "try"] (tvalue token))
  && negb (isBrace token).

(** The node of a number token. *)
Definition numberLiteral (token : Token) : Node :=
  Literal (VNumber (JsNumber.ofString (tvalue token))) (tvalue token)
    (ofNat (tstart token)) (ofNat (tend token)).

(** The node of [expr operator operand]. *)
Definition binary (expr : Node) (operator : Token) (operand : Node) : Node :=
  BinaryExpression (tvalue operator) expr operand (nodeStart expr) (nodeEnd operand).

(** A number token as an operand: [parseUnary] looks at the value of
    every token for the word [not], whatever its type. *)
Definition isOperand (token : Token) : bool :=
  TokenType_eqb (ttype token) NUMBER && negb (tvalue token === "not").

(** A product [n0 * n1 / n2 ...] of numbers: its first token and the
    pairs of an operator and a number that follow. *)
Definition Product : Type := Token * list (Token * Token).

Definition isProduct (product : Product) : bool :=
  isOperand (fst product)
  && forallb (fun factor : Token * Token =>
                includes ["*"; "/"; "%"] (tvalue (fst factor))
                && isOperand (snd factor)) (snd product).

Definition productTokens (product : Product) : list Token :=
  fst product
  :: flat_map (fun factor : Token * Token => [fst factor; snd factor]) (snd product).

(** The tree of a product: nested to the left. *)
Definition productTree (product : Product) : Node :=
  fold_left (fun expr (factor : Token * Token) =>
               binary expr (fst factor) (numberLiteral (snd factor)))
    (snd product) (numberLiteral (fst product)).

(** A sum [p0 + p1 - p2 ...] of products. *)
Definition Sum : Type := Product * list (Token * Product).

Definition isSum (sum : Sum) : bool :=
  isProduct (fst sum)
  && forallb (fun term : Token * Product =>
                includes ["+"; "-"] (tvalue (fst term)) && isProduct (snd term))
       (snd sum).

Definition sumTokens (sum : Sum) : list Token :=
  (productTokens (fst sum)
   ++ flat_map (fun term : Token * Product => fst term :: productTokens (snd term))
        (snd sum))%list.

(** The tree of a sum: nested to the left, each product being one
    operand. *)
Definition sumTree (sum : Sum) : Node :=
  fold_left (fun expr (term : Token * Product) =>
               binary expr (fst term) (productTree (snd term)))
    (snd sum) (productTree (fst sum)).

(** The token, if any, is no binary operator. *)
Definition endsExpression (next : option Token) : bool :=
  match next with
  | Some token =>
      negb (includes ["+"; "-"; "*"; "/"; "%"; "<"; "<="; ">"; ">="; "=="; "!=";
                      "and"; "or"] (tvalue token))
  | None => true
  end.

(** The call returns [tree], with the tokens [rest] left ahead; of the
    parser only the cursor has moved. *)
Definition returnsWith (c : M Node) (tree : Node) (this : Parser)
    (rest : list Token) : Prop :=
  exists this' : Parser,
    c = Normal tree this' /\ ahead this' = rest /\ sameButCursor this this'.

(** A token at which [skipToNextStatement] stops without consuming it: a
    brace, or the start of a statement, whose value is not [";"]. *)
Definition resumesAt (token : Token) : bool :=
  negb (tvalue token === ";") && (isBrace token || isStatementStart token).

(** A token that [skipToNextStatement] passes over. *)
Definition passedOver (token : Token) : bool :=
  negb (tvalue token === ";") && negb (isBrace token)
  && negb (isStatementStart token).

(** * Lemmas *)

(** ** The lexer *)

Lemma charAt_lt (text : string) (i : nat) (c : ascii) :
  charAt text i = Some c -> i < String.length text.
Proof.
  unfold charAt. revert i.
  induction text as [| d text IH]; intros [| i]; cbn; try discriminate; try lia.
  intros H. apply IH in H. lia.
Qed.

Lemma charAt_ge (text : string) (i : nat) :
  charAt text i = None -> String.length text <= i.
Proof.
  unfold charAt. revert i.
  induction text as [| d text IH]; intros [| i]; cbn; try discriminate; try lia.
  intros H. apply IH in H. lia.
Qed.

Lemma scanWhile_ge (p : ascii -> bool) (text : string) (fuel current : nat) :
  current <= scanWhile p text fuel current.
Proof.
  revert current. induction fuel as [| fuel IH]; intros current; cbn; [lia |].
  destruct (charAt text current) as [c |]; [| lia].
  destruct (p c); [| lia]. specialize (IH (S current)). lia.
Qed.

Lemma scanWhile_first (p : ascii -> bool) (text : string) (fuel current : nat)
    (c : ascii) :
  charAt text current = Some c -> p c = true -> 0 < fuel ->
  current < scanWhile p text fuel current.
Proof.
  intros Hc Hp Hfuel. destruct fuel as [| fuel]; [lia |]. cbn. rewrite Hc, Hp.
  pose proof (scanWhile_ge p text fuel (S current)). lia.
Qed.

Lemma scanString_ge (quote : ascii) (text : string) (fuel current : nat) :
  current <= scanString quote text fuel current.
Proof.
  revert current. induction fuel as [| fuel IH]; intros current; cbn; [lia |].
  destruct (charAt text current) as [c |]; [| lia].
  destruct (Ascii.eqb c quote); [lia |].
  destruct (Ascii.eqb c "\").
  - specialize (IH (current + 2)). lia.
  - specialize (IH (current + 1)). lia.
Qed.

Lemma scanBlockComment_ge (text : string) (fuel current : nat) :
  current <= scanBlockComment text fuel current.
Proof.
  revert current. induction fuel as [| fuel IH]; intros current; cbn; [lia |].
  case_match; [| lia]. specialize (IH (S current)). lia.
Qed.

(** Every turn of the loop that does not throw moves forward. *)
Lemma tokenizeStep_progress (text : string) (current : nat) (char : ascii)
    (tokens : list Token) (current' : nat) (tokens' : list Token) :
  charAt text current = Some char ->
  tokenizeStep text current char tokens = inr (current', tokens') ->
  current < current'.
Proof.
  intros Hc. pose proof (charAt_lt _ _ _ Hc) as Hlt.
  unfold tokenizeStep.
  pose proof (scanBlockComment_ge text (String.length text) (current + 2)).
  pose proof (scanString_ge char text (String.length text) (current + 1)).
  pose proof (scanWhile_ge isDigitOrDot text (String.length text) (current + 1)).
  repeat case_match; intros [= <- <-]; try lia;
    (apply scanWhile_first with (c := char); [assumption | | lia]).
  all: first
    [ unfold isDigitOrDot; apply orb_true_iff; left; assumption
    | unfold isIdentPart; apply orb_true_iff; left; assumption
    | match goal with
      | H : _ && _ = true |- _ => apply andb_true_iff in H as [H _]
      end;
      destruct (Ascii.eqb_spec char "/") as [-> |];
      [reflexivity | discriminate] ].
Qed.

(** [tokenize] always returns or throws: the fuel it is given is enough. *)
Lemma tokenizeLoop_fuel (text : string) (fuel current : nat) (tokens : list Token) :
  String.length text - current <= fuel ->
  tokenizeLoop text fuel current tokens <> None.
Proof.
  revert current tokens.
  induction fuel as [| fuel IH]; intros current tokens Hfuel; cbn.
  - destruct (charAt text current) as [c |] eqn:Hc; [| discriminate].
    apply charAt_lt in Hc. lia.
  - destruct (charAt text current) as [c |] eqn:Hc; [| discriminate].
    destruct (tokenizeStep text current c tokens) as [e | [current' tokens']] eqn:Hs;
      [discriminate |].
    apply IH. apply (tokenizeStep_progress _ _ _ _ _ _ Hc) in Hs. lia.
Qed.

Lemma tokenize_returns (text : string) (this : Parser) :
  tokenize text this <> Diverge.
Proof.
  unfold tokenize.
  pose proof (tokenizeLoop_fuel text (String.length text) 0 []) as H.
  destruct (tokenizeLoop text (String.length text) 0 []) as [[e | toks] |];
    [discriminate | discriminate | exfalso; apply H; [lia | reflexivity]].
Qed.

Lemma lexerState_loop (text : string) (turns current : nat) (tokens : list Token) :
  lexerState text turns = Some (current, tokens) ->
  turns <= current /\
  forall fuel,
    tokenizeLoop text (turns + fuel) 0 [] = tokenizeLoop text fuel current tokens.
Proof.
  revert current tokens.
  induction turns as [| turns IH]; intros current tokens; cbn [lexerState].
  - intros [= <- <-]. split; [lia | reflexivity].
  - destruct (lexerState text turns) as [[current0 tokens0] |]; [| discriminate].
    destruct (charAt text current0) as [char |] eqn:Hchar; [| discriminate].
    destruct (tokenizeStep text current0 char tokens0) as [e | state] eqn:Hstep;
      [discriminate |].
    intros [= ->]. destruct (IH _ _ eq_refl) as [Hle Hloop].
    pose proof (tokenizeStep_progress _ _ _ _ _ _ Hchar Hstep). split; [lia |].
    intros fuel. replace (S turns + fuel) with (turns + S fuel) by lia.
    rewrite Hloop. cbn [tokenizeLoop]. rewrite Hchar, Hstep. reflexivity.
Qed.

Lemma isBlank_charAt (text : string) (i : nat) (c : ascii) :
  isBlank text = true -> charAt text i = Some c -> isSpace c = true.
Proof.
  unfold charAt. revert i.
  induction text as [| d text IH]; intros [| i]; cbn; try discriminate;
    intros [Hd Hrest]%andb_true_iff.
  - intros [= <-]. assumption.
  - apply IH. assumption.
Qed.

(** ** Expressions only move the cursor *)

Lemma sameButCursor_refl (this : Parser) : sameButCursor this this.
Proof. repeat split. Qed.

Lemma sameButCursor_trans (a b c : Parser) :
  sameButCursor a b -> sameButCursor b c -> sameButCursor a c.
Proof. unfold sameButCursor. intuition congruence. Qed.

Lemma sameButCursor_nextToken (this : Parser) :
  sameButCursor this (nextToken this).
Proof.
  unfold nextToken. destruct (position this <? length (tokens this));
    repeat split.
Qed.

Lemma movesCursorOnly_throwAt {A : Type} (text : string) (a b : Parser) :
  sameButCursor a b -> movesCursorOnly (throwAt (A := A) text b) a.
Proof. unfold throwAt. destruct (currentToken b); trivial. Qed.

Lemma movesCursorOnly_from {A : Type} (c : M A) (a b : Parser) :
  sameButCursor a b -> movesCursorOnly c b -> movesCursorOnly c a.
Proof.
  destruct c; cbn; trivial; intros; eapply sameButCursor_trans; eassumption.
Qed.

(** The term a nest of [match] finally inspects. *)
Ltac head_scrutinee t :=
  lazymatch t with
  | match ?x with _ => _ end => head_scrutinee x
  | _ => t
  end.

(** Case analysis on [x]; when [x] is a call of a method for which an
    induction hypothesis is at hand, what the hypothesis says of the call
    is recorded first. *)
Ltac frame_destruct x :=
  first
    [ match goal with
      | IH : (forall this, movesCursorOnly (?f ?fuel this) this) |- _ =>
          lazymatch x with
          | f fuel ?s =>
              let H := fresh "Hframe" in
              pose proof (IH s) as H; destruct x; cbn [movesCursorOnly] in H
          end
      end
    | match goal with
      | IH : (forall y this, movesCursorOnly (?f ?fuel y this) this) |- _ =>
          lazymatch x with
          | f fuel ?y ?s =>
              let H := fresh "Hframe" in
              pose proof (IH y s) as H; destruct x; cbn [movesCursorOnly] in H
          end
      end
    | destruct x ].

Ltac frame_step :=
  lazymatch goal with
  | |- movesCursorOnly ?t _ =>
      lazymatch t with
      | match _ with _ => _ end =>
          let x := head_scrutinee t in frame_destruct x; cbv beta iota
      end
  end.

Ltac sameButCursor_solve :=
  repeat match goal with
         | |- sameButCursor ?a ?a => apply sameButCursor_refl
         | |- sameButCursor _ (if ?b then _ else _) => destruct b
         | |- sameButCursor _ (nextToken _) =>
             eapply sameButCursor_trans; [| apply sameButCursor_nextToken]
         | H : sameButCursor ?b ?c |- sameButCursor _ ?c =>
             eapply sameButCursor_trans; [| exact H]
         end.

(** What is left once the body is a result, a [throw] or a tail call. *)
Ltac frame_done :=
  lazymatch goal with
  | |- movesCursorOnly (Normal _ _) _ => cbn [movesCursorOnly]; sameButCursor_solve
  | |- movesCursorOnly (Throw _ _) _ => cbn [movesCursorOnly]; sameButCursor_solve
  | |- movesCursorOnly Diverge _ => exact I
  | |- movesCursorOnly (throwAt _ _) _ =>
      apply movesCursorOnly_throwAt; sameButCursor_solve
  | |- movesCursorOnly (_ _ ?s) _ =>
      apply movesCursorOnly_from with (b := s);
      [sameButCursor_solve | solve [auto]]
  end.

Ltac frame := cbv [some withStart throwAt]; repeat frame_step; frame_done.

Lemma expressions_move_cursor_only (fuel : nat) : ExpressionsMoveCursorOnly fuel.
Proof.
  induction fuel as [| fuel IH].
  - repeat split; intros; exact I.
  - destruct IH as (IH1 & IH2 & IH3 & IH4 & IH5 & IH6 & IH7 & IH8 & IH9 & IH10
                    & IH11 & IH12 & IH13 & IH14 & IH15 & IH16 & IH17 & IH18
                    & IH19 & IH20 & IH21 & IH22 & IH23).
    unfold ExpressionsMoveCursorOnly.
    repeat match goal with |- _ /\ _ => split end; intros.
    all: cbn [parseExpression parseLogicalOr parseLogicalOrLoop parseLogicalAnd
                parseLogicalAndLoop parseEquality parseEqualityLoop
                parseRelational parseRelationalLoop parseAdditive
                parseAdditiveLoop parseMultiplicative parseMultiplicativeLoop
                parseUnary parsePrimary parseExpressionsLoop parseCallExpression
                parseMemberExpression parseArrayExpression parseObjectExpression
                parsePropertiesLoop parseObjectProperty parseThrowStatement].
    all: frame.
Qed.

(** ** Fuel

    An outcome other than [Diverge] does not depend on the fuel: the same
    call with more fuel has the same outcome.  So [parse fuel text this =
    Normal ast this'] for one [fuel] says what [parse] returns, and
    [Diverge] for every [fuel] says that it does not return. *)

(** One step of the comparison of a method body at two amounts of fuel.
    The goal is [rhs <> Diverge -> lhs = rhs], the two sides being the same
    code with calls at [fuel'] on the left and at [fuel] on the right. *)
Ltac stable_destruct x :=
  first
    [ match goal with
      | IH : (forall this, stable (?f ?fuel this) (?f ?fuel' this)) |- _ =>
          lazymatch x with
          | f fuel ?s =>
              let E := fresh "E" in
              destruct x eqn:E;
              [ rewrite (IH s) by (rewrite E; discriminate); rewrite E
              | rewrite (IH s) by (rewrite E; discriminate); rewrite E
              | let H := fresh in intros H; exfalso; apply H; reflexivity ]
          end
      end
    | match goal with
      | IH : (forall y this, stable (?f ?fuel y this) (?f ?fuel' y this)) |- _ =>
          lazymatch x with
          | f fuel ?y ?s =>
              let E := fresh "E" in
              destruct x eqn:E;
              [ rewrite (IH y s) by (rewrite E; discriminate); rewrite E
              | rewrite (IH y s) by (rewrite E; discriminate); rewrite E
              | let H := fresh in intros H; exfalso; apply H; reflexivity ]
          end
      end
    | destruct x ].

Ltac stable_step :=
  lazymatch goal with
  | |- ?rhs <> Diverge -> _ = ?rhs =>
      lazymatch rhs with
      | match _ with _ => _ end =>
          let x := head_scrutinee rhs in stable_destruct x; cbv beta iota
      end
  end.

Ltac stable_done :=
  lazymatch goal with
  | |- ?rhs <> Diverge -> ?lhs = ?rhs =>
      first
        [ intros _; reflexivity
        | let H := fresh in intros H; exfalso; apply H; reflexivity
        | let H := fresh in
          intros H;
          match goal with
          | IH : (forall this, stable _ _) |- _ => apply IH; exact H
          | IH : (forall y this, stable _ _) |- _ => apply IH; exact H
          end ]
  end.

Ltac stabilise :=
  unfold stable; cbv [some withStart throwAt]; cbv zeta;
  repeat stable_step; stable_done.

Lemma expressions_stable (fuel : nat) :
  forall fuel' : nat, fuel <= fuel' -> ExpressionsStable fuel fuel'.
Proof.
  induction fuel as [| fuel IH]; intros fuel' Hle.
  - repeat split; intros; intros H; exfalso; apply H; reflexivity.
  - destruct fuel' as [| fuel']; [lia |].
    destruct (IH fuel' ltac:(lia))
      as (IH1 & IH2 & IH3 & IH4 & IH5 & IH6 & IH7 & IH8 & IH9 & IH10
          & IH11 & IH12 & IH13 & IH14 & IH15 & IH16 & IH17 & IH18
          & IH19 & IH20 & IH21 & IH22 & IH23).
    clear IH.
    unfold ExpressionsStable.
    repeat match goal with |- _ /\ _ => split end; intros.
    all: cbn [parseExpression parseLogicalOr parseLogicalOrLoop parseLogicalAnd
                parseLogicalAndLoop parseEquality parseEqualityLoop
                parseRelational parseRelationalLoop parseAdditive
                parseAdditiveLoop parseMultiplicative parseMultiplicativeLoop
                parseUnary parsePrimary parseExpressionsLoop parseCallExpression
                parseMemberExpression parseArrayExpression parseObjectExpression
                parsePropertiesLoop parseObjectProperty parseThrowStatement].
    all: stabilise.
Qed.

Lemma parseVariableDeclaration_stable (fuel fuel' : nat) (this : Parser) :
  fuel <= fuel' ->
  stable (parseVariableDeclaration fuel this) (parseVariableDeclaration fuel' this).
Proof.
  intros Hle. pose proof (proj1 (expressions_stable fuel fuel' Hle)) as IH.
  unfold parseVariableDeclaration, findEndOfLine. stabilise.
Qed.

Lemma parseAssignmentExpression_stable (fuel fuel' : nat) (lhs : Node)
    (this : Parser) :
  fuel <= fuel' ->
  stable (parseAssignmentExpression fuel lhs this)
    (parseAssignmentExpression fuel' lhs this).
Proof.
  intros Hle. pose proof (proj1 (expressions_stable fuel fuel' Hle)) as IH.
  unfold parseAssignmentExpression. stabilise.
Qed.

Lemma parseExpressionStatement_stable (fuel fuel' : nat) (this : Parser) :
  fuel <= fuel' ->
  stable (parseExpressionStatement fuel this) (parseExpressionStatement fuel' this).
Proof.
  intros Hle. pose proof (proj1 (expressions_stable fuel fuel' Hle)) as IH.
  pose proof (fun lhs this => parseAssignmentExpression_stable fuel fuel' lhs this Hle)
    as IHassign.
  unfold parseExpressionStatement. stabilise.
Qed.

Lemma parseReturnStatement_stable (fuel fuel' : nat) (this : Parser) :
  fuel <= fuel' ->
  stable (parseReturnStatement fuel this) (parseReturnStatement fuel' this).
Proof.
  intros Hle. pose proof (proj1 (expressions_stable fuel fuel' Hle)) as IH.
  unfold parseReturnStatement. stabilise.
Qed.

Lemma statements_stable (fuel : nat) :
  forall fuel' : nat, fuel <= fuel' -> StatementsStable fuel fuel'.
Proof.
  induction fuel as [| fuel IH]; intros fuel' Hle.
  - repeat split; intros; intros H; exfalso; apply H; reflexivity.
  - destruct fuel' as [| fuel']; [lia |].
    assert (Hle' : fuel <= fuel') by lia.
    destruct (IH fuel' Hle')
      as (IH1 & IH2 & IH3 & IH4 & IH5 & IH6 & IH7 & IH8 & IH9 & IH10
          & IH11 & IH12 & IH13 & IH14 & IH15 & IH16 & IH17).
    clear IH.
    pose proof (proj1 (expressions_stable fuel fuel' Hle')) as IHexpr.
    pose proof (fun this => parseVariableDeclaration_stable fuel fuel' this Hle')
      as IHvar.
    pose proof (fun this => parseExpressionStatement_stable fuel fuel' this Hle')
      as IHstmt.
    pose proof (fun this => parseReturnStatement_stable fuel fuel' this Hle')
      as IHreturn.
    unfold StatementsStable.
    repeat match goal with |- _ /\ _ => split end; intros.
    all: cbn [parseStatement parseIfStatement parseBlock parseBlockLoop
                parseWhileStatement parseForStatement parseFunctionDeclaration
                parseClassDeclaration parseDoWhileStatement parseMatchStatement
                parseMatchStatementLoop parseMatchCase parseMatchDefault
                parseRetryStatement parseTryStatement parseCatchClause
                parseFinallyClause].
    all: stabilise.
Qed.

Lemma parseLoop_stable (fuel : nat) :
  forall (fuel' : nat) (statements : list Node) (this : Parser),
    fuel <= fuel' ->
    stable (parseLoop fuel statements this) (parseLoop fuel' statements this).
Proof.
  induction fuel as [| fuel IH]; intros fuel' statements this Hle.
  - intros H. exfalso. apply H. reflexivity.
  - destruct fuel' as [| fuel']; [lia |].
    assert (Hle' : fuel <= fuel') by lia.
    pose proof (proj1 (statements_stable fuel fuel' Hle')) as IHstmt.
    pose proof (fun statements this => IH fuel' statements this Hle') as IHloop.
    clear IH. cbn [parseLoop]. stabilise.
Qed.

(** An outcome of [parse] other than [Diverge] is its outcome with any
    larger amount of fuel. *)
Lemma parse_stable (fuel fuel' : nat) (text : string) (this : Parser) :
  fuel <= fuel' -> stable (parse fuel text this) (parse fuel' text this).
Proof.
  intros Hle.
  pose proof (fun statements this => parseLoop_stable fuel fuel' statements this Hle)
    as IH.
  unfold parse. stabilise.
Qed.

(** Two outcomes of the same call of [parse], neither being [Diverge],
    are equal. *)
Lemma parse_outcome_unique (fuel fuel' : nat) (text : string) (this : Parser) :
  parse fuel text this <> Diverge -> parse fuel' text this <> Diverge ->
  parse fuel text this = parse fuel' text this.
Proof.
  intros H H'. destruct (Nat.le_ge_cases fuel fuel') as [Hle | Hle].
  - symmetry. exact (parse_stable _ _ _ _ Hle H).
  - exact (parse_stable _ _ _ _ Hle H').
Qed.

(** ** The trees the parser builds *)

(** A test on a tree under construction holds by the facts at hand about
    its parts. *)
Ltac yield_ok :=
  repeat match goal with
         | |- context [match ?o with Some _ => _ | None => _ end] =>
             is_var o; destruct o
         end;
  unfold fieldDeclaresTypeKeywords in *;
  cbn [yields declaresTypeKeywords parseTemplateLiteral];
  rewrite ?forallb_app;
  cbn [forallb declaresTypeKeywords];
  repeat match goal with
         | H : _ = true |- _ => rewrite H
         end;
  first [reflexivity | assumption].

Ltac yield_destruct x :=
  first
    [ match goal with
      | IH : (forall this, yields ?ok (?f ?fuel this)) |- _ =>
          lazymatch x with
          | f fuel ?s =>
              let H := fresh "Hyield" in
              pose proof (IH s) as H; destruct x; cbn [yields] in H
          end
      end
    | match goal with
      | IH : (forall y this, @?P y -> yields ?ok (?f ?fuel y this)) |- _ =>
          lazymatch x with
          | f fuel ?y ?s =>
              let H := fresh "Hyield" in
              assert (H : yields ok (f fuel y s)) by (apply IH; yield_ok);
              destruct x; cbn [yields] in H
          end
      end
    | destruct x eqn:? ].

Ltac yield_step :=
  lazymatch goal with
  | |- yields _ ?t =>
      lazymatch t with
      | match _ with _ => _ end =>
          let x := head_scrutinee t in yield_destruct x; cbv beta iota
      end
  end.

Ltac yield_done :=
  lazymatch goal with
  | |- yields _ (Normal _ _) => yield_ok
  | |- yields _ (Throw _ _) => exact I
  | |- yields _ Diverge => exact I
  | |- yields _ _ =>
      match goal with
      | IH : (forall this, yields _ _) |- _ => apply IH
      | IH : (forall y this, _ -> yields _ _) |- _ => apply IH; yield_ok
      end
  end.

Ltac yielding :=
  cbv [some withStart throwAt]; cbv zeta; repeat yield_step; yield_done.

Lemma expressions_yield_type_keywords (fuel : nat) :
  ExpressionsYieldTypeKeywords fuel.
Proof.
  induction fuel as [| fuel IH].
  - repeat split; intros; exact I.
  - destruct IH as (IH1 & IH2 & IH3 & IH4 & IH5 & IH6 & IH7 & IH8 & IH9 & IH10
                    & IH11 & IH12 & IH13 & IH14 & IH15 & IH16 & IH17 & IH18
                    & IH19 & IH20 & IH21 & IH22 & IH23).
    unfold ExpressionsYieldTypeKeywords.
    repeat match goal with |- _ /\ _ => split end; intros.
    all: cbn [parseExpression parseLogicalOr parseLogicalOrLoop parseLogicalAnd
                parseLogicalAndLoop parseEquality parseEqualityLoop
                parseRelational parseRelationalLoop parseAdditive
                parseAdditiveLoop parseMultiplicative parseMultiplicativeLoop
                parseUnary parsePrimary parseExpressionsLoop parseCallExpression
                parseMemberExpression parseArrayExpression parseObjectExpression
                parsePropertiesLoop parseObjectProperty parseThrowStatement].
    all: yielding.
Qed.

Lemma parseVariableDeclaration_yields (fuel : nat) (this : Parser) :
  yields declaresTypeKeywords (parseVariableDeclaration fuel this).
Proof.
  pose proof (proj1 (expressions_yield_type_keywords fuel)) as IH.
  unfold parseVariableDeclaration, findEndOfLine. yielding.
Qed.

Lemma parseAssignmentExpression_yields (fuel : nat) (lhs : Node) (this : Parser) :
  declaresTypeKeywords lhs = true ->
  yields declaresTypeKeywords (parseAssignmentExpression fuel lhs this).
Proof.
  intros Hlhs. pose proof (proj1 (expressions_yield_type_keywords fuel)) as IH.
  unfold parseAssignmentExpression. yielding.
Qed.

Lemma parseExpressionStatement_yields (fuel : nat) (this : Parser) :
  yields declaresTypeKeywords (parseExpressionStatement fuel this).
Proof.
  pose proof (proj1 (expressions_yield_type_keywords fuel)) as IH.
  pose proof (parseAssignmentExpression_yields fuel) as IHassign.
  unfold parseExpressionStatement. yielding.
Qed.

Lemma parseReturnStatement_yields (fuel : nat) (this : Parser) :
  yields declaresTypeKeywords (parseReturnStatement fuel this).
Proof.
  pose proof (proj1 (expressions_yield_type_keywords fuel)) as IH.
  unfold parseReturnStatement. yielding.
Qed.

Lemma statements_yield_type_keywords (fuel : nat) :
  StatementsYieldTypeKeywords fuel.
Proof.
  induction fuel as [| fuel IH].
  - repeat split; intros; exact I.
  - destruct IH as (IH1 & IH2 & IH3 & IH4 & IH5 & IH6 & IH7 & IH8 & IH9 & IH10
                    & IH11 & IH12 & IH13 & IH14 & IH15 & IH16 & IH17).
    pose proof (proj1 (expressions_yield_type_keywords fuel)) as IHexpr.
    pose proof (parseVariableDeclaration_yields fuel) as IHvar.
    pose proof (parseExpressionStatement_yields fuel) as IHstmt.
    pose proof (parseReturnStatement_yields fuel) as IHreturn.
    unfold StatementsYieldTypeKeywords.
    repeat match goal with |- _ /\ _ => split end; intros.
    all: cbn [parseStatement parseIfStatement parseBlock parseBlockLoop
                parseWhileStatement parseForStatement parseFunctionDeclaration
                parseClassDeclaration parseDoWhileStatement parseMatchStatement
                parseMatchStatementLoop parseMatchCase parseMatchDefault
                parseRetryStatement parseTryStatement parseCatchClause
                parseFinallyClause].
    all: yielding.
Qed.

Lemma parseLoop_yields (fuel : nat) (statements : list Node) (this : Parser) :
  forallb declaresTypeKeywords statements = true ->
  yields (forallb declaresTypeKeywords) (parseLoop fuel statements this).
Proof.
  revert statements this.
  induction fuel as [| fuel IH]; intros statements this Hok; [exact I |].
  pose proof (proj1 (statements_yield_type_keywords fuel)) as IHstmt.
  cbn [parseLoop]. yielding.
Qed.

(** The tree [parse] returns has type keywords for annotations. *)
Lemma parse_yields_type_keywords (fuel : nat) (text : string) (this : Parser) :
  yields (fun ast => forallb declaresTypeKeywords (body ast)) (parse fuel text this).
Proof.
  pose proof (parseLoop_yields fuel) as IH.
  unfold parse. yielding.
Qed.

(** ** What [parse] throws *)

(** [parseStatement] has its whole dispatch inside [try]: it never
    throws. *)
Lemma parseStatement_never_throws (fuel : nat) (this : Parser)
    (e : Exception) (this' : Parser) :
  parseStatement fuel this <> Throw e this'.
Proof.
  destruct fuel as [| fuel]; [discriminate |].
  cbn [parseStatement].
  destruct (currentToken this) as [token |]; [| discriminate].
  cbv zeta.
  match goal with
  | |- match ?attempt with _ => _ end <> _ => destruct attempt; discriminate
  end.
Qed.

Lemma parseLoop_never_throws (fuel : nat) (statements : list Node)
    (this : Parser) (e : Exception) (this' : Parser) :
  parseLoop fuel statements this <> Throw e this'.
Proof.
  revert statements this.
  induction fuel as [| fuel IH]; intros statements this; [discriminate |].
  cbn [parseLoop].
  destruct (position this <? length (tokens this)); [| discriminate].
  destruct (parseStatement fuel this) as [stmt this1 | e1 this1 |] eqn:Hstmt.
  - apply IH.
  - exfalso. exact (parseStatement_never_throws _ _ _ _ Hstmt).
  - discriminate.
Qed.

(** The only exception that leaves [parse] is one thrown by [tokenize]. *)
Lemma parse_throws_only_from_tokenize (fuel : nat) (text : string)
    (this : Parser) (e : Exception) (this' : Parser) :
  parse fuel text this = Throw e this' -> tokenize text this = Throw e this'.
Proof.
  unfold parse. destruct (isBlank text); [discriminate |].
  destruct (tokenize text this) as [toks this1 | e1 this1 |];
    [| intros [= -> ->]; reflexivity | discriminate].
  match goal with
  | |- match ?loop with _ => _ end = _ -> _ => destruct loop eqn:Hloop
  end; intros H; try discriminate H.
  exfalso. exact (parseLoop_never_throws _ _ _ _ _ Hloop).
Qed.

(** A declaration without a name throws, and so does one without the
    opening parenthesis or brace. *)
Lemma malformed_headers_throw (fuel : nat) (this : Parser) :
  (curIsIdentifier (nextToken this) = false ->
   parseFunctionDeclaration (S fuel) this
   = throwAt "Expected function name after 'fun' at position " (nextToken this)
   /\ parseClassDeclaration (S fuel) this
      = throwAt "Expected class name after 'class' at position " (nextToken this))
  /\ (curIsIdentifier (nextToken this) = true ->
      (curIs (nextToken (nextToken this)) "(" = false ->
       parseFunctionDeclaration (S fuel) this
       = throwAt "Expected '(' after function name at position "
           (nextToken (nextToken this)))
      /\ (curIs (nextToken (nextToken this)) "{" = false ->
          parseClassDeclaration (S fuel) this
          = throwAt "Expected '{' to start class body at position "
              (nextToken (nextToken this)))).
Proof.
  unfold curIsIdentifier. cbn [parseFunctionDeclaration parseClassDeclaration].
  destruct (currentToken (nextToken this)) as [nameToken |]; split;
    try discriminate; intros Hname; try rewrite Hname;
    try (split; reflexivity).
  split; intros Hnext; rewrite Hnext; reflexivity.
Qed.

(** ** Braces *)

Lemma currentToken_lt (this : Parser) (token : Token) :
  currentToken this = Some token -> position this < length (tokens this).
Proof.
  unfold currentToken. destruct (Nat.ltb_spec (position this) (length (tokens this)));
    [trivial | discriminate].
Qed.

(** At a brace, [skipToNextStatement] returns at once. *)
Lemma skipToNextStatement_brace (this : Parser) (token : Token) :
  currentToken this = Some token ->
  tvalue token = "}" \/ tvalue token = "{" ->
  skipToNextStatement this = this.
Proof.
  intros Hcur Hbrace. pose proof (currentToken_lt _ _ Hcur).
  unfold skipToNextStatement.
  destruct (length (tokens this) - position this) as [| n] eqn:Hn; [lia |].
  cbn. rewrite Hcur. destruct Hbrace as [-> | ->]; reflexivity.
Qed.

(** At a brace that is not an identifier, [parseStatement] returns [null]
    and leaves the cursor where it was. *)
Lemma parseStatement_brace (fuel : nat) (this : Parser) (token : Token) :
  currentToken this = Some token ->
  tvalue token = "}" \/ tvalue token = "{" ->
  ttype token <> IDENTIFIER ->
  parseStatement (S fuel) this = Normal None this.
Proof.
  intros Hcur Hbrace Htype. cbn [parseStatement]. rewrite Hcur.
  assert (TokenType_eqb (ttype token) IDENTIFIER = false) as ->
    by (destruct (ttype token); try reflexivity; congruence).
  rewrite (skipToNextStatement_brace _ _ Hcur Hbrace).
  destruct Hbrace as [-> | ->]; reflexivity.
Qed.

(** The statement loop of [parse] never ends once the cursor is on a
    brace. *)
Lemma parseLoop_brace (this : Parser) (token : Token) :
  currentToken this = Some token ->
  tvalue token = "}" \/ tvalue token = "{" ->
  ttype token <> IDENTIFIER ->
  forall (fuel : nat) (statements : list Node),
    parseLoop fuel statements this = Diverge.
Proof.
  intros Hcur Hbrace Htype fuel.
  pose proof (currentToken_lt _ _ Hcur) as Hlt. apply Nat.ltb_lt in Hlt.
  induction fuel as [| fuel IH]; intros statements; [reflexivity |].
  cbn [parseLoop]. rewrite Hlt.
  destruct fuel as [| fuel]; [reflexivity |].
  rewrite (parseStatement_brace _ _ _ Hcur Hbrace Htype). apply IH.
Qed.

(** So does the loop of [parseBlock] on an opening brace inside a block. *)
Lemma parseBlockLoop_brace (this : Parser) (token : Token) :
  currentToken this = Some token ->
  tvalue token = "{" ->
  ttype token <> IDENTIFIER ->
  forall (fuel : nat) (body : list (option Node)),
    parseBlockLoop fuel body this = Diverge.
Proof.
  intros Hcur Hbrace Htype fuel.
  pose proof (currentToken_lt _ _ Hcur) as Hlt. apply Nat.ltb_lt in Hlt.
  induction fuel as [| fuel IH]; intros body; [reflexivity |].
  cbn [parseBlockLoop]. rewrite Hlt. unfold curIsNot. rewrite Hcur, Hbrace.
  cbn [String.eqb Ascii.eqb Bool.eqb negb andb].
  destruct fuel as [| fuel]; [reflexivity |].
  rewrite (parseStatement_brace _ _ _ Hcur (or_intror Hbrace) Htype). apply IH.
Qed.

(** A block inside a block: [parse] does not return on
    [while (x) { { } }] either, the loop of [parseBlock] being stuck on
    the inner brace. *)
Lemma parse_diverges_on_nested_block (fuel : nat) :
  parse fuel "while (x) { { } }" constructor = Diverge.
Proof.
  assert (Hlarge : forall f : nat, 20 <= f ->
            parse (S (S (S (S f)))) "while (x) { { } }" constructor = Diverge).
  { intros f Hf. unfold parse.
    change (isBlank "while (x) { { } }") with false. cbv iota.
    match goal with
    | |- context [tokenize ?t ?p] =>
        let r := eval vm_compute in (tokenize t p) in
        change (tokenize t p) with r
    end.
    cbv beta iota.
    cbn -[parseExpression parseBlock].
    match goal with
    | |- context [parseExpression (S f) ?s] =>
        let r := eval vm_compute in (parseExpression 20 s) in
        assert (Hexpr : parseExpression (S f) s = r)
          by (apply (proj1 (expressions_stable 20 (S f) ltac:(lia)) s);
              vm_compute; discriminate);
        rewrite Hexpr
    end.
    cbn -[parseBlock parseBlockLoop].
    cbn [parseBlock]. cbn -[parseBlockLoop].
    rewrite parseBlockLoop_brace with (token := mkToken SYMBOL "{" 12 13);
      [reflexivity | reflexivity | reflexivity | discriminate]. }
  destruct (parse fuel "while (x) { { } }" constructor) as [ast this' | e this' |] eqn:H;
    [| | reflexivity].
  - rewrite <- (Hlarge (20 + fuel) ltac:(lia)).
    rewrite <- H. symmetry. apply parse_stable; [lia | rewrite H; discriminate].
  - rewrite <- (Hlarge (20 + fuel) ltac:(lia)).
    rewrite <- H. symmetry. apply parse_stable; [lia | rewrite H; discriminate].
Qed.

(** ** Variable declarations *)

Lemma parseVariableDeclaration_head (fuel : nat) (this : Parser) :
  parseVariableDeclaration fuel this =
  match declarationHead fuel this with
  | Normal (startToken, isStatic, declaredType, nameToken, init) this =>
      if curIs this ";" then
        let this := nextToken this in
        Normal
          (VariableDeclaration declaredType (tvalue nameToken) init isStatic
             (ofNat (tstart startToken))
             (startOrElse this (ofNat (tend nameToken + 1))))
          this
      else
        do lineEnd with this <- findEndOfLine (tend nameToken) this;
        let this :=
          addError "Missing semicolon at end of variable declaration"
            (ofNat (tend nameToken)) (ofNat lineEnd) this in
        Normal
          (VariableDeclaration declaredType (tvalue nameToken) init isStatic
             (ofNat (tstart startToken)) (ofNat (tend nameToken)))
          this
  | Throw e this => Throw e this
  | Diverge => Diverge
  end.
Proof.
  unfold parseVariableDeclaration, declarationHead, throwAt.
  repeat match goal with
         | |- match ?y with _ => _ end = _ =>
             let x := head_scrutinee y in destruct x; cbv beta iota zeta
         end;
    reflexivity.
Qed.

Lemma declarationHead_moves_cursor_only (fuel : nat) (this : Parser) :
  movesCursorOnly (declarationHead fuel this) this.
Proof.
  pose proof (proj1 (expressions_move_cursor_only fuel)) as IH.
  unfold declarationHead. cbv zeta. frame.
Qed.

Lemma findEndOfLineFrom_spec (text : string) (fuel pos : nat) :
  String.length text - pos <= fuel -> pos <= String.length text ->
  isEndOfLine text pos (findEndOfLineFrom text fuel pos).
Proof.
  unfold isEndOfLine. revert pos.
  induction fuel as [| fuel IH]; intros pos Hfuel Hpos; cbn [findEndOfLineFrom].
  - split; [lia | split; [intros; lia | left; reflexivity]].
  - destruct (charAt text pos) as [c |] eqn:Hc.
    + pose proof (charAt_lt _ _ _ Hc) as Hlt.
      destruct (Ascii.eqb c "010" || Ascii.eqb c "013") eqn:Hbreak.
      * split; [lia | split; [intros; lia |]].
        right. rewrite Hc. apply orb_true_iff in Hbreak as [H | H];
          apply Ascii.eqb_eq in H; subst; auto.
      * destruct (IH (S pos)) as (Hrange & Hnone & Hat); [lia | lia |].
        split; [lia | split; [| assumption]].
        intros i d Hi Hd. destruct (Nat.eq_dec i pos) as [-> | Hne].
        -- rewrite Hc in Hd. injection Hd as <-.
           apply orb_false_iff in Hbreak as [H1 H2].
           apply Ascii.eqb_neq in H1. apply Ascii.eqb_neq in H2. tauto.
        -- apply (Hnone i d); [lia | assumption].
    + apply charAt_ge in Hc.
      split; [lia | split; [intros; lia | left; reflexivity]].
Qed.

Lemma declarationHead_start (fuel : nat) (this after : Parser)
    (startToken nameToken : Token) (isStatic : bool)
    (declaredType : option string) (init : option Node) :
  declarationHead fuel this
  = Normal (startToken, isStatic, declaredType, nameToken, init) after ->
  currentToken this = Some startToken.
Proof.
  unfold declarationHead, throwAt.
  destruct (currentToken this) as [first |]; [| discriminate].
  cbv zeta. intros H. f_equal.
  repeat match type of H with
         | match ?y with _ => _ end = _ =>
             let x := head_scrutinee y in destruct x; cbv beta iota zeta in H
         end;
    try discriminate H; injection H; intros; subst; reflexivity.
Qed.

(** ** The walk of the checker: the type ['nil'] *)

Lemma isTypeKeyword_not_nil (type : string) :
  isTypeKeyword type = true -> type <> "nil".
Proof. intros H ->. vm_compute in H. discriminate. Qed.

Lemma orAny_not_nil (s : string) : s <> "nil" -> TypeChecker.orAny s <> "nil".
Proof.
  unfold TypeChecker.orAny. destruct (TypeChecker.truthy s);
    [trivial | discriminate].
Qed.

Lemma inferNode_not_nil (table : gmap string string) (node : Node) :
  (forall name type, table !! name = Some type -> type <> "nil") ->
  TypeChecker.inferNode table node <> "nil".
Proof.
  intros Htable.
  induction node; cbn [TypeChecker.inferNode]; try discriminate.
  - repeat case_match; discriminate.
  - repeat case_match; discriminate.
  - case_match; [discriminate | apply orAny_not_nil; assumption].
  - repeat case_match; discriminate.
  - unfold TypeChecker.lookupOrAny.
    destruct (table !! name) as [type |] eqn:Hname; [| discriminate].
    apply orAny_not_nil. exact (Htable _ _ Hname).
Qed.

Lemma nilFree_pushError (d : TypeChecker.Diagnostic) (this : TypeChecker.TypeChecker) :
  nilFree this -> nilFree (TypeChecker.pushError d this).
Proof. trivial. Qed.

Lemma nilFree_addStatic (name : string) (this : TypeChecker.TypeChecker) :
  nilFree this -> nilFree (TypeChecker.addStatic name this).
Proof. trivial. Qed.

Lemma nilFree_addAssigned (name : string) (this : TypeChecker.TypeChecker) :
  nilFree this -> nilFree (TypeChecker.addAssigned name this).
Proof. trivial. Qed.

Lemma nilFree_setSymbol (name type : string) (this : TypeChecker.TypeChecker) :
  type <> "nil" -> nilFree this -> nilFree (TypeChecker.setSymbol name type this).
Proof.
  intros Htype [Htable Hcalls]. split; [| exact Hcalls].
  intros name' type'. cbn. rewrite lookup_insert.
  case_decide; [intros [= <-]; exact Htype | apply Htable].
Qed.

Lemma nilFree_call (expected : string) (node : Node) (this : TypeChecker.TypeChecker) :
  nilFree this ->
  nilFree
    (snd (TypeChecker.callIsCompatibleType expected
            (TypeChecker.inferType this (Some node)) this)).
Proof.
  intros [Htable Hcalls]. split; [exact Htable |].
  cbn. apply Forall_app. split; [exact Hcalls |].
  constructor; [| constructor]. cbn. apply inferNode_not_nil. exact Htable.
Qed.

Lemma checkField_nilFree (o : option Node) :
  option_all Node KeepsNilFree o ->
  match o with
  | Some child => declaresTypeKeywords child
  | None => true
  end = true ->
  forall (document : string) (this : TypeChecker.TypeChecker),
    nilFree this ->
    nilFree (TypeChecker.checkField TypeChecker.checkNode o document this).
Proof.
  intros [child Hchild |] Hok document this Hfree; cbn; [| exact Hfree].
  apply Hchild; assumption.
Qed.

Lemma forEach_nodes_nilFree (items : list Node) :
  list_all Node KeepsNilFree items ->
  forallb declaresTypeKeywords items = true ->
  forall (document : string) (this : TypeChecker.TypeChecker),
    nilFree this ->
    nilFree
      (TypeChecker.forEach (fun item => TypeChecker.checkNode item document)
         items this).
Proof.
  unfold TypeChecker.forEach.
  induction 1 as [| item Hitem items Hitems IH]; cbn;
    intros Hok document this Hfree; [exact Hfree |].
  apply andb_true_iff in Hok as [Hhead Htail].
  apply IH; [exact Htail |]. apply Hitem; assumption.
Qed.

Lemma forEach_fields_nilFree (items : list (option Node)) :
  list_all (option Node) (option_all Node KeepsNilFree) items ->
  forallb (fun o : option Node =>
             match o with
             | Some child => declaresTypeKeywords child
             | None => true
             end) items = true ->
  forall (document : string) (this : TypeChecker.TypeChecker),
    nilFree this ->
    nilFree
      (TypeChecker.forEach
         (fun item => TypeChecker.checkField TypeChecker.checkNode item document)
         items this).
Proof.
  unfold TypeChecker.forEach.
  induction 1 as [| item Hitem items Hitems IH]; cbn;
    intros Hok document this Hfree; [exact Hfree |].
  apply andb_true_iff in Hok as [Hhead Htail].
  apply IH; [exact Htail |]. apply checkField_nilFree; assumption.
Qed.

Lemma checkNode_nilFree (node : Node) : KeepsNilFree node.
Proof.
  induction node; intros Hok document this Hfree;
    cbn [declaresTypeKeywords] in Hok;
    repeat match goal with
           | H : _ && _ = true |- _ => apply andb_true_iff in H as [? ?]
           end;
    cbn [TypeChecker.checkNode TypeChecker.checkChildren].
  all: try solve
    [ unfold TypeChecker.checkIfStatement, TypeChecker.checkWhileStatement,
        TypeChecker.checkForStatement, TypeChecker.checkBinaryExpression,
        TypeChecker.checkCallExpression, TypeChecker.checkDoWhileStatement,
        TypeChecker.checkMatchStatement, TypeChecker.checkTryStatement,
        TypeChecker.checkRetryStatement, TypeChecker.checkChildren;
      cbn [TypeChecker.checkField];
      repeat first
        [ assumption
        | apply checkField_nilFree
        | apply forEach_nodes_nilFree
        | apply forEach_fields_nilFree
        | match goal with
          | IH : KeepsNilFree ?n |- nilFree (TypeChecker.checkNode ?n _ _) =>
              apply IH
          end ] ].
  - (* VariableDeclaration *)
    unfold TypeChecker.checkVariableDeclaration.
    destruct (TypeChecker.symbolTable this !! name); [exact Hfree |].
    assert (Hstatic : nilFree
              (if isStatic then TypeChecker.addStatic name this else this))
      by (destruct isStatic; assumption).
    destruct (TypeChecker.ifTruthy declaredType) as [type |] eqn:Htype.
    + assert (type <> "nil") as Hnil.
      { destruct declaredType as [declared |]; [| discriminate]. cbn in Htype.
        destruct (TypeChecker.truthy declared); [| discriminate].
        injection Htype as <-. apply isTypeKeyword_not_nil. assumption. }
      destruct init as [init |].
      * match goal with
        | |- nilFree (let '(_, _) := ?call in _) =>
            pose proof (nilFree_call type init _ Hstatic) as Hcall;
            destruct call as [compatible this']
        end.
        cbn [snd] in Hcall. destruct compatible; cbn [negb].
        -- apply nilFree_addAssigned, nilFree_setSymbol; assumption.
        -- exact Hcall.
      * apply nilFree_setSymbol; assumption.
    + apply checkField_nilFree; [assumption | assumption |].
      destruct (TypeChecker.truthy name); [| assumption].
      assert (nilFree
                (TypeChecker.setSymbol name "any"
                   (if isStatic then TypeChecker.addStatic name this else this)))
        by (apply nilFree_setSymbol; [discriminate | assumption]).
      destruct init; assumption.
  - (* AssignmentExpression *)
    unfold TypeChecker.checkAssignmentExpression.
    destruct node1; try exact Hfree.
    assert (Hcheck : forall this0 : TypeChecker.TypeChecker,
              nilFree this0 ->
              nilFree
                (TypeChecker.checkNode node2 document
                   match TypeChecker.symbolTable this0 !! name with
                   | Some declaredType =>
                       if TypeChecker.truthy declaredType
                          && (declaredType !== "any")
                       then
                         let '(compatible, this1) :=
                           TypeChecker.callIsCompatibleType declaredType
                             (TypeChecker.inferType this0 (Some node2)) this0 in
                         if negb compatible then
                           TypeChecker.pushError
                             (TypeChecker.error document (nodeStart node2)
                                (nodeEnd node2)
                                ("Type mismatch: expected " ++ declaredType
                                 ++ " but got "
                                 ++ TypeChecker.inferType this0 (Some node2)
                                 ++ " when assigning to '" ++ name ++ "'"))
                             this1
                         else this1
                       else this0
                   | None => this0
                   end)).
    { intros this0 Hfree0. apply IHnode2; [assumption |].
      destruct (TypeChecker.symbolTable this0 !! name) as [declared |];
        [| assumption].
      destruct (TypeChecker.truthy declared && (declared !== "any"));
        [| assumption].
      pose proof (nilFree_call declared node2 _ Hfree0) as Hcall.
      destruct (TypeChecker.callIsCompatibleType declared
                  (TypeChecker.inferType this0 (Some node2)) this0)
        as [compatible this1].
      cbn [snd] in Hcall. destruct compatible; exact Hcall. }
    destruct (bool_decide (name ∈ TypeChecker.staticVariables this));
      [destruct (bool_decide (name ∈ TypeChecker.assignedVariables this)) |];
      [exact Hfree | apply Hcheck; exact Hfree | apply Hcheck; exact Hfree].
  - (* CatchClause *)
    unfold TypeChecker.checkCatchClause.
    cbn [TypeChecker.checkField].
    assert (nilFree (TypeChecker.checkNode node document this))
      by (apply IHnode; assumption).
    destruct param as [param |]; [| assumption].
    destruct (TypeChecker.ifTruthy (TypeChecker.nodeName param)); [| assumption].
    apply IHnode; [assumption |].
    apply nilFree_setSymbol; [discriminate | assumption].
Qed.

(** ** The walk of the checker: diagnostics are only appended *)

Lemma checkField_appends (o : option Node) :
  option_all Node AppendsOnly o ->
  forall (document : string) (this : TypeChecker.TypeChecker),
    TypeChecker.errors this
    `prefix_of`
    TypeChecker.errors (TypeChecker.checkField TypeChecker.checkNode o document this).
Proof. intros [child Hchild |] document this; cbn; [apply Hchild | reflexivity]. Qed.

Lemma forEach_nodes_appends (items : list Node) :
  list_all Node AppendsOnly items ->
  forall (document : string) (this : TypeChecker.TypeChecker),
    TypeChecker.errors this
    `prefix_of`
    TypeChecker.errors
      (TypeChecker.forEach (fun item => TypeChecker.checkNode item document)
         items this).
Proof.
  unfold TypeChecker.forEach.
  induction 1 as [| item Hitem items Hitems IH]; cbn; intros document this;
    [reflexivity |].
  etrans; [apply Hitem | apply IH].
Qed.

Lemma forEach_fields_appends (items : list (option Node)) :
  list_all (option Node) (option_all Node AppendsOnly) items ->
  forall (document : string) (this : TypeChecker.TypeChecker),
    TypeChecker.errors this
    `prefix_of`
    TypeChecker.errors
      (TypeChecker.forEach
         (fun item => TypeChecker.checkField TypeChecker.checkNode item document)
         items this).
Proof.
  unfold TypeChecker.forEach.
  induction 1 as [| item Hitem items Hitems IH]; cbn; intros document this;
    [reflexivity |].
  etrans; [apply checkField_appends; exact Hitem | apply IH].
Qed.

Lemma pushError_appends (d : TypeChecker.Diagnostic) (this : TypeChecker.TypeChecker) :
  TypeChecker.errors this
  `prefix_of` TypeChecker.errors (TypeChecker.pushError d this).
Proof. cbn. apply prefix_app_r. reflexivity. Qed.

(** Chains of walks: each link is closed by an induction hypothesis or by
    one of the lemmas above. *)
Ltac appends :=
  repeat first
    [ reflexivity
    | apply pushError_appends
    | match goal with
      | IH : AppendsOnly ?n
        |- _ `prefix_of` TypeChecker.errors (TypeChecker.checkNode ?n _ ?s) =>
          etrans; [| apply IH]
      | H : option_all Node _ ?o
        |- _ `prefix_of`
           TypeChecker.errors (TypeChecker.checkField _ ?o _ ?s) =>
          etrans; [| apply checkField_appends; exact H]
      | H : list_all Node _ ?l
        |- _ `prefix_of`
           TypeChecker.errors (TypeChecker.forEach _ ?l ?s) =>
          etrans; [| apply forEach_nodes_appends; exact H]
      | H : list_all (option Node) _ ?l
        |- _ `prefix_of`
           TypeChecker.errors (TypeChecker.forEach _ ?l ?s) =>
          etrans; [| apply forEach_fields_appends; exact H]
      end ].

Lemma checkNode_appends (node : Node) : AppendsOnly node.
Proof.
  induction node; intros document this;
    cbn [TypeChecker.checkNode TypeChecker.checkChildren];
    unfold TypeChecker.checkIfStatement, TypeChecker.checkWhileStatement,
      TypeChecker.checkForStatement, TypeChecker.checkBinaryExpression,
      TypeChecker.checkCallExpression, TypeChecker.checkDoWhileStatement,
      TypeChecker.checkMatchStatement, TypeChecker.checkTryStatement,
      TypeChecker.checkRetryStatement, TypeChecker.checkChildren;
    cbn [TypeChecker.checkField];
    try solve [appends].
  - (* VariableDeclaration *)
    unfold TypeChecker.checkVariableDeclaration, TypeChecker.callIsCompatibleType.
    destruct (TypeChecker.symbolTable this !! name); [apply pushError_appends |].
    destruct (TypeChecker.ifTruthy declaredType).
    + destruct init; [destruct (negb _) |]; destruct isStatic; cbn;
        try reflexivity; apply prefix_app_r; reflexivity.
    + etrans; [| apply checkField_appends; assumption].
      destruct (TypeChecker.truthy name), init, isStatic; reflexivity.
  - (* AssignmentExpression *)
    unfold TypeChecker.checkAssignmentExpression, TypeChecker.callIsCompatibleType.
    destruct node1; try reflexivity.
    repeat case_match; subst; try apply pushError_appends;
      (etrans; [| apply IHnode2]); cbn; try reflexivity;
      apply prefix_app_r; reflexivity.
  - (* CatchClause *)
    unfold TypeChecker.checkCatchClause. cbn [TypeChecker.checkField].
    repeat case_match; try apply IHnode.
    etrans; [apply (IHnode document this) |]. etrans; [| apply IHnode].
    cbn. reflexivity.
Qed.

Lemma errors_diagnosticsOf (node : Node) (document : string)
    (this : TypeChecker.TypeChecker) :
  TypeChecker.errors (TypeChecker.checkNode node document this)
  = (TypeChecker.errors this ++ diagnosticsOf node document this)%list.
Proof.
  unfold diagnosticsOf.
  destruct (checkNode_appends node document this) as [added ->].
  rewrite drop_app_length. reflexivity.
Qed.

(** * Properties *)

(** ** Spans of nodes *)

(** C1 (fails on the code). [return;] parses without any syntax error,
    whatever the fuel from 10 on, yet the [ReturnStatement] node ends at
    offset 12 in a text of 7 characters: with no argument, [end] is
    [startToken.end + 6], the end of the keyword counted twice. *)
Theorem return_statement_end_exceeds_text :
  exists this' : Parser,
    (forall fuel : nat,
       parse (10 + fuel) "return;" constructor =
       Normal {| body := [ReturnStatement None (num 0) (num 12)];
                 errorsField := true |} this')
    /\ errors this' = []
    /\ String.length "return;" = 7
    /\ ~ withinText "return;" (ReturnStatement None (num 0) (num 12)).
Proof.
  eexists. split.
  { intros fuel.
    rewrite (parse_stable 10 (10 + fuel) "return;" constructor);
      [vm_compute; reflexivity | lia | vm_compute; discriminate]. }
  split; [reflexivity |]. split; [reflexivity |].
  intros (start & end_ & _ & [= <-] & _ & Hend). cbn in Hend. lia.
Qed.

(** ** Malformed function and class declarations *)

(** C2 (amended). An exception thrown while a function or a class
    declaration is parsed does not leave [parse]: [parseStatement], whose
    dispatch is inside [try], catches it, records it as a [ParseError]
    spanning the leading [fun] or [class] token, resynchronises with
    [skipToNextStatement] and returns [null].  [parse] itself throws only
    what [tokenize] throws. *)
Theorem declaration_errors_are_caught :
  (forall (fuel : nat) (this : Parser) (token : Token)
          (e : Exception) (this' : Parser),
      currentToken this = Some token ->
      (tvalue token = "fun" /\ parseFunctionDeclaration fuel this = Throw e this')
      \/ (tvalue token = "class"
          /\ parseClassDeclaration fuel this = Throw e this') ->
      parseStatement (S fuel) this =
      Normal None
        (skipToNextStatement
           (addError (message e) (ofNat (tstart token)) (ofNat (tend token)) this')))
  /\ (forall (fuel : nat) (text : string) (this : Parser)
             (e : Exception) (this' : Parser),
         parse fuel text this = Throw e this' ->
         tokenize text this = Throw e this').
Proof.
  split; [| exact parse_throws_only_from_tokenize].
  intros fuel this token e this' Hcur Hthrow.
  cbn [parseStatement]. rewrite Hcur. cbv zeta.
  destruct Hthrow as [[-> ->] | [-> ->]]; reflexivity.
Qed.

Lemma declaration_errors_are_caught_witness :
  let this :=
    {| input := Some "fun ("; position := 0; errors := [];
       tokens := [mkToken KEYWORD "fun" 0 3; mkToken SYMBOL "(" 4 5] |} in
  parseStatement 2 this =
  Normal None
    {| input := Some "fun ("; position := 2;
       errors := [mkParseError "Expected function name after 'fun' at position 4"
                    (num 0) (num 3)];
       tokens := [mkToken KEYWORD "fun" 0 3; mkToken SYMBOL "(" 4 5] |}.
Proof.
  cbv zeta.
  rewrite (proj1 declaration_errors_are_caught 1 _ (mkToken KEYWORD "fun" 0 3)
             (Error "Expected function name after 'fun' at position 4")
             {| input := Some "fun ("; position := 1; errors := [];
                tokens := [mkToken KEYWORD "fun" 0 3; mkToken SYMBOL "(" 4 5] |}).
  - vm_compute. reflexivity.
  - vm_compute. reflexivity.
  - left. split; vm_compute; reflexivity.
Defined.

(** C2 as stated fails: the declaration [fun (] has no name, and [parse]
    returns a program, with the error recorded, instead of throwing. *)
Lemma malformed_function_does_not_abort_parse :
  (exists this' : Parser,
      parse 30 "fun (" constructor
      = Normal {| body := []; errorsField := true |} this'
      /\ errors this'
         = [mkParseError "Expected function name after 'fun' at position 4"
              (num 0) (num 3)])
  /\ (forall (fuel : nat) (e : Exception) (this' : Parser),
         parse fuel "fun (" constructor <> Throw e this').
Proof.
  split.
  - eexists. split; vm_compute; reflexivity.
  - intros fuel e this' Hthrow.
    apply parse_throws_only_from_tokenize in Hthrow. vm_compute in Hthrow.
    discriminate.
Qed.

(** ** Termination *)

(** C3 (fails on the code). [parse] does not terminate on [}]: no amount
    of fuel lets it return.  The same holds for [{], and for a block
    inside a block, as in [while (x) { { } }]. *)
Theorem parse_diverges_on_stray_brace :
  (forall fuel : nat, parse fuel "}" constructor = Diverge)
  /\ (forall fuel : nat, parse fuel "{" constructor = Diverge)
  /\ (forall fuel : nat, parse fuel "while (x) { { } }" constructor = Diverge).
Proof.
  split; [| split; [| exact parse_diverges_on_nested_block]];
    intros fuel; unfold parse.
  - change (isBlank "}") with false. cbv iota.
    change (tokenize "}" constructor)
      with (Normal (S := Parser) [mkToken SYMBOL "}" 0 1]
              {| input := Some "}"; tokens := []; position := 0; errors := [] |}).
    cbv beta iota.
    rewrite parseLoop_brace with (token := mkToken SYMBOL "}" 0 1);
      [reflexivity | reflexivity | left; reflexivity | discriminate].
  - change (isBlank "{") with false. cbv iota.
    change (tokenize "{" constructor)
      with (Normal (S := Parser) [mkToken SYMBOL "{" 0 1]
              {| input := Some "{"; tokens := []; position := 0; errors := [] |}).
    cbv beta iota.
    rewrite parseLoop_brace with (token := mkToken SYMBOL "{" 0 1);
      [reflexivity | reflexivity | right; reflexivity | discriminate].
Qed.

(** ** Static variables *)

(** C4. In a state where [name] is both in [staticVariables] and in
    [assignedVariables], walking an assignment to [name] appends exactly
    one diagnostic, from the start of the target to the end of the
    right-hand side, and changes nothing else.  Checking
    [static var x = 10; x = 20;] yields that one diagnostic, over the
    offsets 19 to 25 of the text, the assignment [x = 20]. *)
Theorem static_reassignment_is_reported :
  (forall (this : TypeChecker.TypeChecker) (operator name : string)
          (rhs : Node) (start end_ start' end' : Num) (document : string),
      name ∈ TypeChecker.staticVariables this ->
      name ∈ TypeChecker.assignedVariables this ->
      TypeChecker.checkNode
        (AssignmentExpression operator (Identifier name start end_) rhs start' end')
        document this
      = TypeChecker.pushError
          (TypeChecker.error document start (nodeEnd rhs)
             ("Cannot reassign static variable '" ++ name
              ++ "' - it has already been assigned"))
          this)
  /\ diagnose 100 "static var x = 10; x = 20;"
     = Some
         [ TypeChecker.mkDiagnostic 1
             (TypeChecker.mkPosition 0 19, TypeChecker.mkPosition 0 25)
             "Cannot reassign static variable 'x' - it has already been assigned" ].
Proof.
  split; [| vm_compute; reflexivity].
  intros this operator name rhs start end_ start' end' document Hstatic Hassigned.
  cbn [TypeChecker.checkNode]. unfold TypeChecker.checkAssignmentExpression.
  rewrite !bool_decide_eq_true_2 by assumption. reflexivity.
Qed.

Lemma static_reassignment_is_reported_witness :
  let this :=
    TypeChecker.addAssigned "x"
      (TypeChecker.addStatic "x" TypeChecker.constructor) in
  TypeChecker.errors
    (TypeChecker.checkNode
       (AssignmentExpression "=" (Identifier "x" (num 19) (num 20))
          (Literal (VNumber (JsNumber.ofString "20")) "20" (num 23) (num 25))
          (num 19) (num 26))
       "static var x = 10; x = 20;" this)
  = [ TypeChecker.mkDiagnostic 1
        (TypeChecker.mkPosition 0 19, TypeChecker.mkPosition 0 25)
        "Cannot reassign static variable 'x' - it has already been assigned" ].
Proof.
  cbv zeta.
  rewrite (proj1 static_reassignment_is_reported).
  - vm_compute. reflexivity.
  - apply (bool_decide_unpack _). vm_compute. exact I.
  - apply (bool_decide_unpack _). vm_compute. exact I.
Defined.

(** ** A variable declaration without its semicolon *)

(** C5. A variable declaration whose name and initializer are followed by
    anything but a semicolon does not throw: [parseVariableDeclaration]
    returns the declaration node and records exactly one [ParseError],
    from the [end] of the node to the end of the source line that holds
    that offset; the cursor stays on the token after the declaration, and
    [parseStatement] hands the node to the statement loop, which goes on
    with that token.  ([end] of such a node is the end of the declared
    name.)  As an instance, [var x = 5], a line break and [var y = 6;]
    give two declarations and the single error from 5 to 9. *)
Theorem missing_semicolon_is_recorded :
  (forall (fuel : nat) (this after : Parser) (text : string)
          (startToken nameToken : Token) (isStatic : bool)
          (declaredType : option string) (init : option Node),
      input this = Some text ->
      tend nameToken <= String.length text ->
      declarationHead fuel this
      = Normal (startToken, isStatic, declaredType, nameToken, init) after ->
      curIs after ";" = false ->
      exists lineEnd : nat,
        let node :=
          VariableDeclaration declaredType (tvalue nameToken) init isStatic
            (ofNat (tstart startToken)) (ofNat (tend nameToken)) in
        let this' :=
          {| input := input this; tokens := tokens this;
             position := position after;
             errors :=
               errors this
               ++ [mkParseError "Missing semicolon at end of variable declaration"
                     (nodeEnd node) (ofNat lineEnd)] |} in
        isEndOfLine text (tend nameToken) lineEnd
        /\ parseVariableDeclaration fuel this = Normal node this'
        /\ (tvalue startToken = "var" \/ tvalue startToken = "static" ->
            parseStatement (S fuel) this = Normal (Some node) this'))
  /\ (exists this' : Parser,
         parse 30 ("var x = 5" ++ String "010" "var y = 6;") constructor
         = Normal
             {| body :=
                  [ VariableDeclaration None "x"
                      (Some (Literal (VNumber (JsNumber.ofString "5")) "5"
                               (num 8) (num 9)))
                      false (num 0) (num 5);
                    VariableDeclaration None "y"
                      (Some (Literal (VNumber (JsNumber.ofString "6")) "6"
                               (num 18) (num 19)))
                      false (num 10) (num 16) ];
                errorsField := true |} this'
         /\ errors this'
            = [mkParseError "Missing semicolon at end of variable declaration"
                 (num 5) (num 9)]).
Proof.
  split; [| eexists; split; vm_compute; reflexivity].
  intros fuel this after text startToken nameToken isStatic declaredType init
    Hinput Hname Hhead Hsemi.
  pose proof (declarationHead_moves_cursor_only fuel this) as Hframe.
  rewrite Hhead in Hframe. destruct Hframe as (Hi & Ht & He).
  exists (findEndOfLineFrom text (String.length text - tend nameToken)
            (tend nameToken)).
  cbv zeta.
  assert (Hdecl :
    parseVariableDeclaration fuel this =
    Normal
      (VariableDeclaration declaredType (tvalue nameToken) init isStatic
         (ofNat (tstart startToken)) (ofNat (tend nameToken)))
      {| input := input this; tokens := tokens this; position := position after;
         errors :=
           errors this
           ++ [mkParseError "Missing semicolon at end of variable declaration"
                 (ofNat (tend nameToken))
                 (ofNat (findEndOfLineFrom text
                           (String.length text - tend nameToken)
                           (tend nameToken)))] |}).
  { rewrite parseVariableDeclaration_head, Hhead, Hsemi.
    unfold findEndOfLine, addError. rewrite <- Hi, Hinput. cbv beta iota.
    rewrite <- ?Hi, <- ?Ht, <- ?He, ?Hinput. reflexivity. }
  split; [apply findEndOfLineFrom_spec; lia |].
  split; [exact Hdecl |].
  intros Hvar. cbn [parseStatement].
  rewrite (declarationHead_start _ _ _ _ _ _ _ _ Hhead). cbv zeta.
  assert ((tvalue startToken === "static") || (tvalue startToken === "var") = true)
    as -> by (destruct Hvar as [-> | ->]; reflexivity).
  rewrite Hdecl. reflexivity.
Qed.

Lemma missing_semicolon_is_recorded_witness :
  let tokens :=
    [ mkToken KEYWORD "var" 0 3; mkToken IDENTIFIER "x" 4 5;
      mkToken SYMBOL "=" 6 7; mkToken NUMBER "5" 8 9 ] in
  let this :=
    {| input := Some "var x = 5"; tokens := tokens; position := 0; errors := [] |} in
  exists lineEnd : nat,
    isEndOfLine "var x = 5" 5 lineEnd
    /\ parseVariableDeclaration 20 this
       = Normal
           (VariableDeclaration None "x"
              (Some (Literal (VNumber (JsNumber.ofString "5")) "5" (num 8) (num 9)))
              false (num 0) (num 5))
           {| input := Some "var x = 5"; tokens := tokens; position := 4;
              errors :=
                [mkParseError "Missing semicolon at end of variable declaration"
                   (num 5) (ofNat lineEnd)] |}.
Proof.
  cbv zeta.
  destruct (proj1 missing_semicolon_is_recorded 20
              {| input := Some "var x = 5"; position := 0; errors := [];
                 tokens :=
                   [ mkToken KEYWORD "var" 0 3; mkToken IDENTIFIER "x" 4 5;
                     mkToken SYMBOL "=" 6 7; mkToken NUMBER "5" 8 9 ] |}
              {| input := Some "var x = 5"; position := 4; errors := [];
                 tokens :=
                   [ mkToken KEYWORD "var" 0 3; mkToken IDENTIFIER "x" 4 5;
                     mkToken SYMBOL "=" 6 7; mkToken NUMBER "5" 8 9 ] |}
              "var x = 5"
              (mkToken KEYWORD "var" 0 3) (mkToken IDENTIFIER "x" 4 5) false None
              (Some (Literal (VNumber (JsNumber.ofString "5")) "5" (num 8) (num 9))))
    as (lineEnd & Hline & Hdecl & _).
  - reflexivity.
  - vm_compute. lia.
  - vm_compute. reflexivity.
  - vm_compute. reflexivity.
  - exists lineEnd. split; [exact Hline | exact Hdecl].
Defined.

(** ** Compatibility of types *)

(** C6. [isCompatibleType(expected, actual)] is true exactly when the two
    are equal, or one of them is ['any'], or [expected] is ['float'] and
    [actual] is ['int'], or [actual] is ['nil']; and checking
    [var float y = 1; y = 2;] produces no diagnostic. *)
Theorem isCompatibleType_exactly :
  (forall expected actual : string,
      TypeChecker.isCompatibleType expected actual = true <->
      (expected = actual \/ expected = "any" \/ actual = "any"
       \/ (expected = "float" /\ actual = "int") \/ actual = "nil"))
  /\ diagnose 100 "var float y = 1; y = 2;" = Some [].
Proof.
  split; [| vm_compute; reflexivity].
  intros expected actual. unfold TypeChecker.isCompatibleType.
  repeat match goal with
         | |- context [String.eqb ?a ?b] =>
             destruct (String.eqb_spec a b); subst; cbn
         end;
    intuition (try congruence; try discriminate).
Qed.

(** ** The branch for ['nil'] in [isCompatibleType] *)

(** C7. [inferType] never returns ['nil'] as long as no variable is
    recorded with that type, and a [nil] literal infers as ['any'].  In a
    run of [check] on a tree whose annotations are type keywords, and so
    on every tree returned by [parse], no variable is ever recorded with
    the type ['nil'] and every call of [isCompatibleType] has an [actual]
    argument other than ['nil']: the branch
    [if (actual === 'nil') return true] is never the one that decides. *)
Theorem nil_is_never_inferred :
  (forall (this : TypeChecker.TypeChecker) (node : option Node),
      nilFree this -> TypeChecker.inferType this node <> "nil")
  /\ (forall (this : TypeChecker.TypeChecker) (raw : string) (start end_ : Num),
         TypeChecker.inferType this (Some (Literal VNull raw start end_)) = "any")
  /\ (forall (ast : Program) (document : string)
             (errors : list TypeChecker.Diagnostic)
             (this : TypeChecker.TypeChecker),
         forallb declaresTypeKeywords (body ast) = true ->
         nilFree (TypeChecker.check ast document errors this))
  /\ (forall (fuel : nat) (text : string) (parser parser' : Parser)
             (ast : Program) (document : string)
             (errors : list TypeChecker.Diagnostic)
             (this : TypeChecker.TypeChecker),
         parse fuel text parser = Normal ast parser' ->
         let this' := TypeChecker.check ast document errors this in
         (forall name type,
             TypeChecker.symbolTable this' !! name = Some type -> type <> "nil")
         /\ Forall (fun call : string * string => snd call <> "nil")
              (TypeChecker.compatCalls this')).
Proof.
  assert (Hcheck :
    forall (ast : Program) (document : string)
           (errors : list TypeChecker.Diagnostic) (this : TypeChecker.TypeChecker),
      forallb declaresTypeKeywords (body ast) = true ->
      nilFree (TypeChecker.check ast document errors this)).
  { intros ast document errors this Hok. unfold TypeChecker.check.
    apply forEach_nodes_nilFree.
    - apply list_all_forall. exact checkNode_nilFree.
    - exact Hok.
    - split; [intros name type; cbn; rewrite lookup_empty; discriminate |].
      constructor. }
  split; [| split; [| split]].
  - intros this [node |] [Htable _]; [| discriminate].
    apply inferNode_not_nil. exact Htable.
  - reflexivity.
  - exact Hcheck.
  - intros fuel text parser parser' ast document errors this Hparse. cbv zeta.
    apply Hcheck.
    pose proof (parse_yields_type_keywords fuel text parser) as Hyield.
    rewrite Hparse in Hyield. exact Hyield.
Qed.

Lemma nil_is_never_inferred_witness :
  exists (ast : Program) (parser' : Parser),
    parse 30 "var int x = nil; x = 'a';" constructor = Normal ast parser'
    /\ TypeChecker.compatCalls
         (TypeChecker.check ast "var int x = nil; x = 'a';" []
            TypeChecker.constructor)
       = [("int", "any"); ("int", "string")]
    /\ Forall (fun call : string * string => snd call <> "nil")
         (TypeChecker.compatCalls
            (TypeChecker.check ast "var int x = nil; x = 'a';" []
               TypeChecker.constructor)).
Proof.
  do 2 eexists. split; [vm_compute; reflexivity |].
  split; [vm_compute; reflexivity |].
  eapply (proj2 (proj2 (proj2 nil_is_never_inferred)) 30
            "var int x = nil; x = 'a';" constructor).
  vm_compute. reflexivity.
Defined.

(** ** An unterminated string *)

(** C8. When the lexer arrives at an opening quote at offset [start] and
    the scan for the matching quote runs off the end of the text, [parse]
    throws [Error("Unterminated string at position <start>")], whatever
    the fuel and the parser it is called on: nothing is returned, and of
    the parser only [input] has changed (no token is stored, no error is
    recorded, no statement is parsed). *)
Theorem unterminated_string_aborts_parse
    (text : string) (turns start : nat) (quote : ascii) (pushed : list Token) :
  lexerState text turns = Some (start, pushed) ->
  charAt text start = Some quote ->
  quote = "034"%char \/ quote = "'"%char ->
  String.length text <= scanString quote text (String.length text) (start + 1) ->
  forall (fuel : nat) (this : Parser),
    parse fuel text this =
    Throw (Error ("Unterminated string at position " ++ toString start))
      {| input := Some text; tokens := tokens this;
         position := position this; errors := errors this |}.
Proof.
  intros Hstate Hquote Hq Hscan fuel this.
  destruct (lexerState_loop _ _ _ _ Hstate) as [Hle Hloop].
  pose proof (charAt_lt _ _ _ Hquote) as Hlt.
  assert (Hstep : tokenizeStep text start quote pushed = inl (unterminated start)).
  { unfold tokenizeStep.
    apply Nat.leb_le in Hscan. destruct Hq as [-> | ->]; cbn; rewrite Hscan;
      reflexivity. }
  assert (Htok : tokenizeLoop text (String.length text) 0 []
                 = Some (inl (unterminated start))).
  { replace (String.length text)
      with (turns + S (String.length text - turns - 1)) by lia.
    rewrite Hloop. cbn [tokenizeLoop]. rewrite Hquote, Hstep. reflexivity. }
  unfold parse.
  destruct (isBlank text) eqn:Hblank.
  - pose proof (isBlank_charAt _ _ _ Hblank Hquote) as Hspace.
    destruct Hq as [-> | ->]; discriminate.
  - unfold tokenize. rewrite Htok. reflexivity.
Qed.

Lemma unterminated_string_aborts_parse_witness :
  parse 5 "x = 'abc" constructor =
  Throw (Error "Unterminated string at position 4")
    {| input := Some "x = 'abc"; tokens := []; position := 0; errors := [] |}.
Proof.
  apply (unterminated_string_aborts_parse "x = 'abc" 4 4 "'"
           [mkToken IDENTIFIER "x" 0 1; mkToken SYMBOL "=" 2 3]).
  - vm_compute. reflexivity.
  - vm_compute. reflexivity.
  - right. reflexivity.
  - vm_compute. lia.
Defined.

(** ** State kept between two calls of [parse] *)

(** C9 (fails on the code). Two calls of [parse] on the same parser with
    the same text [var x = 5], with any fuel from 30 on: the statements
    are the same, but the errors
    of the first call are still in [this.errors] when the second call
    starts, so the second result holds the error twice.  The first result
    shares the array, and shows two errors as well once the second call
    has run. *)
Theorem second_parse_keeps_errors_of_first :
  let text := "var x = 5" in
  let e := mkParseError "Missing semicolon at end of variable declaration"
             (num 5) (num 9) in
  exists (first second : Program) (this1 this2 : Parser),
    (forall fuel : nat, parse (30 + fuel) text constructor = Normal first this1)
    /\ (forall fuel : nat, parse (30 + fuel) text this1 = Normal second this2)
    /\ body first = body second
    /\ readErrors this1 first = Some [e]
    /\ errors this1 = [e]
    /\ readErrors this2 second = Some [e; e]
    /\ readErrors this2 first = Some [e; e].
Proof.
  cbv zeta. do 4 eexists.
  split.
  { intros fuel.
    rewrite (parse_stable 30 (30 + fuel) "var x = 5" constructor);
      [vm_compute; reflexivity | lia | vm_compute; discriminate]. }
  split.
  { intros fuel.
    rewrite (parse_stable 30 (30 + fuel) "var x = 5");
      [vm_compute; reflexivity | lia | vm_compute; discriminate]. }
  repeat split.
Qed.

(** ** The body of a catch clause *)

(** C10 (amended). The body of a catch clause that has a parameter is
    walked twice: once in the state in which the clause is reached, and
    once more in the state the first walk has left, after the parameter
    has been recorded with the type ['any'].  The diagnostics of the first
    walk and then those of the second are appended; the second walk starts
    from another state and need not repeat the first.  A [try] statement
    walks its block, then the clause, then its [finally] clause. *)
Theorem catch_body_is_walked_twice :
  forall (name : string) (pstart pend : Num) (body : Node) (start end_ : Num)
         (document : string) (this : TypeChecker.TypeChecker),
    name <> "" ->
    let clause := CatchClause (Some (Identifier name pstart pend)) body start end_ in
    let first := TypeChecker.checkNode body document this in
    let registered := TypeChecker.setSymbol name "any" first in
    TypeChecker.checkNode clause document this
    = TypeChecker.checkNode body document registered
    /\ TypeChecker.errors (TypeChecker.checkNode clause document this)
       = (TypeChecker.errors this
          ++ diagnosticsOf body document this
          ++ diagnosticsOf body document registered)%list
    /\ (forall (block : Node) (finalizer : option Node) (start' end' : Num),
           TypeChecker.checkNode
             (TryStatement block [clause] finalizer start' end') document this
           = TypeChecker.checkField TypeChecker.checkNode finalizer document
               (TypeChecker.checkNode clause document
                  (TypeChecker.checkNode block document this))).
Proof.
  intros name pstart pend body start end_ document this Hname. cbv zeta.
  assert (Hwalk :
    TypeChecker.checkNode
      (CatchClause (Some (Identifier name pstart pend)) body start end_)
      document this
    = TypeChecker.checkNode body document
        (TypeChecker.setSymbol name "any"
           (TypeChecker.checkNode body document this))).
  { cbn [TypeChecker.checkNode]. unfold TypeChecker.checkCatchClause.
    cbn [TypeChecker.checkField TypeChecker.nodeName TypeChecker.ifTruthy].
    unfold TypeChecker.truthy.
    destruct (String.eqb_spec name "") as [-> | _]; [congruence | reflexivity]. }
  split; [exact Hwalk |]. split; [| reflexivity].
  rewrite Hwalk, errors_diagnosticsOf. cbn [TypeChecker.errors TypeChecker.setSymbol].
  rewrite errors_diagnosticsOf, <- app_assoc. reflexivity.
Qed.

Lemma catch_body_is_walked_twice_witness :
  let body :=
    BlockStatement
      [Some (AssignmentExpression "=" (Identifier "e" (num 35) (num 36))
               (Literal (VString "'s'") "'s'" (num 39) (num 42))
               (num 35) (num 44))] in
  let this := TypeChecker.setSymbol "e" "int" TypeChecker.constructor in
  TypeChecker.errors
    (TypeChecker.checkNode
       (CatchClause (Some (Identifier "f" (num 30) (num 31))) body (num 23) undefined)
       "" this)
  = (TypeChecker.errors this
     ++ diagnosticsOf body "" this
     ++ diagnosticsOf body ""
          (TypeChecker.setSymbol "f" "any" (TypeChecker.checkNode body "" this)))%list.
Proof.
  cbv zeta.
  apply (catch_body_is_walked_twice "f" (num 30) (num 31)). discriminate.
Defined.

(** C10 as stated fails: in
    [var int e = 1; try { } catch (e) { e = 's'; }] the body of the clause
    raises a type mismatch when it is walked from the state in which the
    clause is reached, and that diagnostic is appended once, not twice:
    the second walk finds [e] recorded as ['any']. *)
Lemma catch_body_diagnostic_appended_once :
  let text := "var int e = 1; try { } catch (e) { e = 's'; }" in
  let body :=
    BlockStatement
      [Some (AssignmentExpression "=" (Identifier "e" (num 35) (num 36))
               (Literal (VString "'s'") "'s'" (num 39) (num 42))
               (num 35) (num 44))] in
  let clause :=
    CatchClause (Some (Identifier "e" (num 30) (num 31))) body (num 23) undefined in
  let declaration :=
    VariableDeclaration (Some "int") "e"
      (Some (Literal (VNumber (JsNumber.ofString "1")) "1" (num 12) (num 13)))
      false (num 0) (num 15) in
  let d :=
    TypeChecker.mkDiagnostic 1
      (TypeChecker.mkPosition 0 39, TypeChecker.mkPosition 0 42)
      "Type mismatch: expected int but got string when assigning to 'e'" in
  let reached :=
    TypeChecker.checkNode declaration text
      (TypeChecker.check {| body := []; errorsField := true |} text []
         TypeChecker.constructor) in
  (exists this' : Parser,
      parse 100 text constructor
      = Normal
          {| body :=
               [declaration;
                TryStatement (BlockStatement []) [clause] None (num 15) (num 18)];
             errorsField := true |} this')
  /\ diagnosticsOf body text reached = [d]
  /\ diagnosticsOf clause text reached = [d]
  /\ diagnose 100 text = Some [d].
Proof.
  cbv zeta. split; [eexists; vm_compute; reflexivity |].
  repeat split; vm_compute; reflexivity.
Qed.

(** * Further properties *)

(** ** The tokens of the lexer *)

Lemma substring_zero (text : string) (i : nat) : String.substring i 0 text = "".
Proof.
  revert i. induction text as [| c text IH]; intros [| i]; cbn; auto.
Qed.

Lemma substring_first (text : string) (i m : nat) (c : ascii) :
  charAt text i = Some c ->
  String.substring i (S m) text = String c (String.substring (S i) m text).
Proof.
  unfold charAt. revert i.
  induction text as [| d text IH]; intros [| i]; cbn; try discriminate.
  - intros [= ->]. reflexivity.
  - intros Hc. rewrite (IH i Hc). reflexivity.
Qed.

Lemma slice_first (text : string) (i j : nat) (c : ascii) :
  charAt text i = Some c -> i < j ->
  slice text i j = String c (slice text (S i) j).
Proof.
  intros Hc Hlt. unfold slice.
  replace (j - i) with (S (j - S i)) by lia. apply substring_first. exact Hc.
Qed.

Lemma slice_empty (text : string) (i : nat) : slice text i i = "".
Proof. unfold slice. rewrite Nat.sub_diag. apply substring_zero. Qed.

Lemma slice_one (text : string) (i : nat) (c : ascii) :
  charAt text i = Some c -> slice text i (i + 1) = String c "".
Proof.
  intros Hc. rewrite (slice_first _ _ _ _ Hc) by lia.
  replace (i + 1) with (S i) by lia. rewrite slice_empty. reflexivity.
Qed.

Lemma slice_two (text : string) (i : nat) (c d : ascii) :
  charAt text i = Some c -> charAt text (i + 1) = Some d ->
  slice text i (i + 2) = String c (String d "").
Proof.
  intros Hc Hd. rewrite (slice_first _ _ _ _ Hc) by lia.
  replace (S i) with (i + 1) by lia.
  rewrite (slice_first _ _ _ _ Hd) by lia.
  replace (S (i + 1)) with (i + 2) by lia. rewrite slice_empty. reflexivity.
Qed.

Lemma isAt_charAt (text : string) (i : nat) (c : ascii) :
  isAt text i c = true -> charAt text i = Some c.
Proof.
  unfold isAt. destruct (charAt text i) as [d |]; [| discriminate].
  intros H. apply Ascii.eqb_eq in H. congruence.
Qed.

Lemma scanWhile_le (p : ascii -> bool) (text : string) (fuel current : nat) :
  current <= String.length text ->
  scanWhile p text fuel current <= String.length text.
Proof.
  revert current. induction fuel as [| fuel IH]; intros current Hle; cbn; [lia |].
  destruct (charAt text current) as [c |] eqn:Hc; [| lia].
  destruct (p c); [| lia]. apply IH. apply charAt_lt in Hc. lia.
Qed.

Lemma scanString_stop (quote : ascii) (text : string) (fuel current : nat) :
  String.length text <= current + fuel ->
  scanString quote text fuel current < String.length text ->
  charAt text (scanString quote text fuel current) = Some quote.
Proof.
  revert current. induction fuel as [| fuel IH]; intros current Hfuel; cbn.
  - lia.
  - destruct (charAt text current) as [c |] eqn:Hc.
    + destruct (Ascii.eqb_spec c quote) as [-> | Hne]; [intros _; exact Hc |].
      destruct (Ascii.eqb c "\"); apply IH; lia.
    + apply charAt_ge in Hc. lia.
Qed.

Lemma isKeyword_first (c : ascii) (rest : string) :
  isKeyword (String c rest) = true ->
  inRange "a" "z" c = true /\ rest <> "".
Proof.
  unfold isKeyword, includes. intros H. apply existsb_exists in H as (k & Hin & Heq).
  apply String.eqb_eq in Heq. subst k.
  cbn in Hin.
  repeat (destruct Hin as [[= <- <-] | Hin]; [split; [reflexivity | discriminate] |]).
  destruct Hin.
Qed.

Lemma isDigit_not_letter (c : ascii) :
  isDigit c = true -> inRange "a" "z" c = false.
Proof.
  destruct c as [[] [] [] [] [] [] [] []]; vm_compute; congruence.
Qed.

Lemma tokenizeStep_lexed (text : string) (current : nat) (char : ascii)
    (tokens : list Token) (current' : nat) (tokens' : list Token) :
  charAt text current = Some char ->
  tokenizeStep text current char tokens = inr (current', tokens') ->
  tokens' = tokens
  \/ exists token : Token,
       tokens' = (tokens ++ [token])%list
       /\ tstart token = current /\ tend token = current'
       /\ lexed text token.
Proof.
  intros Hc. pose proof (charAt_lt _ _ _ Hc) as Hlt.
  unfold tokenizeStep.
  destruct (isSpace char); [intros [= <- <-]; left; reflexivity |].
  destruct (Ascii.eqb char "/" && isNext text current "/");
    [intros [= <- <-]; left; reflexivity |].
  destruct (Ascii.eqb char "/" && isNext text current "*");
    [intros [= <- <-]; left; reflexivity |].
  destruct (Ascii.eqb char "034" || Ascii.eqb char "'") eqn:Hquote.
  { pose proof (scanString_ge char text (String.length text) (current + 1)) as Hge.
    pose proof (scanString_stop char text (String.length text) (current + 1)) as Hstop.
    destruct (String.length text <=? scanString char text (String.length text) (current + 1))
      eqn:Hend; [discriminate |].
    apply Nat.leb_gt in Hend.
    intros [= <- <-]. right. eexists. split; [reflexivity |].
    split; [reflexivity |]. split; [reflexivity |].
    unfold lexed. cbn [tstart tend ttype tvalue]. split; [lia |].
    split; [reflexivity |]. split; [lia |].
    exists char. split.
    - apply orb_true_iff in Hquote as [H | H]; apply Ascii.eqb_eq in H; auto.
    - split; [exact Hc |].
      replace (scanString char text (String.length text) (current + 1) + 1 - 1)
        with (scanString char text (String.length text) (current + 1)) by lia.
      apply Hstop; lia. }
  destruct (isDigit char) eqn:Hdigit.
  { pose proof (scanWhile_first isDigitOrDot text (String.length text) current char Hc)
      as Hfirst.
    pose proof (scanWhile_le isDigitOrDot text (String.length text) current) as Hle.
    intros [= <- <-]. right. eexists. split; [reflexivity |].
    split; [reflexivity |]. split; [reflexivity |].
    unfold lexed. cbn [tstart tend ttype tvalue]. split.
    - split; [| lia]. apply Hfirst; [| lia]. unfold isDigitOrDot. rewrite Hdigit.
      reflexivity.
    - split; [reflexivity |]. exists char. auto. }
  destruct (Ascii.eqb char "-" && (current + 1 <? String.length text)
            && match charAt text (current + 1) with
               | Some d => isDigit d
               | None => false
               end) eqn:Hminus.
  { pose proof (scanWhile_ge isDigitOrDot text (String.length text) (current + 1))
      as Hge.
    pose proof (scanWhile_le isDigitOrDot text (String.length text) (current + 1))
      as Hle.
    intros [= <- <-]. right. eexists. split; [reflexivity |].
    split; [reflexivity |]. split; [reflexivity |].
    unfold lexed. cbn [tstart tend ttype tvalue]. split; [lia |].
    split; [reflexivity |]. exists char. split; [exact Hc |]. right.
    apply andb_true_iff in Hminus. destruct Hminus as [Hm Hnext].
    apply andb_true_iff in Hm. destruct Hm as [Hm _].
    apply Ascii.eqb_eq in Hm. split; [exact Hm |].
    destruct (charAt text (current + 1)) as [d |] eqn:Hd; [| discriminate].
    pose proof (scanWhile_first isDigitOrDot text (String.length text)
                  (current + 1) d Hd) as Hfirst.
    unfold isDigitOrDot in Hfirst at 1. rewrite Hnext in Hfirst.
    specialize (Hfirst eq_refl). lia. }
  destruct (isIdentStart char) eqn:Hident.
  { pose proof (scanWhile_first isIdentPart text (String.length text) current char Hc)
      as Hfirst.
    pose proof (scanWhile_le isIdentPart text (String.length text) current) as Hle.
    intros [= <- <-]. right. eexists. split; [reflexivity |].
    split; [reflexivity |]. split; [reflexivity |].
    assert (current < scanWhile isIdentPart text (String.length text) current
            <= String.length text) as Hspan.
    { split; [| lia]. apply Hfirst; [| lia]. unfold isIdentPart. rewrite Hident.
      reflexivity. }
    unfold lexed.
    destruct (isKeyword (slice text current
                (scanWhile isIdentPart text (String.length text) current))) eqn:Hk;
      cbn [tstart tend ttype tvalue]; (split; [exact Hspan |]).
    - split; [reflexivity | exact Hk].
    - split; [reflexivity |]. split; [exact Hk |]. exists char. auto. }
  assert (Htwo : forall (d : ascii) (word : string),
            isNext text current d = true ->
            slice text current (current + 2) = String char (String d "")
            /\ current + 2 <= String.length text).
  { intros d word Hd. apply isAt_charAt in Hd.
    split; [apply slice_two; assumption | apply charAt_lt in Hd; lia]. }
  repeat match goal with
  | |- (if Ascii.eqb char ?c && isNext text current ?d then _ else _) = _ -> _ =>
      let Htest := fresh "Htest" in
      destruct (Ascii.eqb char c && isNext text current d) eqn:Htest;
      [ apply andb_true_iff in Htest; destruct Htest as [Hchar Hnext];
        apply Ascii.eqb_eq in Hchar; subst char;
        destruct (Htwo _ "" Hnext) as [Hslice Hlen];
        intros [= <- <-]; right; eexists; split; [reflexivity |];
        split; [reflexivity |]; split; [reflexivity |];
        unfold lexed, lexeme; cbn [tstart tend ttype tvalue];
        split; [lia |]; split; [reflexivity |]; rewrite Hslice;
        cbn; intuition auto
      | clear Htest ]
  end.
  intros [= <- <-]. right. eexists. split; [reflexivity |].
  split; [reflexivity |]. split; [reflexivity |].
  unfold lexed, lexeme. cbn [tstart tend ttype tvalue]. split; [lia |].
  split; [reflexivity |]. rewrite (slice_one _ _ _ Hc). split; [reflexivity |].
  intros [= ->] d Hd.
  rewrite Hd in Hminus.
  apply charAt_lt in Hd. apply Nat.ltb_lt in Hd. rewrite Hd in Hminus.
  exact Hminus.
Qed.

Lemma StronglySorted_snoc {A : Type} (R : A -> A -> Prop) (l : list A) (x : A) :
  StronglySorted R l -> Forall (fun a => R a x) l ->
  StronglySorted R (l ++ [x]).
Proof.
  induction 1 as [| a l Hsorted IH Hall]; intros Hx; cbn.
  - constructor; constructor.
  - inversion Hx as [| ? ? Hax Hlx]; subst. constructor; [apply IH; exact Hlx |].
    apply Forall_app. split; [exact Hall | constructor; [exact Hax | constructor]].
Qed.

Lemma lexerInvariant_step (text : string) (current : nat) (char : ascii)
    (tokens : list Token) (current' : nat) (tokens' : list Token) :
  charAt text current = Some char ->
  tokenizeStep text current char tokens = inr (current', tokens') ->
  lexerInvariant text current tokens -> lexerInvariant text current' tokens'.
Proof.
  intros Hc Hstep (Hlexed & Hsorted & Hbefore).
  pose proof (tokenizeStep_progress _ _ _ _ _ _ Hc Hstep) as Hlt.
  destruct (tokenizeStep_lexed _ _ _ _ _ _ Hc Hstep)
    as [-> | (token & -> & Hstart & Hend & Htoken)].
  - split; [exact Hlexed |]. split; [exact Hsorted |].
    eapply Forall_impl; [exact Hbefore |]. cbn. intros; lia.
  - split; [| split].
    + apply Forall_app. split; [exact Hlexed | constructor; [exact Htoken | constructor]].
    + apply StronglySorted_snoc; [exact Hsorted |].
      eapply Forall_impl; [exact Hbefore |]. unfold precedes. cbn. intros; lia.
    + apply Forall_app. split.
      * eapply Forall_impl; [exact Hbefore |]. cbn. intros; lia.
      * constructor; [lia | constructor].
Qed.

Lemma tokenizeLoop_invariant (text : string) (fuel current : nat)
    (tokens result : list Token) :
  lexerInvariant text current tokens ->
  tokenizeLoop text fuel current tokens = Some (inr result) ->
  Forall (lexed text) result /\ StronglySorted precedes result.
Proof.
  revert current tokens.
  induction fuel as [| fuel IH]; intros current tokens Hinv; cbn.
  - destruct (charAt text current); [discriminate |].
    intros [= <-]. destruct Hinv as (H1 & H2 & _). auto.
  - destruct (charAt text current) as [char |] eqn:Hc.
    + destruct (tokenizeStep text current char tokens) as [e | [current' tokens']]
        eqn:Hstep; [discriminate |].
      apply IH. exact (lexerInvariant_step _ _ _ _ _ _ Hc Hstep Hinv).
    + intros [= <-]. destruct Hinv as (H1 & H2 & _). auto.
Qed.

Lemma tokenize_lexed (text : string) (this this' : Parser) (result : list Token) :
  tokenize text this = Normal result this' ->
  Forall (lexed text) result /\ StronglySorted precedes result.
Proof.
  unfold tokenize.
  destruct (tokenizeLoop text (String.length text) 0 []) as [[e | toks] |] eqn:Hloop;
    try discriminate.
  intros [= <- _]. apply (tokenizeLoop_invariant _ _ _ _ _ ltac:(repeat constructor) Hloop).
Qed.

Lemma tokenizeStep_throws (text : string) (current : nat) (char : ascii)
    (tokens : list Token) (e : Exception) :
  tokenizeStep text current char tokens = inl e ->
  e = unterminated current /\ (char = "034"%char \/ char = "'"%char).
Proof.
  unfold tokenizeStep.
  repeat match goal with
  | |- (if ?b then _ else _) = _ -> _ =>
      let H := fresh "Htest" in destruct b eqn:H; try discriminate
  end.
  intros [= <-]. split; [reflexivity |].
  match goal with
  | H : _ || _ = true |- _ =>
      apply orb_true_iff in H; destruct H as [H | H]; apply Ascii.eqb_eq in H; auto
  end.
Qed.

Lemma tokenizeLoop_throws (text : string) (fuel current : nat)
    (tokens : list Token) (e : Exception) :
  tokenizeLoop text fuel current tokens = Some (inl e) ->
  exists (start : nat) (quote : ascii),
    e = unterminated start /\ charAt text start = Some quote
    /\ (quote = "034"%char \/ quote = "'"%char).
Proof.
  revert current tokens.
  induction fuel as [| fuel IH]; intros current tokens; cbn.
  - destruct (charAt text current); discriminate.
  - destruct (charAt text current) as [char |] eqn:Hc; [| discriminate].
    destruct (tokenizeStep text current char tokens) as [e' | [current' tokens']]
      eqn:Hstep.
    + intros [= ->]. apply tokenizeStep_throws in Hstep as [-> Hq].
      exists current, char. auto.
    + apply IH.
Qed.

(** [tokenize] always comes to an end.  It returns the tokens, or it
    throws [Error("Unterminated string at position <start>")] where
    [start] is the offset of a quote character of the text, and nothing
    else; either way it has stored the text in [this.input] and changed
    nothing else of the parser. *)
Theorem tokenize_returns_or_reports_open_string (text : string) (this : Parser) :
  let this' :=
    {| input := Some text; tokens := tokens this;
       position := position this; errors := errors this |} in
  (exists result : list Token, tokenize text this = Normal result this')
  \/ (exists (start : nat) (quote : ascii),
        tokenize text this
        = Throw (Error ("Unterminated string at position " ++ toString start)) this'
        /\ charAt text start = Some quote
        /\ (quote = "034"%char \/ quote = "'"%char)).
Proof.
  cbv zeta. pose proof (tokenize_returns text this) as Hreturns.
  unfold tokenize in *.
  destruct (tokenizeLoop text (String.length text) 0 []) as [[e | toks] |] eqn:Hloop.
  - right. apply tokenizeLoop_throws in Hloop as (start & quote & -> & Hc & Hq).
    exists start, quote. auto.
  - left. eexists. reflexivity.
  - contradiction.
Qed.

(** An exception that leaves [parse] is the lexer's
    [Error("Unterminated string at position <start>")], [start] being the
    offset of a quote character of the text: no error of the parser
    proper, and no [TypeError], ever reaches the caller.  The parser is
    then as before the call, but for [input]. *)
Theorem parse_throws_only_open_string (fuel : nat) (text : string)
    (this this' : Parser) (e : Exception) :
  parse fuel text this = Throw e this' ->
  (exists (start : nat) (quote : ascii),
      e = Error ("Unterminated string at position " ++ toString start)
      /\ charAt text start = Some quote
      /\ (quote = "034"%char \/ quote = "'"%char))
  /\ this' = {| input := Some text; tokens := tokens this;
                position := position this; errors := errors this |}.
Proof.
  intros Hthrow. apply parse_throws_only_from_tokenize in Hthrow.
  unfold tokenize in Hthrow.
  destruct (tokenizeLoop text (String.length text) 0 []) as [[e' | toks] |] eqn:Hloop;
    try discriminate.
  injection Hthrow as -> <-. split; [| reflexivity].
  apply tokenizeLoop_throws in Hloop as (start & quote & -> & Hc & Hq).
  exists start, quote. auto.
Qed.

Lemma parse_throws_only_open_string_witness :
  (exists (start : nat) (quote : ascii),
      Error "Unterminated string at position 8"
      = Error ("Unterminated string at position " ++ toString start)
      /\ charAt "var s = 'abc; s = 1;" start = Some quote
      /\ (quote = "034"%char \/ quote = "'"%char))
  /\ {| input := Some "var s = 'abc; s = 1;"; tokens := []; position := 0;
        errors := [] |}
     = {| input := Some "var s = 'abc; s = 1;"; tokens := tokens constructor;
          position := position constructor; errors := errors constructor |}.
Proof.
  apply (parse_throws_only_open_string 3 "var s = 'abc; s = 1;" constructor).
  vm_compute. reflexivity.
Defined.

(** The tokens [tokenize] returns lie within the text, none is empty, and
    they come in the order of the text without overlapping. *)
Theorem tokens_are_ordered_spans_of_the_text (text : string)
    (this this' : Parser) (result : list Token) :
  tokenize text this = Normal result this' ->
  Forall (fun token => tstart token < tend token <= String.length text) result
  /\ StronglySorted (fun a b => tend a <= tstart b) result.
Proof.
  intros Htok. apply tokenize_lexed in Htok as [Hlexed Hsorted].
  split; [| exact Hsorted].
  eapply Forall_impl; [exact Hlexed |]. intros token [Hspan _]. exact Hspan.
Qed.

Lemma tokens_are_ordered_spans_of_the_text_witness :
  Forall (fun token => tstart token < tend token <= String.length "x = a-1;")
    [mkToken IDENTIFIER "x" 0 1; mkToken SYMBOL "=" 2 3;
     mkToken IDENTIFIER "a" 4 5; mkToken NUMBER "-1" 5 7; mkToken SYMBOL ";" 7 8]
  /\ StronglySorted (fun a b => tend a <= tstart b)
       [mkToken IDENTIFIER "x" 0 1; mkToken SYMBOL "=" 2 3;
        mkToken IDENTIFIER "a" 4 5; mkToken NUMBER "-1" 5 7; mkToken SYMBOL ";" 7 8].
Proof.
  apply (tokens_are_ordered_spans_of_the_text "x = a-1;" constructor
           {| input := Some "x = a-1;"; tokens := []; position := 0; errors := [] |}).
  vm_compute. reflexivity.
Defined.

Lemma charAt_some (text : string) (i : nat) :
  i < String.length text -> exists c : ascii, charAt text i = Some c.
Proof.
  intros Hlt. destruct (charAt text i) as [c |] eqn:Hc; [eauto |].
  apply charAt_ge in Hc. lia.
Qed.

(** The value of a token is the text of its span, as written; the two
    exceptions are [&&] and [||], whose tokens have the values ['and'] and
    ['or'] of the keywords. *)
Theorem token_values_are_the_text_of_their_spans (text : string)
    (this this' : Parser) (result : list Token) :
  tokenize text this = Normal result this' ->
  Forall (fun token =>
            tvalue token = lexeme text token
            \/ (ttype token = OPERATOR /\ tvalue token = "and"
                /\ lexeme text token = "&&")
            \/ (ttype token = OPERATOR /\ tvalue token = "or"
                /\ lexeme text token = "||")) result.
Proof.
  intros Htok. apply tokenize_lexed in Htok as [Hlexed _].
  eapply Forall_impl; [exact Hlexed |]. intros token [_ Hkind].
  destruct (ttype token) eqn:Htype; try (left; tauto).
  destruct Hkind as [_ [[Hv _] | [[Hv Hl] | [Hv Hl]]]]; auto.
Qed.

Lemma token_values_are_the_text_of_their_spans_witness :
  Forall (fun token =>
            tvalue token = lexeme "a && 'b c'" token
            \/ (ttype token = OPERATOR /\ tvalue token = "and"
                /\ lexeme "a && 'b c'" token = "&&")
            \/ (ttype token = OPERATOR /\ tvalue token = "or"
                /\ lexeme "a && 'b c'" token = "||"))
    [mkToken IDENTIFIER "a" 0 1; mkToken OPERATOR "and" 2 4;
     mkToken STRING "'b c'" 5 10].
Proof.
  apply (token_values_are_the_text_of_their_spans "a && 'b c'" constructor
           {| input := Some "a && 'b c'"; tokens := []; position := 0;
              errors := [] |}).
  vm_compute. reflexivity.
Defined.

(** A token has the type [KEYWORD] exactly when its value is one of the
    keywords, the operator tokens of [&&] and [||] apart: an identifier
    token is never a keyword, and neither is a string, a number or a
    symbol. *)
Theorem keyword_tokens_are_the_keywords (text : string)
    (this this' : Parser) (result : list Token) :
  tokenize text this = Normal result this' ->
  Forall (fun token =>
            isKeyword (tvalue token) = true
            <-> ttype token = KEYWORD
                \/ (ttype token = OPERATOR
                    /\ (tvalue token = "and" \/ tvalue token = "or"))) result.
Proof.
  intros Htok. apply tokenize_lexed in Htok as [Hlexed _].
  eapply Forall_impl; [exact Hlexed |]. intros token [Hspan Hkind].
  destruct (charAt_some text (tstart token) ltac:(lia)) as [c Hc].
  pose proof (slice_first text (tstart token) (tend token) c Hc ltac:(lia)) as Hslice.
  fold (lexeme text token) in Hslice.
  destruct (ttype token) eqn:Htype.
  - destruct Hkind as (Hv & _ & quote & Hq & Hc' & _).
    split; [| intros [[=] | [[=] _]]].
    rewrite Hv, Hslice. intros [Hletter _]%isKeyword_first. exfalso.
    assert (c = quote) as -> by congruence.
    destruct Hq as [-> | ->]; discriminate.
  - destruct Hkind as (Hv & d & Hd & Hdigit).
    split; [| intros [[=] | [[=] _]]].
    rewrite Hv, Hslice. intros [Hletter _]%isKeyword_first. exfalso.
    assert (c = d) as -> by congruence.
    destruct Hdigit as [Hdigit | [-> _]]; [| discriminate].
    apply isDigit_not_letter in Hdigit. congruence.
  - destruct Hkind as (_ & Hk & _).
    split; [congruence | intros [[=] | [[=] _]]].
  - destruct Hkind as (_ & Hk). split; auto.
  - destruct Hkind as [_ [[_ Hin] | [[-> _] | [-> _]]]].
    + split; [| intros [[=] | [_ [-> | ->]]]; reflexivity].
      intros Hk. cbn in Hin.
      destruct Hin as [Hin | [Hin | [Hin | [Hin | []]]]]; rewrite <- Hin in Hk;
        vm_compute in Hk; discriminate Hk.
    + split; auto.
    + split; auto.
  - destruct Hkind as (Hend & Hv & _).
    split; [| intros [[=] | [[=] _]]].
    rewrite Hv, Hslice. intros [_ Hrest]%isKeyword_first. exfalso. apply Hrest.
    rewrite Hend. replace (tstart token + 1) with (S (tstart token)) by lia.
    apply slice_empty.
Qed.

Lemma keyword_tokens_are_the_keywords_witness :
  Forall (fun token =>
            isKeyword (tvalue token) = true
            <-> ttype token = KEYWORD
                \/ (ttype token = OPERATOR
                    /\ (tvalue token = "and" \/ tvalue token = "or")))
    [mkToken IDENTIFIER "try" 0 3; mkToken KEYWORD "var" 4 7;
     mkToken IDENTIFIER "vars" 8 12; mkToken OPERATOR "or" 13 15;
     mkToken KEYWORD "or" 16 18].
Proof.
  apply (keyword_tokens_are_the_keywords "try var vars || or" constructor
           {| input := Some "try var vars || or"; tokens := []; position := 0;
              errors := [] |}).
  vm_compute. reflexivity.
Defined.

(** A minus sign written directly before a digit is never a token of its
    own: the lexer reads it as the sign of the number that follows, also
    after an operand, so that [a-1] gives the two tokens [a] and [-1]. *)
Theorem minus_before_digit_is_a_sign (text : string)
    (this this' : Parser) (result : list Token) :
  tokenize text this = Normal result this' ->
  Forall (fun token =>
            tvalue token = "-" ->
            ttype token = SYMBOL
            /\ forall d : ascii,
                 charAt text (tend token) = Some d -> isDigit d = false) result.
Proof.
  intros Htok. apply tokenize_lexed in Htok as [Hlexed _].
  eapply Forall_impl; [exact Hlexed |]. intros token [Hspan Hkind] Hminus.
  destruct (charAt_some text (tstart token) ltac:(lia)) as [c Hc].
  pose proof (slice_first text (tstart token) (tend token) c Hc ltac:(lia)) as Hslice.
  fold (lexeme text token) in Hslice.
  destruct (ttype token) eqn:Htype.
  - destruct Hkind as (Hv & Hlen & _). exfalso.
    destruct (charAt_some text (S (tstart token)) ltac:(lia)) as [d Hd].
    rewrite (slice_first text (S (tstart token)) (tend token) d Hd ltac:(lia))
      in Hslice.
    congruence.
  - destruct Hkind as (Hv & d & Hd & Hdigit). exfalso.
    assert (c = d) as <- by congruence.
    assert (c = "-"%char) as -> by congruence.
    destruct Hdigit as [Hdigit | [_ Hlen]]; [discriminate |].
    destruct (charAt_some text (S (tstart token)) ltac:(lia)) as [d' Hd'].
    rewrite (slice_first text (S (tstart token)) (tend token) d' Hd' ltac:(lia))
      in Hslice.
    congruence.
  - destruct Hkind as (Hv & _ & d & Hd & Hident). exfalso.
    assert (c = d) as <- by congruence.
    assert (c = "-"%char) as -> by congruence. discriminate.
  - destruct Hkind as (_ & Hk). rewrite Hminus in Hk. discriminate.
  - destruct Hkind as [_ [[_ Hin] | [[Hv _] | [Hv _]]]]; exfalso.
    + rewrite Hminus in Hin. cbn in Hin. intuition discriminate.
    + congruence.
    + congruence.
  - destruct Hkind as (_ & _ & Hnext). split; [reflexivity | auto].
Qed.

Lemma minus_before_digit_is_a_sign_witness :
  Forall (fun token =>
            tvalue token = "-" ->
            ttype token = SYMBOL
            /\ forall d : ascii,
                 charAt "a-1 - b" (tend token) = Some d -> isDigit d = false)
    [mkToken IDENTIFIER "a" 0 1; mkToken NUMBER "-1" 1 3; mkToken SYMBOL "-" 4 5;
     mkToken IDENTIFIER "b" 6 7].
Proof.
  apply (minus_before_digit_is_a_sign "a-1 - b" constructor
           {| input := Some "a-1 - b"; tokens := []; position := 0; errors := [] |}).
  vm_compute. reflexivity.
Defined.

(** ** The walk of the checker: what every step keeps

    A property of the checker that each of its elementary steps keeps is
    kept by the walk of a whole tree.  A type is recorded for a name that
    has none yet, or else it is ['any']. *)

Section Walk.

Variable P : TypeChecker.TypeChecker -> Prop.

Hypothesis P_pushError :
  forall (document : string) (start end_ : Num) (message : string)
         (this : TypeChecker.TypeChecker),
    P this ->
    P (TypeChecker.pushError (TypeChecker.error document start end_ message) this).

Hypothesis P_setSymbol :
  forall (name type : string) (this : TypeChecker.TypeChecker),
    P this ->
    TypeChecker.symbolTable this !! name = None \/ type = "any" ->
    P (TypeChecker.setSymbol name type this).

Hypothesis P_addStatic :
  forall (name : string) (this : TypeChecker.TypeChecker),
    P this -> P (TypeChecker.addStatic name this).

Hypothesis P_addAssigned :
  forall (name : string) (this : TypeChecker.TypeChecker),
    P this -> P (TypeChecker.addAssigned name this).

Hypothesis P_call :
  forall (expected actual : string) (this : TypeChecker.TypeChecker),
    P this -> P (snd (TypeChecker.callIsCompatibleType expected actual this)).

Lemma checkField_keeps (o : option Node) :
  option_all Node
    (fun node => forall document this,
       P this -> P (TypeChecker.checkNode node document this)) o ->
  forall (document : string) (this : TypeChecker.TypeChecker),
    P this -> P (TypeChecker.checkField TypeChecker.checkNode o document this).
Proof.
  intros [child Hchild |] document this HP; cbn; [apply Hchild |]; exact HP.
Qed.

Lemma forEach_nodes_keeps (items : list Node) :
  list_all Node
    (fun node => forall document this,
       P this -> P (TypeChecker.checkNode node document this)) items ->
  forall (document : string) (this : TypeChecker.TypeChecker),
    P this ->
    P (TypeChecker.forEach (fun item => TypeChecker.checkNode item document)
         items this).
Proof.
  unfold TypeChecker.forEach.
  induction 1 as [| item Hitem items Hitems IH]; cbn; intros document this HP;
    [exact HP |].
  apply IH, Hitem, HP.
Qed.

Lemma forEach_fields_keeps (items : list (option Node)) :
  list_all (option Node)
    (option_all Node
       (fun node => forall document this,
          P this -> P (TypeChecker.checkNode node document this))) items ->
  forall (document : string) (this : TypeChecker.TypeChecker),
    P this ->
    P (TypeChecker.forEach
         (fun item => TypeChecker.checkField TypeChecker.checkNode item document)
         items this).
Proof.
  unfold TypeChecker.forEach.
  induction 1 as [| item Hitem items Hitems IH]; cbn; intros document this HP;
    [exact HP |].
  apply IH, checkField_keeps; assumption.
Qed.

Lemma checkNode_keeps (node : Node) (document : string)
    (this : TypeChecker.TypeChecker) :
  P this -> P (TypeChecker.checkNode node document this).
Proof.
  revert document this.
  induction node; intros document this HP;
    cbn [TypeChecker.checkNode TypeChecker.checkChildren].
  all: try solve
    [ unfold TypeChecker.checkIfStatement, TypeChecker.checkWhileStatement,
        TypeChecker.checkForStatement, TypeChecker.checkBinaryExpression,
        TypeChecker.checkCallExpression, TypeChecker.checkDoWhileStatement,
        TypeChecker.checkMatchStatement, TypeChecker.checkTryStatement,
        TypeChecker.checkRetryStatement, TypeChecker.checkChildren;
      cbn [TypeChecker.checkField];
      repeat first
        [ assumption
        | apply checkField_keeps
        | apply forEach_nodes_keeps
        | apply forEach_fields_keeps
        | match goal with
          | IH : (forall document this, P this -> P (TypeChecker.checkNode ?n _ _))
            |- P (TypeChecker.checkNode ?n _ _) => apply IH
          end ] ].
  - (* VariableDeclaration *)
    unfold TypeChecker.checkVariableDeclaration.
    destruct (TypeChecker.symbolTable this !! name) eqn:Hname;
      [apply P_pushError; exact HP |].
    assert (Hstatic : P (if isStatic then TypeChecker.addStatic name this else this))
      by (destruct isStatic; [apply P_addStatic |]; exact HP).
    assert (Hfree : TypeChecker.symbolTable
                      (if isStatic then TypeChecker.addStatic name this else this)
                    !! name = None)
      by (destruct isStatic; exact Hname).
    destruct (TypeChecker.ifTruthy declaredType) as [type |].
    + destruct init as [init |].
      * match goal with
        | |- P (let '(_, _) := ?call in _) =>
            pose proof (P_call type (TypeChecker.inferType
                          (if isStatic then TypeChecker.addStatic name this else this)
                          (Some init)) _ Hstatic) as Hcall;
            assert (Hsame : TypeChecker.symbolTable (snd call) !! name = None)
              by exact Hfree;
            destruct call as [compatible this']
        end.
        cbn [snd] in Hcall, Hsame. destruct compatible; cbn [negb].
        -- apply P_addAssigned, P_setSymbol; [exact Hcall | left; exact Hsame].
        -- apply P_pushError. exact Hcall.
      * apply P_setSymbol; [exact Hstatic | left; exact Hfree].
    + apply checkField_keeps; [assumption |].
      destruct (TypeChecker.truthy name); [| exact Hstatic].
      assert (P (TypeChecker.setSymbol name "any"
                   (if isStatic then TypeChecker.addStatic name this else this)))
        by (apply P_setSymbol; [exact Hstatic | right; reflexivity]).
      destruct init; [apply P_addAssigned |]; assumption.
  - (* AssignmentExpression *)
    unfold TypeChecker.checkAssignmentExpression.
    destruct node1; try exact HP.
    assert (Hcheck : forall this0 : TypeChecker.TypeChecker,
              P this0 ->
              P (TypeChecker.checkNode node2 document
                   match TypeChecker.symbolTable this0 !! name with
                   | Some declaredType =>
                       if TypeChecker.truthy declaredType
                          && (declaredType !== "any")
                       then
                         let '(compatible, this1) :=
                           TypeChecker.callIsCompatibleType declaredType
                             (TypeChecker.inferType this0 (Some node2)) this0 in
                         if negb compatible then
                           TypeChecker.pushError
                             (TypeChecker.error document (nodeStart node2)
                                (nodeEnd node2)
                                ("Type mismatch: expected " ++ declaredType
                                 ++ " but got "
                                 ++ TypeChecker.inferType this0 (Some node2)
                                 ++ " when assigning to '" ++ name ++ "'"))
                             this1
                         else this1
                       else this0
                   | None => this0
                   end)).
    { intros this0 HP0. apply IHnode2.
      destruct (TypeChecker.symbolTable this0 !! name) as [declared |];
        [| assumption].
      destruct (TypeChecker.truthy declared && (declared !== "any"));
        [| assumption].
      pose proof (P_call declared (TypeChecker.inferType this0 (Some node2)) _ HP0)
        as Hcall.
      destruct (TypeChecker.callIsCompatibleType declared
                  (TypeChecker.inferType this0 (Some node2)) this0)
        as [compatible this1].
      cbn [snd] in Hcall. destruct compatible; cbn [negb];
        [exact Hcall | apply P_pushError; exact Hcall]. }
    destruct (bool_decide (name ∈ TypeChecker.staticVariables this));
      [destruct (bool_decide (name ∈ TypeChecker.assignedVariables this)) |];
      [ apply P_pushError; exact HP
      | apply Hcheck, P_addAssigned; exact HP
      | apply Hcheck; exact HP ].
  - (* CatchClause *)
    unfold TypeChecker.checkCatchClause.
    cbn [TypeChecker.checkField].
    assert (P (TypeChecker.checkNode node document this))
      by (apply IHnode; assumption).
    destruct param as [param |]; [| assumption].
    destruct (TypeChecker.ifTruthy (TypeChecker.nodeName param)); [| assumption].
    apply IHnode. apply P_setSymbol; [assumption | right; reflexivity].
Qed.

End Walk.

(** What the walk of a list of statements keeps. *)
Lemma statements_keep (P : TypeChecker.TypeChecker -> Prop) :
  (forall document start end_ message this,
      P this ->
      P (TypeChecker.pushError (TypeChecker.error document start end_ message) this)) ->
  (forall name type this,
      P this -> TypeChecker.symbolTable this !! name = None \/ type = "any" ->
      P (TypeChecker.setSymbol name type this)) ->
  (forall name this, P this -> P (TypeChecker.addStatic name this)) ->
  (forall name this, P this -> P (TypeChecker.addAssigned name this)) ->
  (forall expected actual this,
      P this -> P (snd (TypeChecker.callIsCompatibleType expected actual this))) ->
  forall (statements : list Node) (document : string)
         (this : TypeChecker.TypeChecker),
    P this ->
    P (TypeChecker.forEach (fun node => TypeChecker.checkNode node document)
         statements this).
Proof.
  intros H1 H2 H3 H4 H5 statements document this HP.
  apply forEach_nodes_keeps; [| exact HP].
  apply list_all_forall. intros node document' this'.
  apply checkNode_keeps; assumption.
Qed.

(** The tables of a checker only grow along a walk, and the type recorded
    for a name changes to ['any'] at most. *)
Lemma statements_keep_tables (before : TypeChecker.TypeChecker)
    (statements : list Node) (document : string) :
  let after :=
    TypeChecker.forEach (fun node => TypeChecker.checkNode node document)
      statements before in
  (forall name type,
      TypeChecker.symbolTable before !! name = Some type ->
      TypeChecker.symbolTable after !! name = Some type
      \/ TypeChecker.symbolTable after !! name = Some "any")
  /\ TypeChecker.staticVariables before ⊆ TypeChecker.staticVariables after
  /\ TypeChecker.assignedVariables before ⊆ TypeChecker.assignedVariables after.
Proof.
  cbv zeta.
  apply (statements_keep
           (fun this =>
              (forall name type,
                  TypeChecker.symbolTable before !! name = Some type ->
                  TypeChecker.symbolTable this !! name = Some type
                  \/ TypeChecker.symbolTable this !! name = Some "any")
              /\ TypeChecker.staticVariables before ⊆ TypeChecker.staticVariables this
              /\ TypeChecker.assignedVariables before
                 ⊆ TypeChecker.assignedVariables this)).
  - trivial.
  - intros name type this (Htable & Hstatic & Hassigned) Hnew.
    split; [| split; assumption].
    intros name' type' Hbefore. cbn. rewrite lookup_insert.
    destruct (Htable _ _ Hbefore) as [Hsame | Hany]; case_decide; subst; auto;
      destruct Hnew as [Hnone | ->]; auto; congruence.
  - intros name this (Htable & Hstatic & Hassigned).
    split; [exact Htable |]. split; [| exact Hassigned]. cbn. set_solver.
  - intros name this (Htable & Hstatic & Hassigned).
    split; [exact Htable |]. split; [exact Hstatic |]. cbn. set_solver.
  - trivial.
  - split; [auto | split; reflexivity].
Qed.

(** [check] only appends to the array of diagnostics it is given: what
    the caller had put there (the syntax errors, in [analyzeTypeSafety])
    stays first and in order, and every diagnostic added has the
    severity 1 of an error. *)
Theorem check_appends_errors_to_given_diagnostics
    (ast : Program) (document : string) (errors : list TypeChecker.Diagnostic)
    (this : TypeChecker.TypeChecker) :
  exists added : list TypeChecker.Diagnostic,
    TypeChecker.errors (TypeChecker.check ast document errors this)
    = (errors ++ added)%list
    /\ Forall (fun d => TypeChecker.severity d = 1) added.
Proof.
  unfold TypeChecker.check.
  apply (statements_keep
           (fun this =>
              exists added : list TypeChecker.Diagnostic,
                TypeChecker.errors this = (errors ++ added)%list
                /\ Forall (fun d => TypeChecker.severity d = 1) added)).
  - intros document' start end_ message this' (added & Heq & Hall).
    exists (added ++ [TypeChecker.error document' start end_ message])%list.
    cbn. rewrite Heq, app_assoc. split; [reflexivity |].
    apply Forall_app. split; [exact Hall | repeat constructor].
  - trivial.
  - trivial.
  - trivial.
  - trivial.
  - exists []. cbn. rewrite app_nil_r. split; [reflexivity | constructor].
Qed.

(** The type recorded for a variable is never replaced by another type:
    whatever statements are walked, the variable keeps its type or has
    become ['any'] (a catch parameter of the same name does that, and it
    is not undone after the clause), and no name leaves the set of the
    static variables or that of the assigned ones. *)
Theorem recorded_type_changes_to_any_at_most
    (statements : list Node) (document : string)
    (this : TypeChecker.TypeChecker) (name type : string) :
  TypeChecker.symbolTable this !! name = Some type ->
  let this' :=
    TypeChecker.forEach (fun node => TypeChecker.checkNode node document)
      statements this in
  (TypeChecker.symbolTable this' !! name = Some type
   \/ TypeChecker.symbolTable this' !! name = Some "any")
  /\ TypeChecker.staticVariables this ⊆ TypeChecker.staticVariables this'
  /\ TypeChecker.assignedVariables this ⊆ TypeChecker.assignedVariables this'.
Proof.
  intros Hname. cbv zeta.
  destruct (statements_keep_tables this statements document)
    as (Htable & Hstatic & Hassigned).
  split; [exact (Htable _ _ Hname) | split; assumption].
Qed.

(** Once a name is in the symbol table, every later declaration of it is
    reported as a redeclaration and otherwise ignored, whatever its
    annotation, its initializer (which is not walked) and its [static]
    flag, and whatever statements come in between. *)
Theorem redeclaration_is_always_reported
    (between : list Node) (document : string) (this : TypeChecker.TypeChecker)
    (name : string) (declaredType : option string) (init : option Node)
    (isStatic : bool) (start end_ : Num) :
  is_Some (TypeChecker.symbolTable this !! name) ->
  let this' :=
    TypeChecker.forEach (fun node => TypeChecker.checkNode node document)
      between this in
  TypeChecker.checkNode
    (VariableDeclaration declaredType name init isStatic start end_) document this'
  = TypeChecker.pushError
      (TypeChecker.error document start end_
         ("Variable '" ++ name ++ "' has already been declared")) this'.
Proof.
  intros [type Hname]. cbv zeta.
  destruct (statements_keep_tables this between document) as (Htable & _).
  cbn [TypeChecker.checkNode]. unfold TypeChecker.checkVariableDeclaration.
  destruct (Htable _ _ Hname) as [-> | ->]; reflexivity.
Qed.

Lemma recorded_type_changes_to_any_at_most_witness :
  let text := "var int e = 1; try { } catch (e) { }" in
  let clause :=
    CatchClause (Some (Identifier "e" (num 30) (num 31))) (BlockStatement [])
      (num 23) undefined in
  let this := TypeChecker.setSymbol "e" "int" TypeChecker.constructor in
  let this' :=
    TypeChecker.forEach (fun node => TypeChecker.checkNode node text)
      [TryStatement (BlockStatement []) [clause] None (num 15) (num 18)] this in
  TypeChecker.symbolTable this !! "e" = Some "int"
  /\ TypeChecker.symbolTable this' !! "e" = Some "any"
  /\ (TypeChecker.symbolTable this' !! "e" = Some "int"
      \/ TypeChecker.symbolTable this' !! "e" = Some "any")
  /\ TypeChecker.staticVariables this ⊆ TypeChecker.staticVariables this'
  /\ TypeChecker.assignedVariables this ⊆ TypeChecker.assignedVariables this'.
Proof.
  cbv zeta. split; [vm_compute; reflexivity |]. split; [vm_compute; reflexivity |].
  apply (recorded_type_changes_to_any_at_most
           [TryStatement (BlockStatement [])
              [CatchClause (Some (Identifier "e" (num 30) (num 31)))
                 (BlockStatement []) (num 23) undefined] None (num 15) (num 18)]
           "var int e = 1; try { } catch (e) { }"
           (TypeChecker.setSymbol "e" "int" TypeChecker.constructor) "e" "int").
  vm_compute. reflexivity.
Defined.

Lemma redeclaration_is_always_reported_witness :
  let text := "var x = 10; x = 1; var x = 'test';" in
  let this :=
    TypeChecker.checkNode
      (VariableDeclaration None "x"
         (Some (Literal (VNumber (JsNumber.ofString "10")) "10" (num 8) (num 10)))
         false (num 0) (num 12))
      text TypeChecker.constructor in
  let between :=
    [AssignmentExpression "=" (Identifier "x" (num 12) (num 13))
       (Literal (VNumber (JsNumber.ofString "1")) "1" (num 16) (num 17))
       (num 12) (num 19)] in
  let this' :=
    TypeChecker.forEach (fun node => TypeChecker.checkNode node text) between this in
  is_Some (TypeChecker.symbolTable this !! "x")
  /\ TypeChecker.checkNode
       (VariableDeclaration None "x"
          (Some (Literal (VString "'test'") "'test'" (num 27) (num 33)))
          false (num 19) (num 34)) text this'
     = TypeChecker.pushError
         (TypeChecker.error text (num 19) (num 34)
            "Variable 'x' has already been declared") this'.
Proof.
  cbv zeta. split; [vm_compute; eexists; reflexivity |].
  apply (redeclaration_is_always_reported
           [AssignmentExpression "=" (Identifier "x" (num 12) (num 13))
              (Literal (VNumber (JsNumber.ofString "1")) "1" (num 16) (num 17))
              (num 12) (num 19)]
           "var x = 10; x = 1; var x = 'test';").
  vm_compute. eexists. reflexivity.
Defined.

(** ** Expressions hold expressions only *)

Ltac expression_ok :=
  repeat match goal with
         | |- context [match ?o with Some _ => _ | None => _ end] =>
             is_var o; destruct o
         end;
  cbn [yields isExpressionTree parseTemplateLiteral];
  rewrite ?forallb_app;
  cbn [forallb isExpressionTree];
  repeat match goal with
         | H : _ = true |- _ => rewrite H
         end;
  first [reflexivity | assumption].

Ltac expression_destruct x :=
  first
    [ match goal with
      | IH : (forall this, yields ?ok (?f ?fuel this)) |- _ =>
          lazymatch x with
          | f fuel ?s =>
              let H := fresh "Hyield" in
              pose proof (IH s) as H; destruct x; cbn [yields] in H
          end
      end
    | match goal with
      | IH : (forall y this, @?P y -> yields ?ok (?f ?fuel y this)) |- _ =>
          lazymatch x with
          | f fuel ?y ?s =>
              let H := fresh "Hyield" in
              assert (H : yields ok (f fuel y s)) by (apply IH; expression_ok);
              destruct x; cbn [yields] in H
          end
      end
    | destruct x eqn:? ].

Ltac expression_step :=
  lazymatch goal with
  | |- yields _ ?t =>
      lazymatch t with
      | match _ with _ => _ end =>
          let x := head_scrutinee t in expression_destruct x; cbv beta iota
      end
  end.

Ltac expression_done :=
  lazymatch goal with
  | |- yields _ (Normal _ _) => expression_ok
  | |- yields _ (Throw _ _) => exact I
  | |- yields _ Diverge => exact I
  | |- yields _ _ =>
      match goal with
      | IH : (forall this, yields _ _) |- _ => apply IH
      | IH : (forall y this, _ -> yields _ _) |- _ => apply IH; expression_ok
      end
  end.

Ltac expressions :=
  cbv [some withStart throwAt]; cbv zeta; repeat expression_step; expression_done.

Lemma expressions_yield_expressions (fuel : nat) :
  ExpressionsYield isExpressionTree fuel.
Proof.
  induction fuel as [| fuel IH].
  - repeat split; intros; exact I.
  - destruct IH as (IH1 & IH2 & IH3 & IH4 & IH5 & IH6 & IH7 & IH8 & IH9 & IH10
                    & IH11 & IH12 & IH13 & IH14 & IH15 & IH16 & IH17 & IH18
                    & IH19 & IH20 & IH21 & IH22 & IH23).
    unfold ExpressionsYield.
    repeat match goal with |- _ /\ _ => split end; intros.
    all: cbn [parseExpression parseLogicalOr parseLogicalOrLoop parseLogicalAnd
                parseLogicalAndLoop parseEquality parseEqualityLoop
                parseRelational parseRelationalLoop parseAdditive
                parseAdditiveLoop parseMultiplicative parseMultiplicativeLoop
                parseUnary parsePrimary parseExpressionsLoop parseCallExpression
                parseMemberExpression parseArrayExpression parseObjectExpression
                parsePropertiesLoop parseObjectProperty parseThrowStatement].
    all: expressions.
Qed.

Lemma forEach_expressions (items : list Node) (document : string)
    (this : TypeChecker.TypeChecker) :
  list_all Node
    (fun node => isExpressionTree node = true ->
                 forall document this,
                   TypeChecker.checkNode node document this = this) items ->
  forallb isExpressionTree items = true ->
  TypeChecker.forEach (fun item => TypeChecker.checkNode item document) items this
  = this.
Proof.
  unfold TypeChecker.forEach.
  induction 1 as [| item Hitem items Hitems IH]; cbn; [reflexivity |].
  intros [Hhead Htail]%andb_true_iff. rewrite Hitem by exact Hhead. auto.
Qed.

(** The checker walks an expression without reporting anything and
    without recording anything. *)
Lemma checkNode_expression (node : Node) :
  isExpressionTree node = true ->
  forall (document : string) (this : TypeChecker.TypeChecker),
    TypeChecker.checkNode node document this = this.
Proof.
  induction node; cbn [isExpressionTree]; try discriminate;
    intros Hok document this;
    repeat match goal with
           | H : _ && _ = true |- _ => apply andb_true_iff in H as [? ?]
           end;
    cbn [TypeChecker.checkNode TypeChecker.checkChildren];
    unfold TypeChecker.checkBinaryExpression, TypeChecker.checkCallExpression;
    cbn [TypeChecker.checkField];
    repeat match goal with
           | IH : isExpressionTree ?n = true -> _ |- _ =>
               rewrite IH by assumption
           end;
    try reflexivity;
    try (apply forEach_expressions; assumption).
  - destruct argument as [argument |]; cbn; [| reflexivity].
    match goal with
    | H : option_all _ _ _ |- _ => inversion H as [? IH |]; subst
    end.
    apply IH. exact Hok.
Qed.

(** The checker reports nothing about an expression and records nothing
    from it: whatever tree [parseExpression] returns, walking it, alone or
    as an expression statement, leaves the checker as it was.  Names that
    were never declared and operands of the wrong type pass unnoticed;
    diagnostics come from declarations and assignments only. *)
Theorem expressions_are_never_diagnosed
    (fuel : nat) (this this' : Parser) (expr : Node) :
  parseExpression fuel this = Normal expr this' ->
  forall (document : string) (checker : TypeChecker.TypeChecker)
         (start end_ : Num),
    TypeChecker.checkNode expr document checker = checker
    /\ TypeChecker.checkNode (ExpressionStatement expr start end_) document checker
       = checker.
Proof.
  intros Hparse document checker start end_.
  pose proof (proj1 (expressions_yield_expressions fuel) this) as Hyield.
  rewrite Hparse in Hyield. cbn [yields] in Hyield.
  cbn [TypeChecker.checkNode].
  split; apply checkNode_expression; exact Hyield.
Qed.

Lemma expressions_are_never_diagnosed_witness :
  let expr :=
    BinaryExpression "+"
      (Literal (VNumber (JsNumber.ofString "1")) "1" (num 0) (num 1))
      (BinaryExpression "*"
         (Literal (VString "'a'") "'a'" (num 4) (num 7))
         (CallExpression (Identifier "f" (num 10) (num 11))
            [Identifier "y" (num 12) (num 13)] (num 10) (num 14))
         (num 4) (num 14))
      (num 0) (num 14) in
  TypeChecker.checkNode expr "1 + 'a' * f(y)" TypeChecker.constructor
  = TypeChecker.constructor
  /\ TypeChecker.checkNode (ExpressionStatement expr (num 0) (num 14))
       "1 + 'a' * f(y)" TypeChecker.constructor
     = TypeChecker.constructor.
Proof.
  cbv zeta.
  apply (expressions_are_never_diagnosed 30
           {| input := Some "1 + 'a' * f(y)";
              tokens :=
                [mkToken NUMBER "1" 0 1; mkToken SYMBOL "+" 2 3;
                 mkToken STRING "'a'" 4 7; mkToken SYMBOL "*" 8 9;
                 mkToken IDENTIFIER "f" 10 11; mkToken SYMBOL "(" 11 12;
                 mkToken IDENTIFIER "y" 12 13; mkToken SYMBOL ")" 13 14];
              position := 0; errors := [] |}
           {| input := Some "1 + 'a' * f(y)";
              tokens :=
                [mkToken NUMBER "1" 0 1; mkToken SYMBOL "+" 2 3;
                 mkToken STRING "'a'" 4 7; mkToken SYMBOL "*" 8 9;
                 mkToken IDENTIFIER "f" 10 11; mkToken SYMBOL "(" 11 12;
                 mkToken IDENTIFIER "y" 12 13; mkToken SYMBOL ")" 13 14];
              position := 8; errors := [] |}).
  vm_compute. reflexivity.
Defined.

(** An arithmetic expression is inferred as ['int'] or ['float'], whatever
    its operands: ['int'] when both operands are and the operator is not
    the division, ['float'] otherwise.  So a variable declared with another
    type than these and ['any'] cannot be initialized with a sum, not even
    a [string] with the sum of two strings: the declaration is reported as
    a type mismatch, and the variable is left undeclared. *)
Theorem arithmetic_is_never_a_string
    (operator : string) (lhs rhs : Node) (from to : Num)
    (declaredType name : string) (isStatic : bool) (start end_ : Num)
    (document : string) (this : TypeChecker.TypeChecker) :
  includes ["+"; "-"; "*"; "/"; "%"] operator = true ->
  In declaredType ["string"; "bool"; "array"; "object"] ->
  TypeChecker.symbolTable this !! name = None ->
  let init := BinaryExpression operator lhs rhs from to in
  let actual := TypeChecker.inferType this (Some init) in
  let this' :=
    TypeChecker.checkNode
      (VariableDeclaration (Some declaredType) name (Some init) isStatic start end_)
      document this in
  (actual = "float"
   \/ (actual = "int"
       /\ TypeChecker.inferType this (Some lhs) = "int"
       /\ TypeChecker.inferType this (Some rhs) = "int"
       /\ operator <> "/"))
  /\ TypeChecker.errors this'
     = (TypeChecker.errors this
        ++ [TypeChecker.error document from to
              ("Type mismatch: expected " ++ declaredType ++ " but got " ++ actual
               ++ " for variable '" ++ name ++ "'")])%list
  /\ TypeChecker.symbolTable this' = TypeChecker.symbolTable this.
Proof.
  intros Hop Htype Hname. cbv zeta.
  assert (Hactual :
            TypeChecker.inferType this (Some (BinaryExpression operator lhs rhs from to))
            = "float"
            \/ (TypeChecker.inferType this
                  (Some (BinaryExpression operator lhs rhs from to)) = "int"
                /\ TypeChecker.inferType this (Some lhs) = "int"
                /\ TypeChecker.inferType this (Some rhs) = "int"
                /\ operator <> "/")).
  { cbn [TypeChecker.inferType TypeChecker.inferNode]. rewrite Hop.
    destruct (includes ["=="; "!="; "<"; "<="; ">"; ">="; "and"; "or"] operator)
      eqn:Hcmp.
    { exfalso. cbn in Hop, Hcmp.
      repeat match goal with
             | H : context [String.eqb ?a ?b] |- _ =>
                 destruct (String.eqb_spec a b); subst; cbn in *
             end; discriminate. }
    destruct ((TypeChecker.orAny (TypeChecker.inferNode (TypeChecker.symbolTable this) lhs)
                 === "int")
              && (TypeChecker.orAny
                    (TypeChecker.inferNode (TypeChecker.symbolTable this) rhs)
                  === "int")
              && (operator !== "/")) eqn:Hint; [right | left; reflexivity].
    apply andb_true_iff in Hint. destruct Hint as [Hint Hdiv].
    apply andb_true_iff in Hint. destruct Hint as [Hl Hr].
    apply String.eqb_eq in Hl, Hr. apply negb_true_iff, String.eqb_neq in Hdiv.
    unfold TypeChecker.orAny in Hl, Hr.
    destruct (TypeChecker.truthy _) in Hl; [| discriminate].
    destruct (TypeChecker.truthy _) in Hr; [| discriminate].
    auto. }
  split; [exact Hactual |].
  cbn [TypeChecker.checkNode]. unfold TypeChecker.checkVariableDeclaration.
  rewrite Hname.
  assert (Htruthy : TypeChecker.ifTruthy (Some declaredType) = Some declaredType).
  { cbn in Htype. destruct Htype as [<- | [<- | [<- | [<- | []]]]]; reflexivity. }
  rewrite Htruthy. unfold TypeChecker.callIsCompatibleType.
  assert (Hsame : forall flag : bool,
            TypeChecker.inferType
              (if flag then TypeChecker.addStatic name this else this)
              (Some (BinaryExpression operator lhs rhs from to))
            = TypeChecker.inferType this
                (Some (BinaryExpression operator lhs rhs from to)))
    by (intros []; reflexivity).
  rewrite Hsame.
  assert (Hbad : TypeChecker.isCompatibleType declaredType
                   (TypeChecker.inferType this
                      (Some (BinaryExpression operator lhs rhs from to))) = false).
  { cbn in Htype.
    destruct Hactual as [-> | (-> & _)];
      destruct Htype as [<- | [<- | [<- | [<- | []]]]]; reflexivity. }
  rewrite Hbad. cbn [negb]. destruct isStatic; split; reflexivity.
Qed.

Lemma arithmetic_is_never_a_string_witness :
  let text := "var string s = 'a' + 'b';" in
  let init :=
    BinaryExpression "+" (Literal (VString "'a'") "'a'" (num 15) (num 18))
      (Literal (VString "'b'") "'b'" (num 21) (num 24)) (num 15) (num 24) in
  let this' :=
    TypeChecker.checkNode
      (VariableDeclaration (Some "string") "s" (Some init) false (num 0) (num 25))
      text TypeChecker.constructor in
  (TypeChecker.inferType TypeChecker.constructor (Some init) = "float"
   \/ (TypeChecker.inferType TypeChecker.constructor (Some init) = "int"
       /\ TypeChecker.inferType TypeChecker.constructor
            (Some (Literal (VString "'a'") "'a'" (num 15) (num 18))) = "int"
       /\ TypeChecker.inferType TypeChecker.constructor
            (Some (Literal (VString "'b'") "'b'" (num 21) (num 24))) = "int"
       /\ "+" <> "/"))
  /\ TypeChecker.errors this'
     = (TypeChecker.errors TypeChecker.constructor
        ++ [TypeChecker.error text (num 15) (num 24)
              ("Type mismatch: expected " ++ "string" ++ " but got "
               ++ TypeChecker.inferType TypeChecker.constructor (Some init)
               ++ " for variable '" ++ "s" ++ "'")])%list
  /\ TypeChecker.symbolTable this'
     = TypeChecker.symbolTable TypeChecker.constructor.
Proof.
  cbv zeta.
  apply (arithmetic_is_never_a_string "+"
           (Literal (VString "'a'") "'a'" (num 15) (num 18))
           (Literal (VString "'b'") "'b'" (num 21) (num 24)) (num 15) (num 24)
           "string" "s" false (num 0) (num 25) "var string s = 'a' + 'b';"
           TypeChecker.constructor).
  - reflexivity.
  - left. reflexivity.
  - reflexivity.
Defined.

(** ** Positions *)

Lemma positionLoop_end (text : string) (line char : nat) :
  TypeChecker.positionLoop text 0 line char = TypeChecker.mkPosition line char.
Proof. destruct text; reflexivity. Qed.

Lemma positionLoop_past (text : string) (index line char : nat) :
  String.length text <= index ->
  TypeChecker.positionLoop text index line char
  = TypeChecker.positionLoop text (String.length text) line char.
Proof.
  revert index line char.
  induction text as [| c text IH]; intros [| index] line char; cbn;
    try reflexivity; try lia.
  intros Hle. destruct (Ascii.eqb c "010"); apply IH; lia.
Qed.

Lemma positionLoop_app (a b : string) (k line char : nat) :
  TypeChecker.positionLoop (a ++ b) (String.length a + k) line char
  = let p := TypeChecker.positionLoop a (String.length a) line char in
    TypeChecker.positionLoop b k (TypeChecker.line p) (TypeChecker.character p).
Proof.
  revert line char. induction a as [| c a IH]; intros line char.
  - destruct b, k; reflexivity.
  - change (String c a ++ b) with (String c (a ++ b)).
    cbn [String.length Nat.add TypeChecker.positionLoop].
    destruct (Ascii.eqb c "010"); apply IH.
Qed.

Lemma length_append (a b : string) :
  String.length (a ++ b) = String.length a + String.length b.
Proof.
  induction a as [| c a IH]; [reflexivity |].
  change (String c a ++ b) with (String c (a ++ b)). cbn [String.length].
  rewrite IH. reflexivity.
Qed.

Lemma lineFeeds_app (a b : string) :
  lineFeeds (a ++ b) = lineFeeds a + lineFeeds b.
Proof.
  induction a as [| c a IH]; [reflexivity |].
  change (String c a ++ b) with (String c (a ++ b)). cbn [lineFeeds].
  rewrite IH. lia.
Qed.

Lemma positionLoop_line (s : string) (line char : nat) :
  TypeChecker.line (TypeChecker.positionLoop s (String.length s) line char)
  = line + lineFeeds s.
Proof.
  revert line char. induction s as [| c s IH]; intros line char; cbn.
  - lia.
  - destruct (Ascii.eqb c "010"); rewrite IH; lia.
Qed.

Lemma positionLoop_within_line (s : string) (line char : nat) :
  lineFeeds s = 0 ->
  TypeChecker.positionLoop s (String.length s) line char
  = TypeChecker.mkPosition line (char + String.length s).
Proof.
  revert line char. induction s as [| c s IH]; intros line char; cbn.
  - intros _. f_equal. lia.
  - destruct (Ascii.eqb c "010"); [discriminate |]. cbn. intros Hs.
    rewrite IH by exact Hs. f_equal. lia.
Qed.

(** [getPositionFromIndex] gives, for an offset of the text, the number
    of line feeds before the offset and the distance from the last of
    them: with the offset at the end of [line], a piece of text without a
    line feed that starts the text or follows a line feed, the position
    is line [lineFeeds before], character [length line].  A carriage
    return counts as a character of its line. *)
Theorem position_counts_line_feeds (before line rest : string) :
  before = "" \/ (exists b : string, before = b ++ String "010" "") ->
  lineFeeds line = 0 ->
  TypeChecker.getPositionFromIndex (before ++ line ++ rest)
    (ofNat (String.length before + String.length line))
  = TypeChecker.mkPosition (lineFeeds before) (String.length line).
Proof.
  intros Hbefore Hline. unfold TypeChecker.getPositionFromIndex, ofNat.
  rewrite Nat2Z.id, positionLoop_app. cbv zeta.
  replace (String.length line) with (String.length line + 0) at 1 by lia.
  rewrite positionLoop_app. cbv zeta. rewrite positionLoop_end.
  assert (Hstart : TypeChecker.positionLoop before (String.length before) 0 0
                   = TypeChecker.mkPosition (lineFeeds before) 0).
  { destruct Hbefore as [-> | [b ->]]; [reflexivity |].
    rewrite length_append. rewrite positionLoop_app. cbv zeta.
    cbn [String.length TypeChecker.positionLoop Ascii.eqb]. cbn.
    rewrite positionLoop_line, lineFeeds_app. cbn. f_equal. }
  rewrite Hstart. cbn [TypeChecker.line TypeChecker.character].
  rewrite positionLoop_within_line by exact Hline. reflexivity.
Qed.

Lemma position_counts_line_feeds_witness :
  let first := "var x = 1;" ++ String "010" "" in
  TypeChecker.getPositionFromIndex (first ++ "x = " ++ "'a';")
    (ofNat (String.length first + String.length "x = "))
  = TypeChecker.mkPosition (lineFeeds first) (String.length "x = ").
Proof.
  cbv zeta.
  apply (position_counts_line_feeds ("var x = 1;" ++ String "010" "") "x = " "'a';").
  - right. exists "var x = 1;". reflexivity.
  - reflexivity.
Defined.

(** An offset past the end of the text gets the position of the end of
    the text, and an offset that is negative or zero the position 0:0;
    [getPositionFromIndex] never fails and never leaves the text. *)
Theorem position_is_clamped_to_the_text (document : string) (index : Z) :
  ((Z.of_nat (String.length document) <= index)%Z ->
   TypeChecker.getPositionFromIndex document (num index)
   = TypeChecker.getPositionFromIndex document (ofNat (String.length document)))
  /\ ((index <= 0)%Z ->
      TypeChecker.getPositionFromIndex document (num index)
      = TypeChecker.mkPosition 0 0).
Proof.
  unfold TypeChecker.getPositionFromIndex, ofNat. split; intros Hindex.
  - rewrite Nat2Z.id. apply positionLoop_past. lia.
  - replace (Z.to_nat index) with 0 by lia. apply positionLoop_end.
Qed.

Lemma position_is_clamped_to_the_text_witness :
  TypeChecker.getPositionFromIndex "return;" (num 12)
  = TypeChecker.getPositionFromIndex "return;" (ofNat (String.length "return;")).
Proof.
  apply (position_is_clamped_to_the_text "return;" 12). cbn. lia.
Defined.

(** ** The server *)

(** A text with a string that is not closed gets no diagnostic at all
    from [analyzeTypeSafety]: the exception of the lexer is caught and
    logged, and neither the lexical error nor any error of the text
    before the string is reported. *)
Theorem open_string_silences_all_diagnostics
    (text : string) (e : Exception) (this' : Parser) :
  tokenize text NeutronParser.constructor = Throw e this' ->
  forall (fuel : nat) (document : string),
    Server.analyzeTypeSafety fuel text document = Some [].
Proof.
  intros Hthrow fuel document. unfold Server.analyzeTypeSafety, parse.
  destruct (isBlank text) eqn:Hblank.
  - exfalso. unfold tokenize in Hthrow.
    destruct (tokenizeLoop text (String.length text) 0 []) as [[e' | toks] |]
      eqn:Hloop; try discriminate.
    apply tokenizeLoop_throws in Hloop as (start & quote & _ & Hc & Hq).
    pose proof (isBlank_charAt _ _ _ Hblank Hc) as Hspace.
    destruct Hq as [-> | ->]; discriminate.
  - rewrite Hthrow. reflexivity.
Qed.

Lemma open_string_silences_all_diagnostics_witness :
  Server.analyzeTypeSafety 30 "var int x = 'a'; var s = 'abc" "var int x = 'a'; var s = 'abc"
  = Some [].
Proof.
  apply (open_string_silences_all_diagnostics "var int x = 'a'; var s = 'abc"
           (Error "Unterminated string at position 25")
           {| input := Some "var int x = 'a'; var s = 'abc"; tokens := [];
              position := 0; errors := [] |}).
  vm_compute. reflexivity.
Defined.

(** When the parser returns, [analyzeTypeSafety] reports every syntax
    error the parser has recorded, one diagnostic each and in the order
    they were recorded, and after them what the type checker adds. *)
Theorem syntax_errors_are_reported_first
    (fuel : nat) (text document : string) (ast : Program) (parser : Parser) :
  parse fuel text NeutronParser.constructor = Normal ast parser ->
  exists added : list TypeChecker.Diagnostic,
    Server.analyzeTypeSafety fuel text document
    = Some (map (Server.syntaxDiagnostic document) (NeutronParser.errors parser)
            ++ added)%list
    /\ added
       = drop (length (NeutronParser.errors parser))
           (TypeChecker.errors
              (TypeChecker.check ast document
                 (map (Server.syntaxDiagnostic document) (NeutronParser.errors parser))
                 TypeChecker.constructor)).
Proof.
  intros Hparse. unfold Server.analyzeTypeSafety. rewrite Hparse.
  assert (Herrors :
            match readErrors parser ast with
            | Some syntaxErrors =>
                ([] ++ map (Server.syntaxDiagnostic document) syntaxErrors)%list
            | None => []
            end
            = map (Server.syntaxDiagnostic document) (NeutronParser.errors parser)).
  { unfold readErrors. destruct (errorsField ast) eqn:Hfield; [reflexivity |].
    unfold parse in Hparse. destruct (isBlank text).
    - injection Hparse as <- <-. reflexivity.
    - destruct (tokenize text NeutronParser.constructor); try discriminate.
      match type of Hparse with
      | match ?loop with _ => _ end = _ => destruct loop; try discriminate
      end.
      injection Hparse as <- <-. discriminate. }
  cbv zeta. rewrite Herrors.
  assert (Hprefix :
            map (Server.syntaxDiagnostic document) (NeutronParser.errors parser)
            `prefix_of`
            TypeChecker.errors
              (TypeChecker.check ast document
                 (map (Server.syntaxDiagnostic document) (NeutronParser.errors parser))
                 TypeChecker.constructor)).
  { unfold TypeChecker.check.
    match goal with
    | |- _ `prefix_of` TypeChecker.errors (TypeChecker.forEach _ _ ?start) =>
        apply (forEach_nodes_appends (body ast)
                 (list_all_forall _ _ checkNode_appends _) document start)
    end. }
  destruct Hprefix as [added Heq]. exists added. rewrite Heq.
  split; [reflexivity |].
  rewrite drop_app_length'; [reflexivity |]. rewrite length_map. reflexivity.
Qed.

Lemma syntax_errors_are_reported_first_witness :
  let text := "var int x = 'a'" in
  let ast :=
    {| body :=
         [VariableDeclaration (Some "int") "x"
            (Some (Literal (VString "'a'") "'a'" (num 12) (num 15)))
            false (num 0) (num 9)];
       errorsField := true |} in
  let parser :=
    {| input := Some text;
       tokens :=
         [mkToken KEYWORD "var" 0 3; mkToken KEYWORD "int" 4 7;
          mkToken IDENTIFIER "x" 8 9; mkToken SYMBOL "=" 10 11;
          mkToken STRING "'a'" 12 15];
       position := 5;
       errors :=
         [mkParseError "Missing semicolon at end of variable declaration"
            (num 9) (num 15)] |} in
  exists added : list TypeChecker.Diagnostic,
    Server.analyzeTypeSafety 30 text text
    = Some (map (Server.syntaxDiagnostic text) (NeutronParser.errors parser)
            ++ added)%list
    /\ added
       = drop (length (NeutronParser.errors parser))
           (TypeChecker.errors
              (TypeChecker.check ast text
                 (map (Server.syntaxDiagnostic text) (NeutronParser.errors parser))
                 TypeChecker.constructor)).
Proof.
  cbv zeta.
  apply (syntax_errors_are_reported_first 30 "var int x = 'a'" "var int x = 'a'").
  vm_compute. reflexivity.
Defined.

(** ** What the parser does to its own state *)

Lemma extends_refl (this : Parser) : extends this this.
Proof. unfold extends. repeat split; try reflexivity; lia. Qed.

Lemma extends_trans (a b c : Parser) :
  extends a b -> extends b c -> extends a c.
Proof.
  unfold extends. intros (Hi & Ht & He & Hp) (Hi' & Ht' & He' & Hp').
  rewrite <- Ht in Hp'.
  repeat split; try congruence; try lia. etrans; eassumption.
Qed.

Lemma extends_nextToken (this : Parser) : extends this (nextToken this).
Proof.
  unfold extends, nextToken.
  destruct (position this <? length (tokens this)) eqn:Hlt; cbn;
    repeat split; try reflexivity; try lia.
  apply Nat.ltb_lt in Hlt. lia.
Qed.

Lemma extends_addError (message : string) (start end_ : Num) (this : Parser) :
  extends this (addError message start end_ this).
Proof.
  unfold extends, addError. cbn. repeat split; try lia.
  apply prefix_app_r. reflexivity.
Qed.

Lemma extends_addErrorHere (message : string) (this : Parser) :
  extends this (addErrorHere message this).
Proof. apply extends_addError. Qed.

Lemma extends_skipUntilLoop (stops : list string) (fuel : nat) (this : Parser) :
  extends this (skipUntilLoop stops fuel this).
Proof.
  revert this. induction fuel as [| fuel IH]; intros this; cbn;
    [apply extends_refl |].
  destruct (currentToken this); [| apply extends_refl].
  destruct (includes stops (tvalue t)); [apply extends_refl |].
  eapply extends_trans; [apply extends_nextToken | apply IH].
Qed.

Lemma extends_skipUntil (stops : list string) (this : Parser) :
  extends this (skipUntil stops this).
Proof. apply extends_skipUntilLoop. Qed.

Lemma extends_recoverClose (stops : list string) (this : Parser) :
  extends this (recoverClose stops this).
Proof.
  unfold recoverClose. destruct (curIs (skipUntil stops this) ")").
  - eapply extends_trans; [apply extends_skipUntil | apply extends_nextToken].
  - apply extends_skipUntil.
Qed.

Lemma extends_skipToNextStatementLoop (fuel : nat) (this : Parser) :
  extends this (skipToNextStatementLoop fuel this).
Proof.
  revert this. induction fuel as [| fuel IH]; intros this; cbn;
    [apply extends_refl |].
  destruct (currentToken this); [| apply extends_refl].
  repeat case_match; try apply extends_refl; try apply extends_nextToken.
  eapply extends_trans; [apply extends_nextToken | apply IH].
Qed.

Lemma extends_skipToNextStatement (this : Parser) :
  extends this (skipToNextStatement this).
Proof. apply extends_skipToNextStatementLoop. Qed.

Lemma extends_parseParamsLoop (fuel : nat) (params : list string) (this : Parser) :
  extends this (snd (parseParamsLoop fuel params this)).
Proof.
  revert params this. induction fuel as [| fuel IH]; intros params this; cbn;
    [apply extends_refl |].
  destruct (curIs this ","); [| apply extends_refl].
  destruct (currentToken (nextToken this)) as [token |].
  - destruct (TokenType_eqb (ttype token) IDENTIFIER).
    + eapply extends_trans; [apply extends_nextToken |].
      eapply extends_trans; [apply extends_nextToken | apply IH].
    + eapply extends_trans; [apply extends_nextToken | apply IH].
  - eapply extends_trans; [apply extends_nextToken | apply IH].
Qed.

Lemma keepsParser_from {A : Type} (c : M A) (a b : Parser) :
  extends a b -> keepsParser c b -> keepsParser c a.
Proof.
  destruct c; cbn; trivial; intros; eapply extends_trans; eassumption.
Qed.

(** Case analysis on [x]; when [x] is a call for which a fact is at hand,
    the fact is recorded first. *)
Ltac keeps_destruct x :=
  first
    [ match goal with
      | IH : (forall this, keepsParser (?f ?fuel this) this) |- _ =>
          lazymatch x with
          | f fuel ?s =>
              let H := fresh "Hkeeps" in
              pose proof (IH s) as H; destruct x; cbn [keepsParser] in H
          end
      end
    | match goal with
      | IH : (forall y this, keepsParser (?f ?fuel y this) this) |- _ =>
          lazymatch x with
          | f fuel ?y ?s =>
              let H := fresh "Hkeeps" in
              pose proof (IH y s) as H; destruct x; cbn [keepsParser] in H
          end
      end
    | lazymatch x with
      | parseParamsLoop ?n ?p ?s =>
          let H := fresh "Hkeeps" in
          pose proof (extends_parseParamsLoop n p s) as H;
          destruct x; cbn [snd] in H
      end
    | destruct x ].

Ltac keeps_step :=
  lazymatch goal with
  | |- keepsParser ?t _ =>
      lazymatch t with
      | match _ with _ => _ end =>
          let x := head_scrutinee t in keeps_destruct x; cbv beta iota
      end
  end.

Ltac extends_solve :=
  repeat match goal with
         | |- extends ?a ?a => apply extends_refl
         | |- extends _ (if ?b then _ else _) => destruct b
         | |- extends _ (match ?o with Some _ => _ | None => _ end) => destruct o
         | |- extends _ (nextToken _) =>
             eapply extends_trans; [| apply extends_nextToken]
         | |- extends _ (addError _ _ _ _) =>
             eapply extends_trans; [| apply extends_addError]
         | |- extends _ (addErrorHere _ _) =>
             eapply extends_trans; [| apply extends_addErrorHere]
         | |- extends _ (skipUntil _ _) =>
             eapply extends_trans; [| apply extends_skipUntil]
         | |- extends _ (recoverClose _ _) =>
             eapply extends_trans; [| apply extends_recoverClose]
         | |- extends _ (skipToNextStatement _) =>
             eapply extends_trans; [| apply extends_skipToNextStatement]
         | H : extends ?b ?c |- extends _ ?c =>
             eapply extends_trans; [| exact H]
         end.

Ltac keeps_done :=
  lazymatch goal with
  | |- keepsParser (Normal _ _) _ => cbn [keepsParser]; extends_solve
  | |- keepsParser (Throw _ _) _ => cbn [keepsParser]; extends_solve
  | |- keepsParser Diverge _ => exact I
  | |- keepsParser (_ _ ?s) _ =>
      apply keepsParser_from with (b := s); [extends_solve | solve [auto]]
  end.

Ltac keeps :=
  cbv [some withStart throwAt findEndOfLine]; cbv zeta;
  repeat keeps_step; keeps_done.

Lemma expressions_keep_parser (fuel : nat) :
  ExpressionsEach (fun _ A c this => keepsParser c this) fuel.
Proof.
  induction fuel as [| fuel IH].
  - repeat split; intros; exact I.
  - destruct IH as (IH1 & IH2 & IH3 & IH4 & IH5 & IH6 & IH7 & IH8 & IH9 & IH10
                    & IH11 & IH12 & IH13 & IH14 & IH15 & IH16 & IH17 & IH18
                    & IH19 & IH20 & IH21 & IH22 & IH23).
    unfold ExpressionsEach.
    repeat match goal with |- _ /\ _ => split end; intros.
    all: cbn [parseExpression parseLogicalOr parseLogicalOrLoop parseLogicalAnd
                parseLogicalAndLoop parseEquality parseEqualityLoop
                parseRelational parseRelationalLoop parseAdditive
                parseAdditiveLoop parseMultiplicative parseMultiplicativeLoop
                parseUnary parsePrimary parseExpressionsLoop parseCallExpression
                parseMemberExpression parseArrayExpression parseObjectExpression
                parsePropertiesLoop parseObjectProperty parseThrowStatement].
    all: keeps.
Qed.

Lemma parseVariableDeclaration_keeps (fuel : nat) (this : Parser) :
  keepsParser (parseVariableDeclaration fuel this) this.
Proof.
  pose proof (proj1 (expressions_keep_parser fuel)) as IH. cbv beta in IH.
  unfold parseVariableDeclaration. keeps.
Qed.

Lemma parseAssignmentExpression_keeps (fuel : nat) (lhs : Node) (this : Parser) :
  keepsParser (parseAssignmentExpression fuel lhs this) this.
Proof.
  pose proof (proj1 (expressions_keep_parser fuel)) as IH. cbv beta in IH.
  unfold parseAssignmentExpression. keeps.
Qed.

Lemma parseExpressionStatement_keeps (fuel : nat) (this : Parser) :
  keepsParser (parseExpressionStatement fuel this) this.
Proof.
  pose proof (proj1 (expressions_keep_parser fuel)) as IH. cbv beta in IH.
  pose proof (parseAssignmentExpression_keeps fuel) as IHassign.
  unfold parseExpressionStatement. keeps.
Qed.

Lemma parseReturnStatement_keeps (fuel : nat) (this : Parser) :
  keepsParser (parseReturnStatement fuel this) this.
Proof.
  pose proof (proj1 (expressions_keep_parser fuel)) as IH. cbv beta in IH.
  unfold parseReturnStatement. keeps.
Qed.

Lemma statements_keep_parser (fuel : nat) :
  StatementsEach (fun A c this => keepsParser c this) fuel.
Proof.
  induction fuel as [| fuel IH].
  - repeat split; intros; exact I.
  - destruct IH as (IH1 & IH2 & IH3 & IH4 & IH5 & IH6 & IH7 & IH8 & IH9 & IH10
                    & IH11 & IH12 & IH13 & IH14 & IH15 & IH16 & IH17).
    pose proof (proj1 (expressions_keep_parser fuel)) as IHexpr. cbv beta in IHexpr.
    pose proof (parseVariableDeclaration_keeps fuel) as IHvar.
    pose proof (parseExpressionStatement_keeps fuel) as IHstmt.
    pose proof (parseReturnStatement_keeps fuel) as IHreturn.
    unfold StatementsEach.
    repeat match goal with |- _ /\ _ => split end; intros.
    all: cbn [parseStatement parseIfStatement parseBlock parseBlockLoop
                parseWhileStatement parseForStatement parseFunctionDeclaration
                parseClassDeclaration parseDoWhileStatement parseMatchStatement
                parseMatchStatementLoop parseMatchCase parseMatchDefault
                parseRetryStatement parseTryStatement parseCatchClause
                parseFinallyClause].
    all: keeps.
Qed.

Lemma parseLoop_keeps (fuel : nat) (statements : list Node) (this : Parser) :
  match parseLoop fuel statements this with
  | Normal _ this' => extends this this' /\ length (tokens this') <= position this'
  | Throw _ this' => extends this this'
  | Diverge => True
  end.
Proof.
  revert statements this.
  induction fuel as [| fuel IH]; intros statements this; [exact I |].
  cbn [parseLoop].
  destruct (position this <? length (tokens this)) eqn:Hlt.
  - pose proof (proj1 (statements_keep_parser fuel) this) as Hstmt.
    cbv beta in Hstmt.
    destruct (parseStatement fuel this) as [stmt this1 | e this1 |];
      cbn [keepsParser] in Hstmt; [| exact Hstmt | exact I].
    match goal with
    | |- match parseLoop fuel ?l this1 with _ => _ end =>
        specialize (IH l this1); destruct (parseLoop fuel l this1)
    end.
    + destruct IH as [Hext Hend]. split; [| exact Hend].
      eapply extends_trans; eassumption.
    + eapply extends_trans; eassumption.
    + exact I.
  - apply Nat.ltb_ge in Hlt. split; [apply extends_refl | exact Hlt].
Qed.

(** [parse] never empties and never reorders the errors of the parser:
    the errors recorded before the call come first in the errors of the
    parser after it, and so in the [errors] property of the result, which
    is that same array.  Only a blank text gives a result without the
    property. *)
Theorem parse_only_appends_errors
    (fuel : nat) (text : string) (this this' : Parser) (ast : Program) :
  parse fuel text this = Normal ast this' ->
  exists added : list ParseError,
    errors this' = (errors this ++ added)%list
    /\ (readErrors this' ast = Some (errors this ++ added)%list
        \/ (isBlank text = true /\ added = [] /\ readErrors this' ast = None)).
Proof.
  unfold parse. destruct (isBlank text).
  - intros [= <- <-]. exists []. rewrite app_nil_r. split; [reflexivity |].
    right. auto.
  - unfold tokenize.
    destruct (tokenizeLoop text (String.length text) 0 []) as [[e | toks] |];
      try discriminate.
    match goal with
    | |- match parseLoop fuel [] ?start with _ => _ end = _ -> _ =>
        pose proof (parseLoop_keeps fuel [] start) as Hloop;
        destruct (parseLoop fuel [] start) as [statements this1 | |];
        try discriminate
    end.
    intros [= <- <-]. destruct Hloop as [(_ & _ & [added Hadded] & _) _].
    cbn in Hadded. exists added. split; [exact Hadded |]. left.
    unfold readErrors. cbn. rewrite Hadded. reflexivity.
Qed.

Lemma parse_only_appends_errors_witness :
  let e := mkParseError "Missing semicolon at end of variable declaration"
             (num 5) (num 9) in
  let this :=
    {| input := Some "var x = 5";
       tokens :=
         [mkToken KEYWORD "var" 0 3; mkToken IDENTIFIER "x" 4 5;
          mkToken SYMBOL "=" 6 7; mkToken NUMBER "5" 8 9];
       position := 4; errors := [e] |} in
  let ast :=
    {| body :=
         [VariableDeclaration None "x"
            (Some (Literal (VNumber (JsNumber.ofString "5")) "5" (num 8) (num 9)))
            false (num 0) (num 5)];
       errorsField := true |} in
  let this' :=
    {| input := Some "var x = 5"; tokens := tokens this; position := 4;
       errors := [e; e] |} in
  exists added : list ParseError,
    errors this' = (errors this ++ added)%list
    /\ (readErrors this' ast = Some (errors this ++ added)%list
        \/ (isBlank "var x = 5" = true /\ added = []
            /\ readErrors this' ast = None)).
Proof.
  cbv zeta.
  apply (parse_only_appends_errors 30 "var x = 5").
  vm_compute. reflexivity.
Defined.

(** When [parse] returns for a text that is not blank, the parser holds
    the text and the tokens of [tokenize], and the cursor is at the end
    of the tokens: every token has been consumed or skipped. *)
Theorem parse_consumes_every_token
    (fuel : nat) (text : string) (this this' : Parser) (ast : Program) :
  isBlank text = false ->
  parse fuel text this = Normal ast this' ->
  input this' = Some text
  /\ position this' = length (tokens this')
  /\ exists other : Parser, tokenize text this = Normal (tokens this') other.
Proof.
  intros Hblank. unfold parse. rewrite Hblank. unfold tokenize.
  destruct (tokenizeLoop text (String.length text) 0 []) as [[e | toks] |];
    try discriminate.
  match goal with
  | |- match parseLoop fuel [] ?start with _ => _ end = _ -> _ =>
      pose proof (parseLoop_keeps fuel [] start) as Hloop;
      destruct (parseLoop fuel [] start) as [statements this1 | |];
      try discriminate
  end.
  intros [= <- <-]. destruct Hloop as [(Hinput & Htokens & _ & Hposition) Hend].
  cbn in Hinput, Htokens, Hposition. rewrite <- Htokens in Hend.
  split; [congruence |]. split; [rewrite <- Htokens; lia |].
  eexists. rewrite <- Htokens. reflexivity.
Qed.

Lemma parse_consumes_every_token_witness :
  let this' :=
    {| input := Some "x = 1 2 3;";
       tokens :=
         [mkToken IDENTIFIER "x" 0 1; mkToken SYMBOL "=" 2 3;
          mkToken NUMBER "1" 4 5; mkToken NUMBER "2" 6 7;
          mkToken NUMBER "3" 8 9; mkToken SYMBOL ";" 9 10];
       position := 6; errors := [] |} in
  input this' = Some "x = 1 2 3;"
  /\ position this' = length (tokens this')
  /\ exists other : Parser,
       tokenize "x = 1 2 3;" constructor = Normal (tokens this') other.
Proof.
  cbv zeta.
  apply (parse_consumes_every_token 30 "x = 1 2 3;" constructor _
           {| body :=
                [AssignmentExpression "="
                   (Identifier "x" (num 0) (num 1))
                   (Literal (VNumber (JsNumber.ofString "1")) "1" (num 4) (num 5))
                   (num 0) (num 5)];
              errorsField := true |}).
  - reflexivity.
  - vm_compute. reflexivity.
Defined.

(** ** The end of the expression parser *)

Lemma remaining_next_le (this : Parser) :
  remaining (nextToken this) <= remaining this.
Proof.
  unfold remaining, nextToken.
  destruct (position this <? length (tokens this)); cbn; lia.
Qed.

Lemma remaining_next_lt (this : Parser) (token : Token) :
  currentToken this = Some token ->
  remaining (nextToken this) < remaining this.
Proof.
  unfold remaining, nextToken, currentToken.
  destruct (position this <? length (tokens this)) eqn:Hlt; [| discriminate].
  apply Nat.ltb_lt in Hlt. cbn. lia.
Qed.

Lemma remaining_next_lt' (this : Parser) (token : Token) :
  currentToken (nextToken this) = Some token ->
  remaining (nextToken this) < remaining this.
Proof.
  unfold remaining, nextToken, currentToken.
  destruct (position this <? length (tokens this)) eqn:Hlt.
  - apply Nat.ltb_lt in Hlt. cbn. lia.
  - rewrite Hlt. discriminate.
Qed.

Lemma curIs_current (this : Parser) (v : string) :
  curIs this v = true -> exists token, currentToken this = Some token.
Proof. unfold curIs. destruct (currentToken this); [eauto | discriminate]. Qed.

Lemma curIsNot_current (this : Parser) (v : string) :
  curIsNot this v = true -> exists token, currentToken this = Some token.
Proof. unfold curIsNot. destruct (currentToken this); [eauto | discriminate]. Qed.

(** The facts at hand about the current token become facts about the
    number of tokens left after [nextToken]. *)
Ltac note_current :=
  repeat match goal with
         | H : _ && _ = true |- _ =>
             apply andb_true_iff in H; destruct H
         | H : negb _ = false |- _ => apply negb_false_iff in H
         | H : curIs ?s ?v = true |- _ =>
             apply curIs_current in H; destruct H
         | H : curIsNot ?s ?v = true |- _ =>
             apply curIsNot_current in H; destruct H
         end;
  repeat match goal with
         | H : currentToken (nextToken ?s) = Some ?t |- _ =>
             lazymatch goal with
             | _ : remaining (nextToken s) < remaining s |- _ => fail
             | _ => pose proof (remaining_next_lt' s t H)
             end
         | H : currentToken ?s = Some ?t |- _ =>
             lazymatch goal with
             | _ : remaining (nextToken s) < remaining s |- _ => fail
             | _ => pose proof (remaining_next_lt s t H)
             end
         end;
  repeat match goal with
         | |- context [nextToken ?s] =>
             lazymatch goal with
             | _ : remaining (nextToken s) <= remaining s |- _ => fail
             | _ => pose proof (remaining_next_le s)
             end
         end.

Ltac finish_destruct x :=
  first
    [ match goal with
      | IH : (forall this, enough ?r (remaining this) <= ?fuel ->
                           finishes ?r (?f ?fuel this) this) |- _ =>
          lazymatch x with
          | f fuel ?s =>
              let Hpre := fresh "Hpre" in
              let H := fresh "Hfinishes" in
              assert (Hpre : enough r (remaining s) <= fuel)
                by (note_current; unfold enough in *; lia);
              pose proof (IH s Hpre) as H; clear Hpre;
              destruct x; cbn [finishes Nat.eqb] in H; [| | contradiction]
          end
      end
    | match goal with
      | IH : (forall y this, enough ?r (remaining this) <= ?fuel ->
                             finishes ?r (?f ?fuel y this) this) |- _ =>
          lazymatch x with
          | f fuel ?y ?s =>
              let Hpre := fresh "Hpre" in
              let H := fresh "Hfinishes" in
              assert (Hpre : enough r (remaining s) <= fuel)
                by (note_current; unfold enough in *; lia);
              pose proof (IH y s Hpre) as H; clear Hpre;
              destruct x; cbn [finishes Nat.eqb] in H; [| | contradiction]
          end
      end
    | destruct x eqn:? ].

Ltac finish_step :=
  lazymatch goal with
  | |- finishes _ ?t _ =>
      lazymatch t with
      | match _ with _ => _ end =>
          let x := head_scrutinee t in finish_destruct x; cbv beta iota
      end
  end.

Ltac finish_done :=
  lazymatch goal with
  | |- finishes _ (Normal _ _) _ =>
      cbn [finishes Nat.eqb];
      repeat match goal with
             | |- context [if ?b then _ else _] => destruct b eqn:?
             end;
      note_current; unfold enough in *; lia
  | |- finishes _ (Throw _ _) _ => exact I
  | |- finishes _ (?f ?fuel ?s) _ =>
      let x := constr:(f fuel s) in
      finish_destruct x; finish_done
  | |- finishes _ (?f ?fuel ?y ?s) _ =>
      let x := constr:(f fuel y s) in
      finish_destruct x; finish_done
  end.

Ltac finishing :=
  cbv [some withStart throwAt]; cbv zeta; repeat finish_step; finish_done.

Lemma expressions_finish (fuel : nat) :
  ExpressionsEach
    (fun rank A c this => enough rank (remaining this) <= fuel -> finishes rank c this)
    fuel.
Proof.
  induction fuel as [| fuel IH].
  - repeat split; intros; unfold enough in *; lia.
  - destruct IH as (IH1 & IH2 & IH3 & IH4 & IH5 & IH6 & IH7 & IH8 & IH9 & IH10
                    & IH11 & IH12 & IH13 & IH14 & IH15 & IH16 & IH17 & IH18
                    & IH19 & IH20 & IH21 & IH22 & IH23).
    cbv beta in *.
    unfold ExpressionsEach.
    repeat match goal with |- _ /\ _ => split end; intros.
    all: cbn [parseExpression parseLogicalOr parseLogicalOrLoop parseLogicalAnd
                parseLogicalAndLoop parseEquality parseEqualityLoop
                parseRelational parseRelationalLoop parseAdditive
                parseAdditiveLoop parseMultiplicative parseMultiplicativeLoop
                parseUnary parsePrimary parseExpressionsLoop parseCallExpression
                parseMemberExpression parseArrayExpression parseObjectExpression
                parsePropertiesLoop parseObjectProperty parseThrowStatement].
    all: finishing.
Qed.

(** [parseExpression] always comes to an end, whatever the tokens: with
    fuel for twelve nested calls per token left, and eleven more, it
    returns or throws, and more fuel changes nothing.  When it returns it
    has consumed at least one token and has not gone past the last. *)
Theorem expression_parser_terminates (this : Parser) (more : nat) :
  match parseExpression (12 * remaining this + 11 + more) this with
  | Normal _ this' =>
      tokens this' = tokens this
      /\ position this < position this' <= length (tokens this)
  | Throw _ _ => True
  | Diverge => False
  end.
Proof.
  pose proof (proj1 (expressions_finish (12 * remaining this + 11)) this) as Hfinishes.
  cbv beta in Hfinishes. specialize (Hfinishes ltac:(unfold enough; lia)).
  pose proof (proj1 (expressions_stable (12 * remaining this + 11)
                       (12 * remaining this + 11 + more) ltac:(lia)) this) as Hstable.
  pose proof (proj1 (expressions_keep_parser (12 * remaining this + 11)) this) as Hkeeps.
  cbv beta in Hkeeps. unfold stable in Hstable.
  destruct (parseExpression (12 * remaining this + 11) this) as [expr this' | e this' |];
    [| | contradiction]; rewrite Hstable by discriminate; [| exact I].
  cbn [finishes Nat.eqb] in Hfinishes. cbn [keepsParser] in Hkeeps.
  destruct Hkeeps as (_ & Htokens & _ & Hposition).
  unfold remaining in Hfinishes. rewrite <- Htokens in Hfinishes.
  split; [congruence | lia].
Qed.

(** ** Texts without braces *)

Lemma extends_remaining (a b : Parser) :
  extends a b -> remaining b <= remaining a.
Proof.
  unfold extends, remaining. intros (_ & Htokens & _ & Hposition).
  rewrite <- Htokens. lia.
Qed.

Lemma extends_braceFree (a b : Parser) :
  extends a b -> braceFree a -> braceFree b.
Proof. unfold extends, braceFree. intros (_ & Htokens & _). congruence. Qed.

Lemma braceFree_current (this : Parser) (token : Token) :
  braceFree this -> currentToken this = Some token -> isBrace token = false.
Proof.
  unfold braceFree, currentToken. intros Hfree Hcurrent.
  destruct (position this <? length (tokens this)); [| discriminate].
  apply nth_error_In in Hcurrent.
  rewrite forallb_forall in Hfree. apply Hfree in Hcurrent.
  apply negb_true_iff in Hcurrent. exact Hcurrent.
Qed.

Lemma braceFree_curIs (this : Parser) :
  braceFree this -> curIs this "{" = false.
Proof.
  intros Hfree. unfold curIs.
  destruct (currentToken this) as [token |] eqn:Hcurrent; [| reflexivity].
  pose proof (braceFree_current _ _ Hfree Hcurrent) as Hbrace.
  unfold isBrace in Hbrace. apply orb_false_iff in Hbrace as [Hopen _].
  exact Hopen.
Qed.

(** Where [skipUntil] stops before the end of the tokens, the token is
    one of those it looks for. *)
Lemma skipUntilLoop_stops (stops : list string) (fuel : nat) (this : Parser)
    (token : Token) :
  remaining this <= fuel ->
  currentToken (skipUntilLoop stops fuel this) = Some token ->
  includes stops (tvalue token) = true.
Proof.
  revert this. induction fuel as [| fuel IH]; intros this Hfuel; cbn.
  - unfold currentToken, remaining in *.
    destruct (position this <? length (tokens this)) eqn:Hlt; [| discriminate].
    apply Nat.ltb_lt in Hlt. lia.
  - destruct (currentToken this) as [current |] eqn:Hcurrent;
      [| rewrite Hcurrent; discriminate].
    destruct (includes stops (tvalue current)) eqn:Hstop.
    + rewrite Hcurrent. intros [= <-]. exact Hstop.
    + apply IH. pose proof (remaining_next_lt _ _ Hcurrent). lia.
Qed.

Lemma skipUntil_stops (stops : list string) (this : Parser) (token : Token) :
  currentToken (skipUntil stops this) = Some token ->
  includes stops (tvalue token) = true.
Proof. apply skipUntilLoop_stops. unfold remaining. lia. Qed.

Lemma braceFree_skipUntil (this : Parser) (token : Token) :
  braceFree this -> currentToken (skipUntil ["{"] this) = Some token -> False.
Proof.
  intros Hfree Hcurrent.
  pose proof (skipUntil_stops _ _ _ Hcurrent) as Hstop.
  pose proof (braceFree_current _ _
                (extends_braceFree _ _ (extends_skipUntil _ _) Hfree) Hcurrent)
    as Hbrace.
  unfold isBrace in Hbrace. cbn in Hstop. rewrite orb_false_r in Hstop.
  rewrite Hstop in Hbrace. discriminate.
Qed.

(** After the first token has been consumed, what follows leaves fewer
    tokens than there were. *)
Lemma remaining_after_first (this this' : Parser) :
  (exists token, currentToken this = Some token) ->
  extends (nextToken this) this' -> remaining this' < remaining this.
Proof.
  intros [token Hcurrent] Hextends.
  pose proof (remaining_next_lt _ _ Hcurrent).
  pose proof (extends_remaining _ _ Hextends). lia.
Qed.

(** The premise of a fact about a call, from the facts at hand: the state
    [s] of the call descends from the state [this0] the method was entered
    with. *)
Ltac premise_solve :=
  lazymatch goal with
  | |- braceFree ?s =>
      match goal with
      | Hfree : braceFree ?this0 |- _ =>
          apply (extends_braceFree this0); [solve [extends_solve] | exact Hfree]
      end
  | |- exists token, currentToken ?s = Some token =>
      first
        [ match goal with
          | H : currentToken s = Some ?t |- _ => exists t; exact H
          | H : curIs s _ = true |- _ => exact (curIs_current _ _ H)
          | H : curIsNot s _ = true |- _ => exact (curIsNot_current _ _ H)
          | H : negb (curIs s ?v) = false |- _ =>
              apply negb_false_iff in H; exact (curIs_current _ _ H)
          end ]
  | |- enough _ (remaining ?s) <= _ =>
      match goal with
      | Hfuel : enough _ (remaining ?this0) <= _ |- _ =>
          try (assert (remaining s < remaining this0)
                by (apply remaining_after_first;
                    [assumption | solve [extends_solve]]));
          try (assert (remaining s <= remaining this0)
                by (apply extends_remaining; solve [extends_solve]));
          unfold enough in *; lia
      end
  end.

Ltac feed H :=
  repeat lazymatch type of H with
         | ?A -> _ =>
             let Ha := fresh "Hpremise" in
             assert (Ha : A) by premise_solve;
             specialize (H Ha); clear Ha
         end.

(** The facts at hand about the call [x]: that it comes to an end, and
    what it does to the parser. *)
Ltac end_facts x :=
  first
    [ lazymatch x with
      | ?f ?fuel ?y ?s =>
          match goal with
          | IH : (forall z this, _ -> _) |- _ =>
              lazymatch type of IH with
              | context [f fuel] =>
                  let H := fresh "Hends" in
                  pose proof (IH y s) as H; feed H
              end
          end;
          match goal with
          | K : (forall z this, keepsParser (f fuel z this) this) |- _ =>
              let H := fresh "Hkeeps" in pose proof (K y s) as H
          end
      end
    | lazymatch x with
      | ?f ?fuel ?s =>
          match goal with
          | IH : (forall this, _ -> _) |- _ =>
              lazymatch type of IH with
              | context [f fuel] =>
                  let H := fresh "Hends" in
                  pose proof (IH s) as H; feed H
              end
          end;
          match goal with
          | K : (forall this, keepsParser (f fuel this) this) |- _ =>
              let H := fresh "Hkeeps" in pose proof (K s) as H
          end
      end ].

Ltac end_destruct x :=
  first
    [ end_facts x; destruct x;
      cbn [keepsParser finishes Nat.eqb] in *;
      [ | | first [contradiction | congruence] ]
    | lazymatch x with
      | parseParamsLoop ?n ?p ?s =>
          let H := fresh "Hkeeps" in
          pose proof (extends_parseParamsLoop n p s) as H;
          destruct x; cbn [snd] in H
      end
    | lazymatch x with
      | parseBlockLoop _ _ _ => exfalso
      | parseMatchStatementLoop _ _ _ => exfalso
      end;
      match goal with
      | Hfree : braceFree ?this0, H : curIs ?s "{" = true |- _ =>
          rewrite (braceFree_curIs s) in H;
          [discriminate | apply (extends_braceFree this0);
                          [solve [extends_solve] | exact Hfree]]
      | Hfree : braceFree ?this0, H : negb (curIs ?s "{") = false |- _ =>
          rewrite (braceFree_curIs s) in H;
          [discriminate | apply (extends_braceFree this0);
                          [solve [extends_solve] | exact Hfree]]
      | Hfree : braceFree ?this0,
        H : currentToken (skipUntil ["{"] ?s) = Some _ |- _ =>
          apply (braceFree_skipUntil s _) in H;
          [exact H | apply (extends_braceFree this0);
                     [solve [extends_solve] | exact Hfree]]
      end
    | destruct x eqn:? ].

Ltac end_step :=
  lazymatch goal with
  | |- ?t <> Diverge =>
      lazymatch t with
      | match _ with _ => _ end =>
          let x := head_scrutinee t in end_destruct x; cbv beta iota
      end
  end.

Ltac end_done :=
  lazymatch goal with
  | |- Normal _ _ <> Diverge => discriminate
  | |- Throw _ _ <> Diverge => discriminate
  | |- ?t <> Diverge => end_destruct t; discriminate
  end.

Ltac ending :=
  cbv [some withStart throwAt findEndOfLine]; cbv zeta;
  repeat end_step; end_done.

Lemma parseVariableDeclaration_ends (fuel : nat) (this : Parser) :
  enough 10 (remaining this) <= fuel ->
  parseVariableDeclaration fuel this <> Diverge.
Proof.
  intros Hfuel.
  pose proof (proj1 (expressions_finish fuel)) as IH. cbv beta in IH.
  pose proof (proj1 (expressions_keep_parser fuel)) as K. cbv beta in K.
  unfold parseVariableDeclaration. ending.
Qed.

Lemma parseAssignmentExpression_ends (fuel : nat) (lhs : Node) (this : Parser) :
  enough 10 (remaining this) <= fuel ->
  parseAssignmentExpression fuel lhs this <> Diverge.
Proof.
  intros Hfuel.
  pose proof (proj1 (expressions_finish fuel)) as IH. cbv beta in IH.
  pose proof (proj1 (expressions_keep_parser fuel)) as K. cbv beta in K.
  unfold parseAssignmentExpression. ending.
Qed.

Lemma parseExpressionStatement_ends (fuel : nat) (this : Parser) :
  enough 10 (remaining this) <= fuel ->
  parseExpressionStatement fuel this <> Diverge.
Proof.
  intros Hfuel.
  pose proof (proj1 (expressions_finish fuel)) as IH. cbv beta in IH.
  pose proof (proj1 (expressions_keep_parser fuel)) as K. cbv beta in K.
  pose proof (parseAssignmentExpression_ends fuel) as IHassign.
  pose proof (parseAssignmentExpression_keeps fuel) as Kassign.
  unfold parseExpressionStatement. ending.
Qed.

Lemma parseReturnStatement_ends (fuel : nat) (this : Parser) :
  enough 10 (remaining this) <= fuel ->
  parseReturnStatement fuel this <> Diverge.
Proof.
  intros Hfuel.
  pose proof (proj1 (expressions_finish fuel)) as IH. cbv beta in IH.
  pose proof (proj1 (expressions_keep_parser fuel)) as K. cbv beta in K.
  unfold parseReturnStatement. ending.
Qed.

Lemma statements_end (fuel : nat) : StatementsEnd fuel.
Proof.
  induction fuel as [| fuel IH].
  - unfold StatementsEnd. cbv zeta beta.
    repeat match goal with |- _ /\ _ => split end; intros;
      unfold enough in *; lia.
  - unfold StatementsEnd in IH. cbv zeta beta in IH.
    destruct IH as (IH1 & IH2 & IH3 & IH4 & IH5 & IH6 & IH7 & IH8 & IH9 & IH10
                    & IH11 & IH12 & IH13).
    pose proof (proj1 (expressions_finish fuel)) as IHexpr. cbv beta in IHexpr.
    pose proof (parseVariableDeclaration_ends fuel) as IHvar.
    pose proof (parseExpressionStatement_ends fuel) as IHstmt.
    pose proof (parseReturnStatement_ends fuel) as IHreturn.
    pose proof (proj1 (expressions_keep_parser fuel)) as Kexpr. cbv beta in Kexpr.
    pose proof (parseVariableDeclaration_keeps fuel) as Kvar.
    pose proof (parseExpressionStatement_keeps fuel) as Kstmt.
    pose proof (parseReturnStatement_keeps fuel) as Kreturn.
    destruct (statements_keep_parser fuel)
      as (K1 & K2 & K3 & K4 & K5 & K6 & K7 & K8 & K9 & K10
          & K11 & K12 & K13 & K14 & K15 & K16 & K17).
    cbv beta in *.
    unfold StatementsEnd. cbv zeta beta.
    repeat match goal with |- _ /\ _ => split end;
      intros this Hfree; intros.
    all: cbn [parseStatement parseIfStatement parseBlock parseBlockLoop
                parseWhileStatement parseForStatement parseFunctionDeclaration
                parseClassDeclaration parseDoWhileStatement parseMatchStatement
                parseMatchStatementLoop parseMatchCase parseMatchDefault
                parseRetryStatement parseTryStatement parseCatchClause
                parseFinallyClause].
    all: ending.
Qed.

(** A method entered on a token consumes it first: what it does to the
    parser, it does after [nextToken]. *)
Lemma statements_consume_first (fuel : nat) (this : Parser) (token : Token) :
  currentToken this = Some token ->
  keepsParser (parseVariableDeclaration fuel this) (nextToken this)
  /\ keepsParser (parseReturnStatement fuel this) (nextToken this)
  /\ keepsParser (parseIfStatement fuel this) (nextToken this)
  /\ keepsParser (parseWhileStatement fuel this) (nextToken this)
  /\ keepsParser (parseDoWhileStatement fuel this) (nextToken this)
  /\ keepsParser (parseForStatement fuel this) (nextToken this)
  /\ keepsParser (parseFunctionDeclaration fuel this) (nextToken this)
  /\ keepsParser (parseClassDeclaration fuel this) (nextToken this)
  /\ keepsParser (parseMatchStatement fuel this) (nextToken this)
  /\ keepsParser (parseRetryStatement fuel this) (nextToken this)
  /\ keepsParser (parseTryStatement fuel this) (nextToken this).
Proof.
  intros Hcurrent.
  assert (Hplain :
            keepsParser (parseVariableDeclaration fuel this) (nextToken this)
            /\ keepsParser (parseReturnStatement fuel this) (nextToken this)).
  { pose proof (proj1 (expressions_keep_parser fuel)) as IH. cbv beta in IH.
    split.
    - unfold parseVariableDeclaration. rewrite Hcurrent. keeps.
    - unfold parseReturnStatement. rewrite Hcurrent. keeps. }
  destruct Hplain as [Hvar Hreturn].
  split; [exact Hvar |]. split; [exact Hreturn |].
  destruct fuel as [| fuel]; [repeat split |].
  pose proof (proj1 (expressions_keep_parser fuel)) as IHexpr. cbv beta in IHexpr.
  pose proof (parseVariableDeclaration_keeps fuel) as Kvar.
  pose proof (parseExpressionStatement_keeps fuel) as Kstmt.
  pose proof (parseReturnStatement_keeps fuel) as Kreturn.
  destruct (statements_keep_parser fuel)
    as (K1 & K2 & K3 & K4 & K5 & K6 & K7 & K8 & K9 & K10
        & K11 & K12 & K13 & K14 & K15 & K16 & K17).
  cbv beta in *.
  repeat match goal with |- _ /\ _ => split end.
  all: cbn [parseIfStatement parseWhileStatement parseForStatement
              parseFunctionDeclaration parseClassDeclaration
              parseDoWhileStatement parseMatchStatement parseRetryStatement
              parseTryStatement];
    rewrite ?Hcurrent.
  all: keeps.
Qed.

Lemma keepsParser_level {A B : Type} (lower : M A) (loop : A -> Parser -> M B)
    (from : Parser) :
  keepsParser lower from ->
  (forall a this, keepsParser (loop a this) this) ->
  keepsParser (do a with this <- lower; loop a this) from.
Proof.
  intros Hlower Hloop. destruct lower as [a this | e this |]; cbn in *; trivial.
  eapply keepsParser_from; [exact Hlower | apply Hloop].
Qed.

(** An expression that starts with an identifier token has that token
    consumed before anything else happens, also when it throws. *)
Lemma expression_consumes_identifier (fuel : nat) (this : Parser) (token : Token) :
  currentToken this = Some token -> ttype token = IDENTIFIER ->
  keepsParser (parseExpression fuel this) (nextToken this).
Proof.
  intros Hcurrent Htype.
  assert (Hprimary : forall fuel, keepsParser (parsePrimary fuel this) (nextToken this)).
  { intros [| n]; [exact I |].
    destruct (expressions_keep_parser n)
      as (IH1 & IH2 & IH3 & IH4 & IH5 & IH6 & IH7 & IH8 & IH9 & IH10
          & IH11 & IH12 & IH13 & IH14 & IH15 & IH16 & IH17 & IH18
          & IH19 & IH20 & IH21 & IH22 & IH23).
    cbv beta in *.
    cbn [parsePrimary]. rewrite Hcurrent. cbv zeta. rewrite Htype.
    cbn [TokenType_eqb]. keeps. }
  assert (Hunary : forall fuel, keepsParser (parseUnary fuel this) (nextToken this)).
  { intros [| n]; [exact I |].
    destruct (expressions_keep_parser n)
      as (IH1 & IH2 & IH3 & IH4 & IH5 & IH6 & IH7 & IH8 & IH9 & IH10
          & IH11 & IH12 & IH13 & IH14 & IH15 & IH16 & IH17 & IH18
          & IH19 & IH20 & IH21 & IH22 & IH23).
    cbv beta in *.
    cbn [parseUnary]. rewrite Hcurrent.
    destruct (tvalue token === "not"); [keeps | apply Hprimary]. }
  assert (Hmultiplicative :
            forall fuel, keepsParser (parseMultiplicative fuel this) (nextToken this)).
  { intros [| n]; [exact I |]. cbn [parseMultiplicative].
    apply keepsParser_level; [apply Hunary |].
    apply (expressions_keep_parser n). }
  assert (Hadditive :
            forall fuel, keepsParser (parseAdditive fuel this) (nextToken this)).
  { intros [| n]; [exact I |]. cbn [parseAdditive].
    apply keepsParser_level; [apply Hmultiplicative |].
    apply (expressions_keep_parser n). }
  assert (Hrelational :
            forall fuel, keepsParser (parseRelational fuel this) (nextToken this)).
  { intros [| n]; [exact I |]. cbn [parseRelational].
    apply keepsParser_level; [apply Hadditive |].
    apply (expressions_keep_parser n). }
  assert (Hequality :
            forall fuel, keepsParser (parseEquality fuel this) (nextToken this)).
  { intros [| n]; [exact I |]. cbn [parseEquality].
    apply keepsParser_level; [apply Hrelational |].
    apply (expressions_keep_parser n). }
  assert (Hand :
            forall fuel, keepsParser (parseLogicalAnd fuel this) (nextToken this)).
  { intros [| n]; [exact I |]. cbn [parseLogicalAnd].
    apply keepsParser_level; [apply Hequality |].
    apply (expressions_keep_parser n). }
  assert (Hor :
            forall fuel, keepsParser (parseLogicalOr fuel this) (nextToken this)).
  { intros [| n]; [exact I |]. cbn [parseLogicalOr].
    apply keepsParser_level; [apply Hand |].
    apply (expressions_keep_parser n). }
  destruct fuel as [| n]; [exact I |]. cbn [parseExpression]. apply Hor.
Qed.

Lemma parseExpressionStatement_consumes_identifier
    (fuel : nat) (this : Parser) (token : Token) :
  currentToken this = Some token -> ttype token = IDENTIFIER ->
  keepsParser (parseExpressionStatement fuel this) (nextToken this).
Proof.
  intros Hcurrent Htype.
  pose proof (expression_consumes_identifier fuel _ _ Hcurrent Htype) as Hfirst.
  pose proof (parseAssignmentExpression_keeps fuel) as IHassign.
  unfold parseExpressionStatement.
  destruct (parseExpression fuel this) as [expr this1 | e this1 |];
    cbn [keepsParser] in Hfirst; [| exact Hfirst | exact I].
  keeps.
Qed.

Lemma skipToNextStatement_consumes (this : Parser) (token : Token) :
  currentToken this = Some token ->
  isBrace token = false -> isStatementStart token = false ->
  remaining (skipToNextStatement this) < remaining this.
Proof.
  intros Hcurrent Hbrace Hstart.
  pose proof (remaining_next_lt _ _ Hcurrent) as Hnext.
  unfold skipToNextStatement. fold (remaining this).
  destruct (remaining this) as [| n] eqn:Hremaining; [lia |].
  cbn [skipToNextStatementLoop]. rewrite Hcurrent.
  destruct (tvalue token === ";"); [exact Hnext |].
  unfold isBrace in Hbrace. rewrite orb_comm in Hbrace.
  rewrite Hbrace, Hstart.
  pose proof (extends_remaining _ _
                (extends_skipToNextStatementLoop n (nextToken this))).
  lia.
Qed.

(** Entered on a token that is not a brace, [parseStatement] consumes at
    least that token. *)
Lemma parseStatement_consumes (fuel : nat) (this this' : Parser)
    (token : Token) (result : option Node) :
  currentToken this = Some token -> isBrace token = false ->
  parseStatement fuel this = Normal result this' ->
  remaining this' < remaining this.
Proof.
  intros Hcurrent Hbrace.
  destruct fuel as [| fuel]; [discriminate |].
  cbn [parseStatement]. rewrite Hcurrent. cbv zeta.
  destruct (statements_consume_first fuel _ _ Hcurrent)
    as (F1 & F2 & F3 & F4 & F5 & F6 & F7 & F8 & F9 & F10 & F11).
  pose proof (parseExpressionStatement_consumes_identifier fuel _ _ Hcurrent)
    as F12.
  assert (Hafter : forall s, extends (nextToken this) s -> remaining s < remaining this)
    by (intros s; apply remaining_after_first; eauto).
  assert (Hcaught :
            forall c : M Node,
              keepsParser c (nextToken this) ->
              (let attempt := some c in
               match attempt with
               | Throw e this0 =>
                   Normal None
                     (skipToNextStatement
                        (addError (message e) (ofNat (tstart token))
                           (ofNat (tend token)) this0))
               | completed => completed
               end) = Normal result this' ->
              remaining this' < remaining this).
  { intros c Hkeeps. cbv zeta.
    destruct c as [a s | e s |]; cbn [some keepsParser] in *;
      [| | discriminate]; intros [= <- <-]; apply Hafter; [exact Hkeeps |].
    eapply extends_trans; [exact Hkeeps |].
    eapply extends_trans; [apply extends_addError |].
    apply extends_skipToNextStatement. }
  cbv zeta in Hcaught.
  repeat match goal with
         | |- match (if ?b then _ else _) with _ => _ end = _ -> _ =>
             let H := fresh "Htest" in
             destruct b eqn:H; [apply Hcaught; assumption |]
         end.
  destruct (TokenType_eqb (ttype token) IDENTIFIER) eqn:Hidentifier.
  - apply Hcaught, F12.
    destruct (ttype token); try discriminate. reflexivity.
  - intros [= <- <-]. apply (skipToNextStatement_consumes _ _ Hcurrent Hbrace).
    unfold isStatementStart, statementStarters, includes. cbn [existsb].
    apply orb_false_iff in Htest as [_ Hvar].
    repeat match goal with
           | H : _ = false |- _ => rewrite H; clear H
           end.
    reflexivity.
Qed.

Lemma parseLoop_ends (fuel : nat) (statements : list Node) (this : Parser) :
  braceFree this -> enough 16 (remaining this) <= fuel ->
  exists (result : list Node) (this' : Parser),
    parseLoop fuel statements this = Normal result this'.
Proof.
  revert statements this.
  induction fuel as [| fuel IH]; intros statements this Hfree Hfuel;
    [unfold enough in Hfuel; lia |].
  cbn [parseLoop].
  destruct (position this <? length (tokens this)) eqn:Hlt; [| eauto].
  pose proof (proj1 (statements_end fuel) this Hfree
                ltac:(unfold enough in *; lia)) as Hends.
  pose proof (proj1 (statements_keep_parser fuel) this) as Hkeeps.
  cbv beta in Hkeeps.
  destruct (currentToken this) as [token |] eqn:Hcurrent;
    [| unfold currentToken in Hcurrent; rewrite Hlt in Hcurrent;
       apply Nat.ltb_lt in Hlt; apply nth_error_None in Hcurrent; lia].
  pose proof (braceFree_current _ _ Hfree Hcurrent) as Hbrace.
  destruct (parseStatement fuel this) as [stmt this1 | e this1 |] eqn:Hstmt;
    [| exfalso; exact (parseStatement_never_throws _ _ _ _ Hstmt)
     | contradiction].
  pose proof (parseStatement_consumes _ _ _ _ _ Hcurrent Hbrace Hstmt).
  apply IH; [exact (extends_braceFree _ _ Hkeeps Hfree) |].
  unfold enough in *. lia.
Qed.

(** On a text without a brace among its tokens, [parse] returns: it
    does not throw, and with fuel for twelve nested calls per token and
    seventeen more it does not run out of fuel.  A text on which [parse]
    does not return holds a brace. *)
Theorem parse_returns_without_braces
    (text : string) (this other : Parser) (result : list Token) (more : nat) :
  tokenize text this = Normal result other ->
  forallb (fun token => negb (isBrace token)) result = true ->
  exists (ast : Program) (this' : Parser),
    parse (12 * length result + 17 + more) text this = Normal ast this'.
Proof.
  intros Htokens Hfree. unfold parse.
  destruct (isBlank text); [eauto |]. rewrite Htokens.
  match goal with
  | |- context [parseLoop ?fuel [] ?start] =>
      destruct (parseLoop_ends fuel [] start) as (statements & this' & ->)
  end.
  - exact Hfree.
  - unfold enough, remaining. cbn. lia.
  - eauto.
Qed.

Lemma parse_returns_without_braces_witness :
  exists (ast : Program) (this' : Parser),
    parse (12 * 18 + 17 + 0) "var x = 1; if (x y = 2; else fun ( 3 + ;"
      constructor
    = Normal ast this'.
Proof.
  apply (parse_returns_without_braces "var x = 1; if (x y = 2; else fun ( 3 + ;"
           constructor
           {| input := Some "var x = 1; if (x y = 2; else fun ( 3 + ;";
              tokens := []; position := 0; errors := [] |}
           [mkToken KEYWORD "var" 0 3; mkToken IDENTIFIER "x" 4 5;
            mkToken SYMBOL "=" 6 7; mkToken NUMBER "1" 8 9;
            mkToken SYMBOL ";" 9 10; mkToken KEYWORD "if" 11 13;
            mkToken SYMBOL "(" 14 15; mkToken IDENTIFIER "x" 15 16;
            mkToken IDENTIFIER "y" 17 18; mkToken SYMBOL "=" 19 20;
            mkToken NUMBER "2" 21 22; mkToken SYMBOL ";" 22 23;
            mkToken KEYWORD "else" 24 28; mkToken KEYWORD "fun" 29 32;
            mkToken SYMBOL "(" 33 34; mkToken NUMBER "3" 35 36;
            mkToken SYMBOL "+" 37 38; mkToken SYMBOL ";" 39 40] 0).
  - vm_compute. reflexivity.
  - vm_compute. reflexivity.
Defined.

(** ** Statements that start with a literal *)

Lemma currentToken_ahead (this : Parser) :
  currentToken this = head (ahead this).
Proof.
  unfold currentToken, ahead.
  destruct (position this <? length (tokens this)) eqn:Hlt.
  - rewrite <- (take_drop (position this) (tokens this)) at 1.
    apply Nat.ltb_lt in Hlt.
    rewrite nth_error_app2 by (rewrite length_take; lia).
    rewrite length_take. replace (position this - _) with 0 by lia.
    destruct (drop (position this) (tokens this)); reflexivity.
  - apply Nat.ltb_ge in Hlt. rewrite drop_ge by exact Hlt. reflexivity.
Qed.

Lemma ahead_extends (a b : Parser) :
  extends a b -> ahead b = drop (position b - position a) (ahead a).
Proof.
  unfold extends, ahead. intros (_ & Htokens & _ & Hposition).
  rewrite drop_drop, <- Htokens. f_equal. lia.
Qed.

Lemma forallb_drop {A : Type} (p : A -> bool) (n : nat) (l : list A) :
  forallb p l = true -> forallb p (drop n l) = true.
Proof.
  revert n. induction l as [| x l IH]; intros [| n]; cbn; trivial.
  intros [_ Hl]%andb_true_iff. apply IH. exact Hl.
Qed.

Lemma startsNoStatement_skipped (fuel : nat) (this : Parser) (token : Token) :
  currentToken this = Some token -> startsNoStatement token = true ->
  parseStatement (S fuel) this = Normal None (skipToNextStatement this)
  /\ remaining (skipToNextStatement this) < remaining this.
Proof.
  intros Hcurrent Hinert. unfold startsNoStatement in Hinert.
  apply andb_true_iff in Hinert. destruct Hinert as [Hinert Hbrace].
  apply andb_true_iff in Hinert. destruct Hinert as [Hidentifier Hwords].
  apply negb_true_iff in Hidentifier, Hwords, Hbrace.
  unfold includes in Hwords. cbn [existsb] in Hwords.
  repeat match type of Hwords with
         | _ || _ = false =>
             apply orb_false_iff in Hwords;
             let H := fresh "Hword" in destruct Hwords as [H Hwords]
         end.
  split.
  - cbn [parseStatement]. rewrite Hcurrent. cbv zeta.
    repeat match goal with
           | H : (tvalue token === _) = false |- _ => rewrite H; clear H
           end.
    rewrite Hidentifier. reflexivity.
  - apply (skipToNextStatement_consumes _ _ Hcurrent Hbrace).
    unfold isStatementStart, statementStarters, includes. cbn [existsb].
    repeat match goal with
           | H : (tvalue token === _) = false |- _ => rewrite H; clear H
           end.
    rewrite Hidentifier. reflexivity.
Qed.

Lemma parseLoop_skips (fuel : nat) (statements : list Node) (this : Parser) :
  forallb startsNoStatement (ahead this) = true ->
  remaining this < fuel ->
  exists this' : Parser,
    parseLoop fuel statements this = Normal statements this'
    /\ extends this this' /\ errors this' = errors this.
Proof.
  revert this. induction fuel as [| fuel IH]; intros this Hinert Hfuel; [lia |].
  cbn [parseLoop].
  destruct (position this <? length (tokens this)) eqn:Hlt;
    [| exists this; split; [reflexivity | split; [apply extends_refl | reflexivity]]].
  destruct (currentToken this) as [token |] eqn:Hcurrent;
    [| unfold currentToken in Hcurrent; rewrite Hlt in Hcurrent;
       apply Nat.ltb_lt in Hlt; apply nth_error_None in Hcurrent; lia].
  assert (Htoken : startsNoStatement token = true).
  { rewrite currentToken_ahead in Hcurrent.
    destruct (ahead this) as [| first rest]; [discriminate |].
    injection Hcurrent as ->. cbn in Hinert.
    apply andb_true_iff in Hinert. tauto. }
  destruct fuel as [| fuel].
  { apply Nat.ltb_lt in Hlt. unfold remaining in Hfuel. lia. }
  destruct (startsNoStatement_skipped fuel _ _ Hcurrent Htoken) as [-> Hless].
  pose proof (extends_skipToNextStatement this) as Hskip.
  destruct (IH (skipToNextStatement this)) as (this' & Hloop & Hextends & Herrors).
  - rewrite (ahead_extends _ _ Hskip). apply forallb_drop. exact Hinert.
  - lia.
  - exists this'. split; [exact Hloop |].
    split; [eapply extends_trans; eassumption |].
    rewrite Herrors. unfold skipToNextStatement.
    clear. generalize (length (tokens this) - position this). intros n.
    revert this. induction n as [| n IHn]; intros this; cbn; [reflexivity |].
    destruct (currentToken this); [| reflexivity].
    repeat case_match; try reflexivity.
    + unfold nextToken. case_match; reflexivity.
    + rewrite IHn. unfold nextToken. case_match; reflexivity.
Qed.

(** A text whose tokens start no statement (numbers, strings,
    operators, symbols other than braces, and keywords such as [else],
    [true] or [nil]) is parsed to the empty program, and no error is
    recorded: the statements of such a text, as [1 + 2;], are skipped
    without a trace. *)
Theorem statements_of_literals_are_dropped
    (text : string) (this other : Parser) (result : list Token) (more : nat) :
  isBlank text = false ->
  tokenize text this = Normal result other ->
  forallb startsNoStatement result = true ->
  exists this' : Parser,
    parse (S (length result) + more) text this
    = Normal {| body := []; errorsField := true |} this'
    /\ errors this' = errors this.
Proof.
  intros Hblank Htokens Hinert. unfold parse. rewrite Hblank, Htokens.
  match goal with
  | |- context [parseLoop ?fuel [] ?start] =>
      destruct (parseLoop_skips fuel [] start) as (this' & -> & _ & Herrors)
  end.
  - exact Hinert.
  - unfold remaining. cbn. lia.
  - exists this'. split; [reflexivity |]. rewrite Herrors.
    unfold tokenize in Htokens.
    destruct (tokenizeLoop text (String.length text) 0 []) as [[e | toks] |];
      try discriminate.
    injection Htokens as _ <-. reflexivity.
Qed.

Lemma statements_of_literals_are_dropped_witness :
  exists this' : Parser,
    parse (S 10 + 0) "1 + 2; 'text'; true else;" constructor
    = Normal {| body := []; errorsField := true |} this'
    /\ errors this' = errors constructor.
Proof.
  apply (statements_of_literals_are_dropped "1 + 2; 'text'; true else;"
           constructor
           {| input := Some "1 + 2; 'text'; true else;"; tokens := [];
              position := 0; errors := [] |}
           [mkToken NUMBER "1" 0 1; mkToken SYMBOL "+" 2 3; mkToken NUMBER "2" 4 5;
            mkToken SYMBOL ";" 5 6; mkToken STRING "'text'" 7 13;
            mkToken SYMBOL ";" 13 14; mkToken KEYWORD "true" 15 19;
            mkToken KEYWORD "else" 20 24; mkToken SYMBOL ";" 24 25] 0).
  - reflexivity.
  - vm_compute. reflexivity.
  - vm_compute. reflexivity.
Defined.

(** ** Precedence and associativity *)

Lemma drop_next {A : Type} (n : nat) (l : list A) (x : A) (rest : list A) :
  drop n l = x :: rest -> drop (S n) l = rest /\ n < length l.
Proof.
  revert n. induction l as [| y l IH]; intros [| n]; cbn; try discriminate.
  - intros [= _ ->]. split; [apply drop_0 | lia].
  - intros H. apply IH in H as [H1 H2]. split; [exact H1 | lia].
Qed.

Lemma ahead_nextToken (this : Parser) (token : Token) (rest : list Token) :
  ahead this = token :: rest ->
  ahead (nextToken this) = rest /\ sameButCursor this (nextToken this).
Proof.
  intros Hahead. split; [| apply sameButCursor_nextToken].
  unfold ahead in *. apply drop_next in Hahead as [Hrest Hlt].
  unfold nextToken. apply Nat.ltb_lt in Hlt. rewrite Hlt. cbn.
  replace (position this + 1) with (S (position this)) by lia. exact Hrest.
Qed.

Lemma curIs_ahead (this : Parser) (v : string) :
  curIs this v = match ahead this with
                 | token :: _ => tvalue token === v
                 | [] => false
                 end.
Proof.
  unfold curIs. rewrite currentToken_ahead. destruct (ahead this); reflexivity.
Qed.

Lemma operand_parsed (fuel : nat) (this : Parser) (token : Token)
    (rest : list Token) :
  ahead this = token :: rest -> isOperand token = true ->
  returnsWith (parseUnary (2 + fuel) this) (numberLiteral token) this rest.
Proof.
  intros Hahead Hoperand. unfold isOperand in Hoperand.
  apply andb_true_iff in Hoperand. destruct Hoperand as [Hnumber Hnot].
  apply negb_true_iff in Hnot.
  destruct (ahead_nextToken _ _ _ Hahead) as [Hnext Hsame].
  exists (nextToken this). split; [| split; assumption].
  cbn [Nat.add parseUnary]. rewrite currentToken_ahead, Hahead. cbn [head].
  rewrite Hnot. cbn [parsePrimary]. rewrite currentToken_ahead, Hahead.
  cbn [head]. cbv zeta. rewrite Hnumber. reflexivity.
Qed.

Lemma factors_parsed (factors : list (Token * Token)) :
  forall (fuel : nat) (expr : Node) (this : Parser) (rest : list Token),
    ahead this
    = (flat_map (fun factor : Token * Token => [fst factor; snd factor]) factors
       ++ rest)%list ->
    forallb (fun factor : Token * Token =>
               includes ["*"; "/"; "%"] (tvalue (fst factor))
               && isOperand (snd factor)) factors = true ->
    match rest with
    | token :: _ => includes ["*"; "/"; "%"] (tvalue token) = false
    | [] => True
    end ->
    length factors + 2 <= fuel ->
    returnsWith (parseMultiplicativeLoop fuel expr this)
      (fold_left (fun expr (factor : Token * Token) =>
                    binary expr (fst factor) (numberLiteral (snd factor)))
         factors expr) this rest.
Proof.
  induction factors as [| [operator number] factors IH];
    intros fuel expr this rest Hahead Hok Hrest Hfuel;
    (destruct fuel as [| fuel]; [cbn in Hfuel; lia |]);
    cbn [parseMultiplicativeLoop]; rewrite currentToken_ahead, Hahead.
  - exists this. cbn [flat_map app fold_left].
    split; [| split; [exact Hahead | apply sameButCursor_refl]].
    destruct rest as [| token rest]; cbn [head]; [reflexivity |].
    rewrite Hrest. reflexivity.
  - cbn [flat_map app head fst snd forallb length fold_left] in *.
    apply andb_true_iff in Hok. destruct Hok as [Hfactor Hok].
    apply andb_true_iff in Hfactor. destruct Hfactor as [Hoperator Hnumber].
    rewrite Hoperator.
    destruct (ahead_nextToken _ _ _ Hahead) as [Hnext Hsame].
    destruct fuel as [| [| fuel]]; [lia | lia |].
    destruct (operand_parsed fuel _ _ _ Hnext Hnumber)
      as (this1 & Hparsed & Hahead1 & Hsame1).
    cbn [Nat.add] in Hparsed. rewrite Hparsed.
    destruct (IH (S (S fuel))
                (binary expr operator (numberLiteral number)) this1 rest
                Hahead1 Hok Hrest ltac:(lia))
      as (this2 & Hloop & Hahead2 & Hsame2).
    exists this2. split; [exact Hloop |]. split; [exact Hahead2 |].
    eapply sameButCursor_trans; [exact Hsame |].
    eapply sameButCursor_trans; eassumption.
Qed.

Lemma product_parsed (product : Product) (fuel : nat) (this : Parser)
    (rest : list Token) :
  ahead this = (productTokens product ++ rest)%list ->
  isProduct product = true ->
  match rest with
  | token :: _ => includes ["*"; "/"; "%"] (tvalue token) = false
  | [] => True
  end ->
  length (snd product) + 3 <= fuel ->
  returnsWith (parseMultiplicative fuel this) (productTree product) this rest.
Proof.
  destruct product as [first factors].
  unfold productTokens, isProduct, productTree.
  cbn [fst snd app]. intros Hahead Hok Hrest Hfuel.
  apply andb_true_iff in Hok. destruct Hok as [Hfirst Hok].
  destruct fuel as [| [| [| fuel]]]; try lia.
  cbn [parseMultiplicative].
  destruct (operand_parsed fuel _ _ _ Hahead Hfirst)
    as (this1 & Hparsed & Hahead1 & Hsame1).
  cbn [Nat.add] in Hparsed. rewrite Hparsed.
  destruct (factors_parsed factors (S (S fuel)) (numberLiteral first) this1 rest
              Hahead1 Hok Hrest ltac:(lia))
    as (this2 & Hloop & Hahead2 & Hsame2).
  exists this2. split; [exact Hloop |]. split; [exact Hahead2 |].
  eapply sameButCursor_trans; eassumption.
Qed.

Lemma length_productTokens (product : Product) :
  length (snd product) + 1 <= length (productTokens product).
Proof.
  destruct product as [first factors]. unfold productTokens. cbn [fst snd length].
  induction factors as [| factor factors IH]; cbn [flat_map app length] in *; lia.
Qed.

Ltac apart H :=
  unfold includes in H; cbn [existsb] in H;
  repeat (let Hfirst := fresh "Hfirst" in
          apply orb_false_iff in H; destruct H as [Hfirst H]).

Lemma sign_is_no_product_operator (v : string) :
  includes ["+"; "-"] v = true -> includes ["*"; "/"; "%"] v = false.
Proof.
  unfold includes. cbn [existsb]. intros H.
  apply orb_true_iff in H. destruct H as [H | H];
    [| apply orb_true_iff in H; destruct H as [H | H]; [| discriminate H]];
    apply String.eqb_eq in H; subst v; reflexivity.
Qed.

Lemma endsExpression_head (rest : list Token) :
  endsExpression (head rest) = true ->
  match rest with
  | token :: _ =>
      includes ["+"; "-"; "*"; "/"; "%"; "<"; "<="; ">"; ">="; "=="; "!=";
                "and"; "or"] (tvalue token) = false
  | [] => True
  end.
Proof.
  destruct rest as [| token rest]; cbn [head endsExpression]; [exact (fun _ => I) |].
  intros H. apply negb_true_iff in H. exact H.
Qed.

Lemma endsExpression_product (rest : list Token) :
  endsExpression (head rest) = true ->
  match rest with
  | token :: _ => includes ["*"; "/"; "%"] (tvalue token) = false
  | [] => True
  end.
Proof.
  intros H. apply endsExpression_head in H.
  destruct rest as [| token rest]; [exact I |].
  apart H. unfold includes. cbn [existsb].
  repeat match goal with
         | E : (_ =? _)%string = false |- _ => rewrite E; clear E
         end.
  reflexivity.
Qed.

Lemma terms_parsed (terms : list (Token * Product)) :
  forall (fuel : nat) (expr : Node) (this : Parser) (rest : list Token),
    ahead this
    = (flat_map (fun term : Token * Product => fst term :: productTokens (snd term))
         terms ++ rest)%list ->
    forallb (fun term : Token * Product =>
               includes ["+"; "-"] (tvalue (fst term)) && isProduct (snd term))
      terms = true ->
    endsExpression (head rest) = true ->
    length (flat_map (fun term : Token * Product =>
                        fst term :: productTokens (snd term)) terms) + 2 <= fuel ->
    returnsWith (parseAdditiveLoop fuel expr this)
      (fold_left (fun expr (term : Token * Product) =>
                    binary expr (fst term) (productTree (snd term)))
         terms expr) this rest.
Proof.
  induction terms as [| [operator product] terms IH];
    intros fuel expr this rest Hahead Hok Hrest Hfuel;
    (destruct fuel as [| fuel]; [cbn in Hfuel; lia |]);
    cbn [parseAdditiveLoop]; rewrite currentToken_ahead, Hahead.
  - exists this. cbn [flat_map app fold_left].
    split; [| split; [exact Hahead | apply sameButCursor_refl]].
    apply endsExpression_head in Hrest.
    destruct rest as [| token rest]; cbn [head]; [reflexivity |].
    apart Hrest.
    repeat match goal with
           | E : (_ =? _)%string = false |- _ => rewrite ?E; clear E
           end.
    reflexivity.
  - cbn [flat_map app head fst snd forallb length fold_left] in *.
    rewrite <- app_assoc in Hahead.
    apply andb_true_iff in Hok. destruct Hok as [Hterm Hok].
    apply andb_true_iff in Hterm. destruct Hterm as [Hoperator Hproduct].
    assert (Hsign : (tvalue operator === "+") || (tvalue operator === "-") = true).
    { unfold includes in Hoperator. cbn [existsb] in Hoperator.
      rewrite orb_false_r in Hoperator. exact Hoperator. }
    rewrite Hsign.
    destruct (ahead_nextToken _ _ _ Hahead) as [Hnext Hsame].
    pose proof (length_productTokens product) as Hlength.
    rewrite length_app in Hfuel.
    assert (Hfollows :
              match (flat_map (fun term : Token * Product =>
                                 fst term :: productTokens (snd term)) terms
                     ++ rest)%list with
              | token :: _ => includes ["*"; "/"; "%"] (tvalue token) = false
              | [] => True
              end).
    { destruct terms as [| [operator' product'] terms'].
      - cbn [flat_map app]. apply endsExpression_product. exact Hrest.
      - cbn [flat_map app fst snd forallb] in *.
        apply andb_true_iff in Hok. destruct Hok as [Hterm' _].
        apply andb_true_iff in Hterm'. destruct Hterm' as [Hoperator' _].
        apply sign_is_no_product_operator. exact Hoperator'. }
    destruct (product_parsed product fuel (nextToken this) _ Hnext Hproduct
                Hfollows ltac:(lia))
      as (this1 & Hparsed & Hahead1 & Hsame1).
    rewrite Hparsed.
    destruct (IH fuel (binary expr operator (productTree product)) this1 rest
                Hahead1 Hok Hrest ltac:(lia))
      as (this2 & Hloop & Hahead2 & Hsame2).
    exists this2. split; [exact Hloop |]. split; [exact Hahead2 |].
    eapply sameButCursor_trans; [exact Hsame |].
    eapply sameButCursor_trans; eassumption.
Qed.

Lemma sum_parsed (sum : Sum) (fuel : nat) (this : Parser) (rest : list Token) :
  ahead this = (sumTokens sum ++ rest)%list ->
  isSum sum = true ->
  endsExpression (head rest) = true ->
  length (sumTokens sum) + 3 <= fuel ->
  returnsWith (parseAdditive fuel this) (sumTree sum) this rest.
Proof.
  destruct sum as [product terms]. unfold sumTokens, isSum, sumTree.
  cbn [fst snd]. intros Hahead Hok Hrest Hfuel.
  apply andb_true_iff in Hok. destruct Hok as [Hproduct Hok].
  rewrite <- app_assoc in Hahead. rewrite length_app in Hfuel.
  pose proof (length_productTokens product) as Hlength.
  destruct fuel as [| fuel]; [lia |].
  cbn [parseAdditive].
  assert (Hfollows :
            match (flat_map (fun term : Token * Product =>
                               fst term :: productTokens (snd term)) terms
                   ++ rest)%list with
            | token :: _ => includes ["*"; "/"; "%"] (tvalue token) = false
            | [] => True
            end).
  { destruct terms as [| [operator' product'] terms'].
    - cbn [flat_map app]. apply endsExpression_product. exact Hrest.
    - cbn [flat_map app fst snd forallb] in *.
      apply andb_true_iff in Hok. destruct Hok as [Hterm' _].
      apply andb_true_iff in Hterm'. destruct Hterm' as [Hoperator' _].
      apply sign_is_no_product_operator. exact Hoperator'. }
  destruct (product_parsed product fuel this _ Hahead Hproduct Hfollows ltac:(lia))
    as (this1 & Hparsed & Hahead1 & Hsame1).
  rewrite Hparsed.
  destruct (terms_parsed terms fuel (productTree product) this1 rest
              Hahead1 Hok Hrest ltac:(lia))
    as (this2 & Hloop & Hahead2 & Hsame2).
  exists this2. split; [exact Hloop |]. split; [exact Hahead2 |].
  eapply sameButCursor_trans; eassumption.
Qed.

Lemma loops_end (fuel : nat) (expr : Node) (this : Parser) :
  endsExpression (head (ahead this)) = true ->
  parseRelationalLoop (S fuel) expr this = Normal expr this
  /\ parseEqualityLoop (S fuel) expr this = Normal expr this
  /\ parseLogicalAndLoop (S fuel) expr this = Normal expr this
  /\ parseLogicalOrLoop (S fuel) expr this = Normal expr this.
Proof.
  intros Hrest. apply endsExpression_head in Hrest.
  cbn [parseRelationalLoop parseEqualityLoop parseLogicalAndLoop
       parseLogicalOrLoop].
  rewrite !curIs_ahead, !currentToken_ahead.
  destruct (ahead this) as [| token rest]; cbn [head]; [repeat split |].
  apart Hrest. unfold includes. cbn [existsb].
  repeat match goal with
         | E : (_ =? _)%string = false |- _ => rewrite E; cbn [orb]; clear E
         end.
  repeat split.
Qed.

(** Precedence and associativity: when the tokens ahead are a sum of
    products of numbers, followed by no binary operator, [parseExpression]
    returns the sum nested to the left, each product being one operand
    nested to the left in turn; it stops before the token that follows and
    reports no error. *)
Theorem sums_of_products_nest_to_the_left
    (sum : Sum) (this : Parser) (rest : list Token) (fuel : nat) :
  isSum sum = true ->
  ahead this = (sumTokens sum ++ rest)%list ->
  endsExpression (head rest) = true ->
  length (sumTokens sum) + 8 <= fuel ->
  exists this' : Parser,
    parseExpression fuel this = Normal (sumTree sum) this'
    /\ ahead this' = rest
    /\ errors this' = errors this.
Proof.
  intros Hsum Hahead Hrest Hfuel.
  destruct fuel as [| [| [| [| [| [| fuel]]]]]]; try lia.
  destruct (sum_parsed sum (S fuel) this rest Hahead Hsum Hrest ltac:(lia))
    as (this' & Hparsed & Hahead' & Hsame).
  exists this'. split; [| split; [exact Hahead' | symmetry; apply Hsame]].
  rewrite <- Hahead' in Hrest.
  destruct (loops_end fuel (sumTree sum) this' Hrest) as (Hrelational & _).
  destruct (loops_end (S fuel) (sumTree sum) this' Hrest) as (_ & Hequality & _).
  destruct (loops_end (S (S fuel)) (sumTree sum) this' Hrest)
    as (_ & _ & Hand & _).
  destruct (loops_end (S (S (S fuel))) (sumTree sum) this' Hrest)
    as (_ & _ & _ & Hor).
  cbn [parseExpression parseLogicalOr parseLogicalAnd parseEquality
       parseRelational].
  rewrite Hparsed, Hrelational, Hequality, Hand, Hor. reflexivity.
Qed.

Lemma sums_of_products_nest_to_the_left_witness :
  let number (value : string) (start : nat) : Token :=
    mkToken NUMBER value start (start + 1) in
  let sign (value : string) (start : nat) : Token :=
    mkToken SYMBOL value start (start + 1) in
  let sum : Sum :=
    ((number "1" 0, []),
     [(sign "+" 2, (number "2" 4, [(sign "*" 6, number "3" 8)]));
      (sign "-" 10, (number "4" 12, [(sign "/" 14, number "5" 16)]))]) in
  let this : Parser :=
    {| input := Some "1 + 2 * 3 - 4 / 5;";
       tokens := (sumTokens sum ++ [sign ";" 17])%list;
       position := 0; errors := [] |} in
  exists this' : Parser,
    parseExpression 17 this = Normal (sumTree sum) this'
    /\ ahead this' = [sign ";" 17]
    /\ errors this' = errors this.
Proof.
  intros number sign sum this.
  apply (sums_of_products_nest_to_the_left sum this [sign ";" 17] 17).
  - reflexivity.
  - reflexivity.
  - reflexivity.
  - vm_compute. lia.
Defined.

(** ** Error recovery *)

Lemma skipToNextStatementLoop_recovers (fuel : nat) :
  forall this : Parser,
    length (ahead this) <= fuel ->
    exists skipped : list Token,
      forallb passedOver skipped = true
      /\ sameButCursor this (skipToNextStatementLoop fuel this)
      /\ ((ahead this
           = (skipped ++ ahead (skipToNextStatementLoop fuel this))%list
           /\ match ahead (skipToNextStatementLoop fuel this) with
              | token :: _ => resumesAt token = true
              | [] => True
              end)
          \/ exists semicolon : Token,
               tvalue semicolon = ";"
               /\ ahead this
                  = (skipped
                     ++ semicolon :: ahead (skipToNextStatementLoop fuel this))%list).
Proof.
  induction fuel as [| fuel IH]; intros this Hfuel.
  - exists []. cbn [skipToNextStatementLoop forallb app].
    split; [reflexivity |]. split; [apply sameButCursor_refl |].
    left. split; [reflexivity |].
    destruct (ahead this); [exact I | cbn in Hfuel; lia].
  - cbn [skipToNextStatementLoop]. rewrite currentToken_ahead.
    destruct (ahead this) as [| token rest] eqn:Hahead; cbn [head].
    { exists []. cbn [forallb app]. split; [reflexivity |].
      split; [apply sameButCursor_refl |]. left. rewrite Hahead. split; auto. }
    destruct (ahead_nextToken _ _ _ Hahead) as [Hnext Hsame].
    destruct (tvalue token === ";") eqn:Hsemicolon.
    { exists []. cbn [forallb app]. split; [reflexivity |].
      split; [exact Hsame |]. right. exists token.
      split; [apply String.eqb_eq; exact Hsemicolon |].
      rewrite Hnext. reflexivity. }
    destruct ((tvalue token === "}") || (tvalue token === "{")) eqn:Hbrace.
    { exists []. cbn [forallb app]. split; [reflexivity |].
      split; [apply sameButCursor_refl |]. left. rewrite Hahead.
      split; [reflexivity |]. unfold resumesAt, isBrace.
      rewrite Hsemicolon. rewrite (orb_comm (tvalue token === "{")), Hbrace.
      reflexivity. }
    destruct (isStatementStart token) eqn:Hstart.
    { exists []. cbn [forallb app]. split; [reflexivity |].
      split; [apply sameButCursor_refl |]. left. rewrite Hahead.
      split; [reflexivity |]. unfold resumesAt.
      rewrite Hsemicolon, Hstart, orb_true_r. reflexivity. }
    destruct (IH (nextToken this)) as (skipped & Hskipped & Hsame' & Hcases).
    { rewrite Hnext. cbn [length] in Hfuel. lia. }
    exists (token :: skipped). cbn [forallb app].
    split.
    { rewrite Hskipped, andb_true_r. unfold passedOver, isBrace.
      rewrite Hsemicolon, Hstart, (orb_comm (tvalue token === "{")), Hbrace.
      reflexivity. }
    split; [eapply sameButCursor_trans; eassumption |].
    rewrite Hnext in Hcases.
    destruct Hcases as [[Hrest Hresumes] | (semicolon & Hvalue & Hrest)].
    + left. split; [rewrite Hrest at 1; reflexivity | exact Hresumes].
    + right. exists semicolon. split; [exact Hvalue |].
      rewrite Hrest at 1. reflexivity.
Qed.

(** Error recovery: [skipToNextStatement] moves the cursor only, over
    tokens that are no [";"], no brace and no start of a statement; it
    stops at the end of the tokens, at the first brace or start of a
    statement, or behind the first [";"], whichever comes first. *)
Theorem recovery_resumes_at_the_next_statement (this : Parser) :
  exists skipped : list Token,
    forallb passedOver skipped = true
    /\ errors (skipToNextStatement this) = errors this
    /\ tokens (skipToNextStatement this) = tokens this
    /\ ((ahead this = (skipped ++ ahead (skipToNextStatement this))%list
         /\ match ahead (skipToNextStatement this) with
            | token :: _ => resumesAt token = true
            | [] => True
            end)
        \/ exists semicolon : Token,
             tvalue semicolon = ";"
             /\ ahead this
                = (skipped ++ semicolon :: ahead (skipToNextStatement this))%list).
Proof.
  unfold skipToNextStatement.
  destruct (skipToNextStatementLoop_recovers
              (length (tokens this) - position this) this)
    as (skipped & Hskipped & Hsame & Hcases).
  { unfold ahead. rewrite length_drop. lia. }
  exists skipped. split; [exact Hskipped |].
  split; [symmetry; apply Hsame |]. split; [symmetry; apply Hsame |].
  exact Hcases.
Qed.
